(** * ai-import-guard-mcp: discovery-and-validation engine

    A shallow embedding of the TypeScript sources of the import guard
    (cache.ts, utils/builtin-modules.ts, utils/semantic-search.ts and the
    five engines under engines/) together with the properties of its
    specification.

    Conventions of the embedding.
    - A JavaScript string is a [string]: a sequence of 8-bit code units
      (the Latin-1 range of UTF-16).  [includes], [startsWith], [split]
      and [join] work on code units as in JavaScript; [toLowerCase] and
      the regular-expression class [\s] are the Latin-1 restrictions of
      the JavaScript ones.
    - A JavaScript number is a [Z]: sizes, counts, scores and millisecond
      time stamps are integers in this program, and the numeric inputs
      [maxResults] and [maxDepth] are taken at their integer values.
    - A [Map] or [Set] is a list in insertion order, because the program
      iterates over them and evicts the first key.
    - [Date.now()], the file system, [require.resolve] and child processes
      are read from explicit arguments ([now], the [World] records).
    - An [async] method that runs to completion is a function; a
      [try]/[catch] is a match on an [option] or on a world oracle that
      says whether the guarded call threw. *)

From Stdlib Require Import ZArith String Ascii List Bool Lia DecimalString.
From Stdlib Require Import DecimalZ DecimalPos Permutation Sorted.
Import ListNotations.

Open Scope string_scope.
Open Scope Z_scope.

(** ** JavaScript strings *)

Module JsString.

(** [s.includes(t)]: [t] occurs in [s] as a contiguous run of code units. *)
Fixpoint includes (s t : string) : bool :=
  prefix t s ||
  match s with
  | EmptyString => false
  | String _ s' => includes s' t
  end.

(** What [includes] decides: [t] lies in [s] between some [a] and [b]. *)
Definition substring_of (t s : string) : Prop := exists a b, s = a ++ t ++ b.

(** [s.startsWith(p)]. *)
Definition startsWith (s p : string) : bool := prefix p s.

(** [arr.join(sep)]. *)
Definition join (sep : string) (l : list string) : string := String.concat sep l.

(** [arr.includes(x)] on an array of strings. *)
Definition array_includes (l : list string) (x : string) : bool :=
  existsb (String.eqb x) l.

(** A non-empty string is truthy, the empty string is falsy. *)
Definition truthy (s : string) : bool :=
  match s with EmptyString => false | String _ _ => true end.

(** [s.split(sep)] for a non-empty separator [sep]; [fuel] bounds the
    number of code units still to scan. *)
Fixpoint split_aux (fuel : nat) (sep : string) (acc : string) (s : string)
  : list string :=
  match fuel with
  | O => [acc]
  | S fuel' =>
      match s with
      | EmptyString => [acc]
      | String c s' =>
          if prefix sep s
          then acc :: split_aux fuel' sep EmptyString
                        (substring (String.length sep)
                                   (String.length s - String.length sep) s)
          else split_aux fuel' sep (acc ++ String c EmptyString) s'
      end
  end.

Definition split (sep : string) (s : string) : list string :=
  split_aux (S (String.length s)) sep EmptyString s.

Definition code (c : ascii) : N := N_of_ascii c.

(** [\s] restricted to Latin-1: TAB, LF, VT, FF, CR, SPACE and NBSP. *)
Definition is_space (c : ascii) : bool :=
  let n := code c in
  ((9 <=? n) && (n <=? 13))%N || (n =? 32)%N || (n =? 160)%N.

(** A line terminator, which [.] does not match. *)
Definition is_line_terminator (c : ascii) : bool :=
  let n := code c in (n =? 10)%N || (n =? 13)%N.

(** [s.split(/\s+/)]: the pieces between maximal runs of white space.
    [in_ws] tells that the previous code unit was white space. *)
Fixpoint split_ws_aux (acc : string) (in_ws : bool) (s : string) : list string :=
  match s with
  | EmptyString => [acc]
  | String c s' =>
      if is_space c
      then if in_ws then split_ws_aux acc true s'
           else acc :: split_ws_aux EmptyString true s'
      else split_ws_aux (acc ++ String c EmptyString) false s'
  end.

Definition split_ws (s : string) : list string := split_ws_aux EmptyString false s.

(** [toLowerCase] on Latin-1: A-Z and the accented capitals except the
    multiplication sign move up by 32. *)
Definition lower_char (c : ascii) : ascii :=
  let n := code c in
  if (((65 <=? n) && (n <=? 90)) ||
      ((192 <=? n) && (n <=? 222) && negb (n =? 215)))%N
  then ascii_of_N (n + 32) else c.

Fixpoint toLowerCase (s : string) : string :=
  match s with
  | EmptyString => EmptyString
  | String c s' => String (lower_char c) (toLowerCase s')
  end.

(** [String(n)] for an integer number below 10^21 in absolute value,
    which JavaScript prints digit by digit (beyond that it prints an
    exponent). *)
Definition of_number (n : Z) : string := NilZero.string_of_int (Z.to_int n).

(** [String(b)]. *)
Definition of_boolean (b : bool) : string := if b then "true" else "false".

End JsString.

(** ** cache.ts *)

Module Cache.

(** [CacheEntry<T>] and [CacheOptions] of types.ts. *)
Record CacheEntry (T : Type) : Type := mkEntry {
  data : T;
  timestamp : Z;
  ttl : Z
}.
Arguments mkEntry {T}.
Arguments data {T}.
Arguments timestamp {T}.
Arguments ttl {T}.

Record CacheOptions : Type := mkOptions {
  opt_ttl : Z;
  maxSize : Z
}.

(** The [Map<string, CacheEntry<any>>]: bindings in insertion order. *)
Definition JsMap (T : Type) : Type := list (string * CacheEntry T).

Section MapOps.
Context {T : Type}.

Fixpoint map_get (key : string) (m : JsMap T) : option (CacheEntry T) :=
  match m with
  | [] => None
  | (k, e) :: m' => if String.eqb k key then Some e else map_get key m'
  end.

Definition map_has (key : string) (m : JsMap T) : bool :=
  match map_get key m with Some _ => true | None => false end.

(** [Map.prototype.set]: an existing key keeps its place, a new key is
    appended. *)
Fixpoint map_set (key : string) (e : CacheEntry T) (m : JsMap T) : JsMap T :=
  match m with
  | [] => [(key, e)]
  | (k, e') :: m' =>
      if String.eqb k key then (k, e) :: m' else (k, e') :: map_set key e m'
  end.

Definition map_delete (key : string) (m : JsMap T) : JsMap T :=
  filter (fun b => negb (String.eqb (fst b) key)) m.

Definition map_size (m : JsMap T) : Z := Z.of_nat (List.length m).

(** [m.keys().next().value]: the first key, [undefined] on an empty map. *)
Definition map_first_key (m : JsMap T) : option string :=
  match m with
  | [] => None
  | (k, _) :: _ => Some k
  end.

(** No key is bound twice. *)
Definition map_wf (m : JsMap T) : Prop := NoDup (map fst m).
End MapOps.

Record CacheManager (T : Type) : Type := mkCache {
  cache : JsMap T;
  options : CacheOptions
}.
Arguments mkCache {T}.
Arguments cache {T}.
Arguments options {T}.

Section Manager.
Context {T : Type}.

Definition create (opts : CacheOptions) : CacheManager T :=
  mkCache [] opts.

Definition with_cache (c : CacheManager T) (m : JsMap T) : CacheManager T :=
  mkCache m (options c).

(** [get(key)]; [None] is the [null] of a miss or of an expired entry. *)
Definition get (c : CacheManager T) (now : Z) (key : string)
  : option T * CacheManager T :=
  match map_get key (cache c) with
  | None => (None, c)
  | Some entry =>
      if now - timestamp entry >? ttl entry
      then (None, with_cache c (map_delete key (cache c)))
      else (Some (data entry), c)
  end.

(** The eviction step that opens [set]. *)
Definition evict_if_full (c : CacheManager T) : JsMap T :=
  if map_size (cache c) >=? maxSize (options c)
  then match map_first_key (cache c) with
       | Some oldestKey =>
           if JsString.truthy oldestKey
           then map_delete oldestKey (cache c)
           else cache c
       | None => cache c
       end
  else cache c.

(** [set(key, value, customTtl?)]. *)
Definition set (c : CacheManager T) (now : Z) (key : string) (value : T)
           (customTtl : option Z) : CacheManager T :=
  let m := evict_if_full c in
  let entry :=
    mkEntry value now
            (match customTtl with Some t => t | None => opt_ttl (options c) end) in
  with_cache c (map_set key entry m).

(** [has(key)]: [get(key) !== null]; it reads through [get], so it may
    delete.  The engines store objects only, never [null]. *)
Definition has (c : CacheManager T) (now : Z) (key : string)
  : bool * CacheManager T :=
  match get c now key with
  | (Some _, c') => (true, c')
  | (None, c') => (false, c')
  end.

Definition delete (c : CacheManager T) (key : string) : bool * CacheManager T :=
  (map_has key (cache c), with_cache c (map_delete key (cache c))).

Definition clear (c : CacheManager T) : CacheManager T := with_cache c [].

(** The periodic [cleanup()]. *)
Definition cleanup (c : CacheManager T) (now : Z) : CacheManager T :=
  let keysToDelete :=
    map fst (filter (fun b => now - timestamp (snd b) >? ttl (snd b)) (cache c)) in
  with_cache c (fold_left (fun m k => map_delete k m) keysToDelete (cache c)).

(** The [size] field of [getStats()]. *)
Definition size (c : CacheManager T) : Z := map_size (cache c).

(** One call on the cache, for sequences of operations. *)
Inductive op : Type :=
| OpGet (now : Z) (key : string)
| OpSet (now : Z) (key : string) (value : T) (customTtl : option Z)
| OpHas (now : Z) (key : string)
| OpDelete (key : string)
| OpClear
| OpCleanup (now : Z).

Definition step (c : CacheManager T) (o : op) : CacheManager T :=
  match o with
  | OpGet now key => snd (get c now key)
  | OpSet now key value customTtl => set c now key value customTtl
  | OpHas now key => snd (has c now key)
  | OpDelete key => snd (delete c key)
  | OpClear => clear c
  | OpCleanup now => cleanup c now
  end.

Definition run (c : CacheManager T) (ops : list op) : CacheManager T :=
  fold_left step ops c.

(** The key that a [set] writes, if the call is one. *)
Definition set_key (o : op) : option string :=
  match o with
  | OpSet _ key _ _ => Some key
  | _ => None
  end.

(** No stored key is the empty string. *)
Definition keys_truthy (m : JsMap T) : Prop :=
  Forall (fun b => JsString.truthy (fst b) = true) m.

(** The invariant of the capacity policy. *)
Definition bounded (c : CacheManager T) : Prop :=
  size c <= maxSize (options c) /\ keys_truthy (cache c).
End Manager.

(** An argument of [generateKey]: [string | number | boolean | undefined]. *)
Inductive part : Type :=
| PStr (s : string)
| PNum (n : Z)
| PBool (b : bool)
| PUndefined.

Definition is_defined (p : part) : bool :=
  match p with PUndefined => false | _ => true end.

(** [String(part)]. *)
Definition part_to_string (p : part) : string :=
  match p with
  | PStr s => s
  | PNum n => JsString.of_number n
  | PBool b => JsString.of_boolean b
  | PUndefined => "undefined"
  end.

(** Optional string argument. *)
Definition opt_str (o : option string) : part :=
  match o with Some s => PStr s | None => PUndefined end.

(** [CacheManager.generateKey(...parts)]. *)
Definition generateKey (parts : list part) : string :=
  JsString.join ":" (map part_to_string (filter is_defined parts)).

End Cache.

(** ** Regular expressions

    The engines recognise import statements with regular-expression
    literals and [String.prototype.match].  This is the backtracking
    matcher of ECMAScript for the constructs those literals use. *)

Module Regex.

Inductive regex : Type :=
| Lit (s : string)                  (* a run of literal characters *)
| Class (p : ascii -> bool)         (* one character of a class *)
| Seq (r1 r2 : regex)
| Star (r : regex)                  (* greedy [r*] *)
| Group (i : nat) (r : regex)       (* the [i]-th capturing group *)
| Bol                               (* [^] without the m flag *)
| Eol.                              (* [$] without the m flag *)

(** [r+]; no pattern of the program repeats a capturing group. *)
Definition Plus (r : regex) : regex := Seq r (Star r).

Fixpoint seq (rs : list regex) : regex :=
  match rs with
  | [] => Lit EmptyString
  | [r] => r
  | r :: rs' => Seq r (seq rs')
  end.

(** Character classes of the literals. *)
Definition space : regex := Class JsString.is_space.                        (* \s *)
Definition dot : regex := Class (fun c => negb (JsString.is_line_terminator c)). (* . *)
Definition non_space : regex := Class (fun c => negb (JsString.is_space c)).     (* [^\s] *)
Definition one_of (cs : string) : regex :=
  Class (fun c => JsString.includes cs (String c EmptyString)).
Definition none_of (cs : string) : regex :=
  Class (fun c => negb (JsString.includes cs (String c EmptyString))).

Definition in_range (lo hi : ascii) (c : ascii) : bool :=
  ((JsString.code lo <=? JsString.code c) && (JsString.code c <=? JsString.code hi))%N.

(** [[a-zA-Z_]] and [[a-zA-Z0-9_]]. *)
Definition ident_start : regex :=
  Class (fun c => in_range "a" "z" c || in_range "A" "Z" c || Ascii.eqb c "_").
Definition ident_char : regex :=
  Class (fun c => in_range "a" "z" c || in_range "A" "Z" c ||
                  in_range "0" "9" c || Ascii.eqb c "_").

(** Captures: the text of each group that took part in the match. *)
Definition captures : Type := list (nat * string).

Fixpoint cap_get (i : nat) (cs : captures) : option string :=
  match cs with
  | [] => None
  | (j, s) :: cs' => if Nat.eqb i j then Some s else cap_get i cs'
  end.

(** The loop of a greedy [r*]: [body] matches [r] once.  Another
    iteration is tried first, and an iteration that consumes nothing is
    refused, as in ECMAScript's RepeatMatcher; [n] bounds the number of
    iterations. *)
Fixpoint star_loop {R : Type}
         (body : nat -> string -> captures ->
                 (nat -> string -> captures -> option R) -> option R)
         (n : nat) (pos : nat) (s : string) (cs : captures)
         (k : nat -> string -> captures -> option R) : option R :=
  match n with
  | O => k pos s cs
  | S n' =>
      match body pos s cs
                 (fun pos' s' cs' =>
                    if Nat.eqb pos' pos then None
                    else star_loop body n' pos' s' cs' k) with
      | Some x => Some x
      | None => k pos s cs
      end
  end.

(** The matcher in continuation-passing style.  [pos] is the index of
    the next code unit and [s] the rest of the input from there; [k]
    is what remains to be matched.  [fuel] bounds the iterations of each
    [Star]; more than the length of the input is never used. *)
Fixpoint m {R : Type} (r : regex) (fuel : nat) (pos : nat) (s : string)
         (cs : captures) (k : nat -> string -> captures -> option R)
  : option R :=
  match r with
  | Lit l =>
      if prefix l s
      then k (pos + String.length l)%nat
             (substring (String.length l) (String.length s - String.length l) s) cs
      else None
  | Class p =>
      match s with
      | String c s' => if p c then k (S pos) s' cs else None
      | EmptyString => None
      end
  | Seq r1 r2 =>
      m r1 fuel pos s cs (fun pos' s' cs' => m r2 fuel pos' s' cs' k)
  | Star r' => star_loop (m r' fuel) fuel pos s cs k
  | Group i r' =>
      m r' fuel pos s cs
        (fun pos' s' cs' => k pos' s' ((i, substring 0 (pos' - pos) s) :: cs'))
  | Bol => if Nat.eqb pos 0 then k pos s cs else None
  | Eol => match s with EmptyString => k pos s cs | _ => None end
  end.

(** The positions that a continuation is called on: a suffix of the
    input, [pos'] code units in. *)
Definition later (pos : nat) (s : string) (pos' : nat) (s' : string) : Prop :=
  (pos <= pos')%nat /\ (pos' + String.length s' = pos + String.length s)%nat.

(** Number of capturing groups of a pattern. *)
Fixpoint groups (r : regex) : nat :=
  match r with
  | Seq r1 r2 => groups r1 + groups r2
  | Star r' => groups r'
  | Group _ r' => S (groups r')
  | _ => 0
  end.

(** A match that starts at [pos]: its end and its captures. *)
Definition match_at (r : regex) (pos : nat) (s : string) : option (nat * captures) :=
  m r (S (String.length s)) pos s [] (fun pos' _ cs => Some (pos', cs)).

(** The leftmost match: start positions are tried from left to right. *)
Fixpoint search (r : regex) (pos : nat) (s : string)
  : option (nat * nat * captures) :=
  match match_at r pos s with
  | Some (e, cs) => Some (pos, e, cs)
  | None =>
      match s with
      | EmptyString => None
      | String _ s' => search r (S pos) s'
      end
  end.

(** [s.match(r)] for a pattern without the g flag: [null], or the array
    of the matched text followed by the text of each group
    ([undefined] for a group that took no part). *)
Definition str_match (s : string) (r : regex) : option (list (option string)) :=
  match search r 0 s with
  | None => None
  | Some (b, e, cs) =>
      Some (Some (substring b (e - b) s)
              :: map (fun i => cap_get i cs) (List.seq 1 (groups r)))
  end.

(** [match[i]], [undefined] when out of range. *)
Definition at_index (a : list (option string)) (i : nat) : option string :=
  match nth_error a i with
  | Some (Some s) => Some s
  | _ => None
  end.

End Regex.

(** ** types.ts *)

Module Types.

(** [PackageInfo].  The optional fields [main], [types], [exports],
    [dependencies] and [devDependencies] are copied from an installed
    package's manifest and read by no operation; they are left out.
    [category] and [semanticScore] are the two fields that
    [enhancePackageInfo] adds. *)
Record PackageInfo : Type := mkPackage {
  name : string;
  version : string;
  description : option string;
  installed : bool;
  path : option string;
  category : option string;
  semanticScore : option Z
}.

Inductive Language : Type := javascript | python | rust | go | java.

Definition language_name (l : Language) : string :=
  match l with
  | javascript => "javascript"
  | python => "python"
  | rust => "rust"
  | go => "go"
  | java => "java"
  end.

(** [ValidationResult]; an absent optional field is [None]. *)
Record ValidationResult : Type := mkValidation {
  valid : bool;
  packageName : string;
  modulePath : option string;
  reason : option string;
  suggestions : option (list string)
}.

Inductive ExportType : Type :=
| TFunction | TClass | TConstant | TType | TInterface | TNamespace.

(** [ModuleExport]; [parameters] and [returnType] are produced only by
    the TypeScript parser, whose result is an oracle here. *)
Record ModuleExport : Type := mkExport {
  export_name : string;
  export_type : ExportType;
  signature : option string;
  export_description : option string
}.

(** [ModuleInfo]. *)
Record ModuleInfo : Type := mkModule {
  module_name : string;
  module_path : string;
  exports : list ModuleExport;
  submodules : list string;
  dependencies : list string
}.

(** [DiscoveryResult]; [timestamp] is the clock reading that
    [new Date().toISOString()] prints. *)
Record DiscoveryResult : Type := mkDiscovery {
  packages : list PackageInfo;
  totalFound : Z;
  searchTerm : option string;
  language : Language;
  result_timestamp : Z
}.

(** The tool inputs.  [maxResults] and [maxDepth] are JavaScript numbers
    that the input schema bounds from below by 1; they are embedded at
    their integer values.  (The schema does not ask for an integer: a
    fraction passes it and is outside this embedding.) *)
Record DiscoverPackagesInput : Type := mkDiscoverInput {
  d_language : Language;
  d_searchTerm : option string;
  d_includeDevDependencies : bool;
  d_maxResults : Z
}.

Record ValidateImportInput : Type := mkValidateInput {
  importStatement : string;
  v_language : Language;
  projectPath : option string
}.

Record IntrospectModuleInput : Type := mkIntrospectInput {
  moduleName : string;
  i_language : Language;
  includePrivate : bool;
  maxDepth : Z
}.

Record SearchAffordancesInput : Type := mkSearchInput {
  query : string;
  s_language : Language;
  s_category : string;
  s_maxResults : Z
}.

(** What the shared [CacheManager] holds: its entries are
    [CacheEntry<any>], and [get<T>] is an unchecked cast. *)
Inductive Any : Type :=
| ADiscovery (r : DiscoveryResult)
| AValidation (r : ValidationResult)
| AModule (r : ModuleInfo).

(** A bare package record, as the engines build it. *)
Definition package (n v : string) (d : option string) (i : bool) (p : option string)
  : PackageInfo := mkPackage n v d i p None None.

(** [arr.slice(0, n)]: a negative [n] counts from the end. *)
Definition slice0 {A : Type} (n : Z) (l : list A) : list A :=
  if n <? 0
  then firstn (Z.to_nat (Z.of_nat (List.length l) + n)) l
  else firstn (Z.to_nat n) l.

(** A [Set] built from an array literal: later duplicates are dropped. *)
Fixpoint mkSet_aux (seen : list string) (l : list string) : list string :=
  match l with
  | [] => []
  | x :: l' =>
      if JsString.array_includes seen x then mkSet_aux seen l'
      else x :: mkSet_aux (x :: seen) l'
  end.

Definition mkSet (l : list string) : list string := mkSet_aux [] l.

(** [set.has(x)]. *)
Definition set_has (s : list string) (x : string) : bool :=
  JsString.array_includes s x.

(** A plain object with string values: its own properties in the order
    in which they were created. *)
Definition Obj : Type := list (string * string).

Fixpoint obj_set (k v : string) (o : Obj) : Obj :=
  match o with
  | [] => [(k, v)]
  | (k', v') :: o' =>
      if String.eqb k' k then (k', v) :: o' else (k', v') :: obj_set k v o'
  end.

Definition is_digit (c : ascii) : bool :=
  ((48 <=? JsString.code c) && (JsString.code c <=? 57))%N.

Fixpoint digits_value (acc : N) (s : string) : option N :=
  match s with
  | EmptyString => Some acc
  | String c s' =>
      if is_digit c then digits_value (acc * 10 + (JsString.code c - 48))%N s'
      else None
  end.

(** A property name is an array index when it is the canonical decimal
    text of an integer from 0 to 2^32 - 2. *)
Definition array_index (k : string) : option N :=
  match k with
  | EmptyString => None
  | String c rest =>
      if Ascii.eqb c "0" && JsString.truthy rest then None
      else match digits_value 0 k with
           | Some n => if (n <? 4294967295)%N then Some n else None
           | None => None
           end
  end.

Fixpoint insert_index (x : N * (string * string)) (l : list (N * (string * string)))
  : list (N * (string * string)) :=
  match l with
  | [] => [x]
  | y :: l' => if (fst x <? fst y)%N then x :: l else y :: insert_index x l'
  end.

(** [Object.entries(o)]: the properties whose names are array indices
    come first, in ascending order, then the others in the order of
    their creation. *)
Definition obj_entries (o : Obj) : Obj :=
  let indexed :=
    flat_map (fun kv => match array_index (fst kv) with
                        | Some n => [(n, kv)]
                        | None => []
                        end) o in
  (map snd (fold_right insert_index [] indexed) ++
   filter (fun kv => match array_index (fst kv) with
                     | Some _ => false
                     | None => true
                     end) o)%list.

(** [{ ...a, ...b }]: the properties of [a], then those of [b], each
    copied in the order of [Object.entries]. *)
Definition spread (a b : Obj) : Obj :=
  fold_left (fun acc kv => obj_set (fst kv) (snd kv) acc) (obj_entries b)
            (fold_left (fun acc kv => obj_set (fst kv) (snd kv) acc) (obj_entries a) []).

(** [Object.keys(o)]. *)
Definition obj_keys (o : Obj) : list string := map fst (obj_entries o).

(** The property names that every plain object inherits from
    [Object.prototype]. *)
Definition object_prototype_names : list string :=
  ["constructor"; "__defineGetter__"; "__defineSetter__"; "hasOwnProperty";
   "__lookupGetter__"; "__lookupSetter__"; "isPrototypeOf"; "propertyIsEnumerable";
   "toString"; "valueOf"; "__proto__"; "toLocaleString"].

(** [k in o], which is true of the own and of the inherited properties. *)
Definition obj_in (k : string) (o : Obj) : bool :=
  JsString.array_includes (map fst o) k ||
  JsString.array_includes object_prototype_names k.

(** [o || {}] for an optional object. *)
Definition or_empty (o : option Obj) : Obj :=
  match o with Some x => x | None => [] end.

End Types.

(** ** utils/builtin-modules.ts *)

Module Builtin.

Definition NODE_BUILTIN_MODULES : list string :=
  Eval vm_compute in
  Types.mkSet
  ["assert"; "assert/strict"; "async_hooks"; "buffer"; "child_process"; "cluster";
     "console"; "constants"; "crypto"; "dgram"; "diagnostics_channel"; "dns";
     "dns/promises"; "domain"; "events"; "fs"; "fs/promises"; "http"; "http2"; "https";
     "inspector"; "module"; "net"; "os"; "path"; "path/posix"; "path/win32";
     "perf_hooks"; "process"; "punycode"; "querystring"; "readline";
     "readline/promises"; "repl"; "stream"; "stream/promises"; "stream/web";
     "string_decoder"; "sys"; "timers"; "timers/promises"; "tls"; "trace_events";
     "tty"; "url"; "util"; "util/types"; "v8"; "vm"; "wasi"; "worker_threads"; "zlib";
     "stream/consumers"; "stream/web"; "util/types"; "node:test"; "test";
     "node:assert"; "node:assert/strict"; "node:async_hooks"; "node:buffer";
     "node:child_process"; "node:cluster"; "node:console"; "node:constants";
     "node:crypto"; "node:dgram"; "node:diagnostics_channel"; "node:dns";
     "node:dns/promises"; "node:domain"; "node:events"; "node:fs"; "node:fs/promises";
     "node:http"; "node:http2"; "node:https"; "node:inspector"; "node:module";
     "node:net"; "node:os"; "node:path"; "node:path/posix"; "node:path/win32";
     "node:perf_hooks"; "node:process"; "node:punycode"; "node:querystring";
     "node:readline"; "node:readline/promises"; "node:repl"; "node:stream";
     "node:stream/promises"; "node:stream/web"; "node:string_decoder"; "node:sys";
     "node:timers"; "node:timers/promises"; "node:tls"; "node:trace_events";
     "node:tty"; "node:url"; "node:util"; "node:util/types"; "node:v8"; "node:vm";
     "node:wasi"; "node:worker_threads"; "node:zlib"; "node:stream/consumers";
     "node:stream/web"; "node:util/types"].

Definition isNodeBuiltinModule (moduleName : string) : bool :=
  Types.set_has NODE_BUILTIN_MODULES moduleName.

(** [s.replace(pat, rep)] with a string pattern: the first occurrence. *)
Fixpoint replace_first (pat rep : string) (s : string) : string :=
  if prefix pat s
  then rep ++ substring (String.length pat) (String.length s - String.length pat) s
  else match s with
       | EmptyString => EmptyString
       | String c s' => String c (replace_first pat rep s')
       end.

(** The [descriptions] table of [getBuiltinModuleInfo]. *)
Definition descriptions : list (string * (string * string)) :=
  [
    ("assert", ("Assertion testing utilities", "testing"));
    ("async_hooks", ("Async resource lifecycle tracking", "utility"));
    ("buffer", ("Binary data handling", "utility"));
    ("child_process", ("Child process spawning", "system"));
    ("cluster", ("Child process clustering", "system"));
    ("console", ("Console utilities", "utility"));
    ("constants", ("System constants", "system"));
    ("crypto", ("Cryptographic functionality", "security"));
    ("dgram", ("UDP/datagram sockets", "network"));
    ("diagnostics_channel", ("Diagnostics channel API", "utility"));
    ("dns", ("DNS lookups", "network"));
    ("domain", ("Domain error handling", "utility"));
    ("events", ("Event emitter", "utility"));
    ("fs", ("File system operations", "system"));
    ("http", ("HTTP server and client", "network"));
    ("http2", ("HTTP/2 server and client", "network"));
    ("https", ("HTTPS server and client", "network"));
    ("inspector", ("Inspector API", "utility"));
    ("module", ("Module system utilities", "system"));
    ("net", ("TCP networking", "network"));
    ("os", ("Operating system utilities", "system"));
    ("path", ("File path utilities", "utility"));
    ("perf_hooks", ("Performance measurement", "utility"));
    ("process", ("Process object", "system"));
    ("punycode", ("Punycode encoding/decoding", "utility"));
    ("querystring", ("Query string utilities", "utility"));
    ("readline", ("Readline interface", "utility"));
    ("repl", ("Read-eval-print loop", "utility"));
    ("stream", ("Streaming data", "utility"));
    ("string_decoder", ("String decoder", "utility"));
    ("sys", ("System utilities (deprecated)", "system"));
    ("timers", ("Timer functions", "utility"));
    ("tls", ("TLS/SSL encryption", "security"));
    ("trace_events", ("Trace events", "utility"));
    ("tty", ("TTY utilities", "system"));
    ("url", ("URL parsing", "utility"));
    ("util", ("Utility functions", "utility"));
    ("v8", ("V8 engine utilities", "system"));
    ("vm", ("Virtual machine context", "system"));
    ("wasi", ("WebAssembly System Interface", "system"));
    ("worker_threads", ("Worker threads", "system"));
    ("zlib", ("Compression utilities", "utility"));
    ("test", ("Test runner", "testing"))
  ].

Fixpoint lookup {A : Type} (k : string) (t : list (string * A)) : option A :=
  match t with
  | [] => None
  | (k', v) :: t' => if String.eqb k' k then Some v else lookup k t'
  end.

Record BuiltinInfo : Type := mkInfo {
  info_name : string;
  isBuiltin : bool;
  info_description : option string;
  info_category : option string
}.

Definition getBuiltinModuleInfo (moduleName : string) : BuiltinInfo :=
  if negb (isNodeBuiltinModule moduleName)
  then mkInfo moduleName false None None
  else
    let cleanName := replace_first "node:" EmptyString moduleName in
    let info :=
      match lookup cleanName descriptions with
      | Some i => i
      | None => ("Node.js built-in module", "system")
      end in
    mkInfo moduleName true (Some (fst info)) (Some (snd info)).

(** A template literal prints an absent value as [undefined]. *)
Definition template (o : option string) : string :=
  match o with Some s => s | None => "undefined" end.

(** A [Record<string, string[]>], in the order in which its keys were
    first written. *)
Definition Groups : Type := list (string * list string).

(** [if (!categories[category]) categories[category] = [];
    categories[category].push(moduleName);] *)
Fixpoint group_push (category moduleName : string) (categories : Groups) : Groups :=
  match categories with
  | [] => [(category, [moduleName])]
  | (c, ms) :: rest =>
      if String.eqb c category then (c, (ms ++ [moduleName])%list) :: rest
      else (c, ms) :: group_push category moduleName rest
  end.

(** [info.category || 'other']. *)
Definition category_or_other (moduleName : string) : string :=
  match info_category (getBuiltinModuleInfo moduleName) with
  | Some c => if JsString.truthy c then c else "other"
  | None => "other"
  end.

(** The [forEach] of [getBuiltinModulesByCategory] over a list of modules. *)
Definition group_by_category (modules : list string) : Groups :=
  fold_left (fun categories moduleName =>
               group_push (category_or_other moduleName) moduleName categories)
            modules [].

(** [getBuiltinModulesByCategory()]. *)
Definition getBuiltinModulesByCategory : Groups :=
  group_by_category
    (filter (fun m => negb (JsString.startsWith m "node:")) NODE_BUILTIN_MODULES).

(** The modules filed under a category, none when the key is absent. *)
Definition group (category : string) (categories : Groups) : list string :=
  match lookup category categories with
  | Some ms => ms
  | None => []
  end.

End Builtin.

(** ** utils/semantic-search.ts *)

Module SemanticSearch.

Import Types.

Record Category : Type := mkCategory {
  cat_name : string;
  keywords : list string;
  weight : Z
}.

(** [PACKAGE_CATEGORIES], in the order of [Object.entries]. *)
Definition PACKAGE_CATEGORIES : list Category :=
  [
    mkCategory "ui"
      ["react"; "vue"; "angular"; "component"; "ui"; "interface"; "design"; "styled";
       "css"; "bootstrap"; "material"; "antd"; "chakra"; "semantic"; "tailwind";
       "theme"; "layout"; "grid"; "flex"; "button"; "form"; "input"; "modal";
       "dropdown"; "menu"; "navigation"; "chart"; "graph"; "visualization";
       "datepicker"; "calendar"; "slider"; "tooltip"; "popover"; "toast";
       "notification"; "animation"; "transition"; "icon"; "image"; "gallery";
       "carousel"; "slider"; "accordion"; "tabs"; "pagination"; "table"; "grid"; "list"]
      1;
    mkCategory "data"
      ["database"; "sql"; "nosql"; "mongodb"; "postgres"; "mysql"; "redis"; "orm";
       "query"; "schema"; "migration"; "json"; "xml"; "csv"; "parser"; "serialization";
       "validation"; "transform"; "filter"; "sort"; "aggregate"; "cache"; "storage";
       "persistence"; "indexing"; "search"; "elasticsearch"; "solr"; "lucene";
       "analytics"; "metrics"; "logging"; "monitoring"; "backup"; "sync"; "replication"]
      1;
    mkCategory "network"
      ["http"; "https"; "request"; "client"; "server"; "api"; "rest"; "graphql";
       "websocket"; "socket"; "tcp"; "udp"; "proxy"; "middleware"; "cors"; "auth";
       "jwt"; "oauth"; "session"; "cookie"; "express"; "koa"; "fastify"; "hapi";
       "nest"; "apollo"; "axios"; "fetch"; "superagent"; "request"; "curl"; "download";
       "upload"; "stream"; "chunk"; "compress"; "gzip"; "deflate"; "ssl"; "tls";
       "certificate"; "encryption"; "security"]
      1;
    mkCategory "testing"
      ["test"; "testing"; "jest"; "mocha"; "chai"; "jasmine"; "karma"; "cypress";
       "selenium"; "playwright"; "puppeteer"; "mock"; "stub"; "spy"; "fixture";
       "assertion"; "expect"; "should"; "coverage"; "benchmark"; "performance"; "load";
       "stress"; "unit"; "integration"; "e2e"; "snapshot"; "runner"; "framework";
       "suite"; "spec"; "describe"; "it"; "before"; "after"; "setup"; "teardown"]
      1;
    mkCategory "build"
      ["build"; "webpack"; "rollup"; "vite"; "parcel"; "babel"; "typescript";
       "compiler"; "transpiler"; "bundler"; "minify"; "optimize"; "uglify"; "terser";
       "postcss"; "sass"; "less"; "stylus"; "plugin"; "loader"; "preset"; "config";
       "eslint"; "prettier"; "lint"; "format"; "gulp"; "grunt"; "task"; "runner";
       "deploy"; "ci"; "cd"; "github"; "actions"; "jenkins"; "travis"; "circle"]
      1;
    mkCategory "utility"
      ["util"; "helper"; "lodash"; "underscore"; "ramda"; "moment"; "date"; "time";
       "format"; "parse"; "string"; "number"; "math"; "crypto"; "hash"; "uuid"; "guid";
       "random"; "color"; "path"; "file"; "directory"; "fs"; "stream"; "buffer";
       "array"; "object"; "collection"; "functional"; "promise"; "async"; "await";
       "throttle"; "debounce"; "retry"; "queue"; "stack"; "tree"; "graph"; "algorithm";
       "sort"; "search"; "binary"; "regex"; "pattern"; "match"]
      1
  ].

(** [FUNCTIONALITY_MAPPINGS], in the order of [Object.entries]. *)
Definition FUNCTIONALITY_MAPPINGS : list (string * list string) :=
  [
    ("http client", ["axios"; "node-fetch"; "superagent"; "got"; "request"]);
    ("http server", ["express"; "koa"; "fastify"; "hapi"; "nest"]);
    ("api testing", ["supertest"; "nock"; "msw"; "jest"]);
    ("websocket", ["ws"; "socket.io"; "socketio"]);
    ("graphql", ["graphql"; "apollo-server"; "apollo-client"; "relay"]);
    ("database", ["mongoose"; "sequelize"; "typeorm"; "prisma"; "knex"]);
    ("mongodb", ["mongoose"; "mongodb"]);
    ("postgresql", ["pg"; "sequelize"; "typeorm"; "prisma"]);
    ("mysql", ["mysql"; "mysql2"; "sequelize"; "typeorm"]);
    ("redis", ["redis"; "ioredis"]);
    ("orm", ["sequelize"; "typeorm"; "prisma"; "objection"]);
    ("react", ["react"; "react-dom"; "react-router"; "react-redux"; "styled-components"]);
    ("vue", ["vue"; "vue-router"; "vuex"; "nuxt"]);
    ("angular", ["@angular/core"; "@angular/common"; "@angular/router"]);
    ("ui components", ["antd"; "material-ui"; "chakra-ui"; "semantic-ui-react"]);
    ("styling", ["styled-components"; "emotion"; "tailwindcss"; "bootstrap"]);
    ("animation", ["framer-motion"; "react-spring"; "lottie-react"; "gsap"]);
    ("charts", ["chart.js"; "recharts"; "d3"; "plotly.js"]);
    ("testing", ["jest"; "mocha"; "chai"; "jasmine"; "vitest"]);
    ("e2e testing", ["cypress"; "playwright"; "puppeteer"; "selenium-webdriver"]);
    ("mocking", ["jest"; "sinon"; "msw"; "nock"]);
    ("bundling", ["webpack"; "rollup"; "vite"; "parcel"; "esbuild"]);
    ("transpiling", ["babel"; "typescript"; "swc"]);
    ("linting", ["eslint"; "prettier"; "jshint"; "tslint"]);
    ("task runner", ["gulp"; "grunt"; "npm-run-all"]);
    ("date handling", ["moment"; "date-fns"; "dayjs"; "luxon"]);
    ("validation", ["joi"; "yup"; "zod"; "ajv"]);
    ("logging", ["winston"; "pino"; "bunyan"; "debug"]);
    ("utilities", ["lodash"; "underscore"; "ramda"; "rxjs"]);
    ("file processing", ["fs-extra"; "glob"; "chokidar"; "sharp"]);
    ("crypto", ["crypto-js"; "bcrypt"; "jsonwebtoken"; "uuid"]);
    ("process management", ["pm2"; "forever"; "nodemon"; "concurrently"]);
    ("json", ["json5"; "hjson"; "jsonpath"; "fast-json-stringify"]);
    ("xml", ["xml2js"; "fast-xml-parser"; "xmldom"]);
    ("csv", ["csv-parser"; "fast-csv"; "papaparse"]);
    ("yaml", ["js-yaml"; "yaml"])
  ].

Definition description_or_empty (p : PackageInfo) : string :=
  match description p with Some d => d | None => EmptyString end.

(** [calculateSemanticScore(query, packageInfo)].  The running [score]
    of the source is threaded through the three [forEach] loops. *)
Definition calculateSemanticScore (query : string) (packageInfo : PackageInfo) : Z :=
  let queryLower := JsString.toLowerCase query in
  let packageName := JsString.toLowerCase (name packageInfo) in
  let description := JsString.toLowerCase (description_or_empty packageInfo) in
  let score := 0 in
  let score := if String.eqb packageName queryLower then score + 100 else score in
  let score :=
    if JsString.includes packageName queryLower || JsString.includes queryLower packageName
    then score + 50 else score in
  let queryWords := JsString.split_ws queryLower in
  let descriptionWords := JsString.split_ws description in
  let score :=
    fold_left
      (fun score queryWord =>
         let score :=
           if JsString.includes packageName queryWord then score + 30 else score in
         if existsb (fun word => JsString.includes word queryWord) descriptionWords
         then score + 20 else score)
      queryWords score in
  let score :=
    fold_left
      (fun score categoryInfo =>
         let matchingKeywords :=
           filter (fun keyword =>
                     JsString.includes queryLower keyword ||
                     JsString.includes packageName keyword ||
                     JsString.includes description keyword)
                  (keywords categoryInfo) in
         if Z.of_nat (List.length matchingKeywords) >? 0
         then score + Z.of_nat (List.length matchingKeywords) * 10 * weight categoryInfo
         else score)
      PACKAGE_CATEGORIES score in
  fold_left
    (fun score entry =>
       if JsString.includes queryLower (fst entry)
       then if JsString.array_includes (snd entry) packageName
            then score + 40 else score
       else score)
    FUNCTIONALITY_MAPPINGS score.

(** [arr.sort((a, b) => b.score - a.score)]: the sort of ECMAScript is
    stable; it is modelled by insertion from the right, where a record
    goes in front of the records that do not score more. *)
Fixpoint insert_desc {A : Type} (x : A * Z) (l : list (A * Z)) : list (A * Z) :=
  match l with
  | [] => [x]
  | y :: l' => if snd y >? snd x then y :: insert_desc x l' else x :: l
  end.

Definition sort_desc {A : Type} (l : list (A * Z)) : list (A * Z) :=
  fold_right insert_desc [] l.

(** [PACKAGE_CATEGORIES[category]?.keywords || []]. *)
Definition category_keywords (category : string) : list string :=
  match find (fun c => String.eqb (cat_name c) category) PACKAGE_CATEGORIES with
  | Some c => keywords c
  | None => []
  end.

(** [searchPackagesSemanticaly(query, packages, category, maxResults)]. *)
Definition searchPackagesSemanticaly (query : string) (packages : list PackageInfo)
           (category : string) (maxResults : Z) : list PackageInfo :=
  let scoredPackages :=
    map (fun pkg => (pkg, calculateSemanticScore query pkg)) packages in
  let filteredPackages :=
    if negb (String.eqb category "all")
    then
      let categoryKeywords := category_keywords category in
      filter (fun sp =>
                let packageName := JsString.toLowerCase (name (fst sp)) in
                let description := JsString.toLowerCase (description_or_empty (fst sp)) in
                existsb (fun keyword =>
                           JsString.includes packageName keyword ||
                           JsString.includes description keyword)
                        categoryKeywords)
             scoredPackages
    else scoredPackages in
  map fst
      (slice0 maxResults
              (sort_desc (filter (fun sp => snd sp >? 0) filteredPackages))).

(** [categorizePackage(packageInfo)]. *)
Definition categorizePackage (packageInfo : PackageInfo) : string :=
  let packageName := JsString.toLowerCase (name packageInfo) in
  let description := JsString.toLowerCase (description_or_empty packageInfo) in
  fst (fold_left
         (fun best categoryInfo =>
            let score :=
              fold_left
                (fun acc keyword =>
                   let acc := if JsString.includes packageName keyword then acc + 2 else acc in
                   if JsString.includes description keyword then acc + 1 else acc)
                (keywords categoryInfo) 0 in
            if score >? snd best then (cat_name categoryInfo, score) else best)
         PACKAGE_CATEGORIES ("utility", 0)).

(** [enhancePackageInfo(packageInfo, query)]: an empty query is falsy and
    adds no score. *)
Definition enhancePackageInfo (packageInfo : PackageInfo) (query : option string)
  : PackageInfo :=
  let category := categorizePackage packageInfo in
  let semanticScore :=
    match query with
    | Some q => if JsString.truthy q
                then Some (calculateSemanticScore q packageInfo) else None
    | None => None
    end in
  mkPackage (name packageInfo) (version packageInfo) (description packageInfo)
            (installed packageInfo) (path packageInfo) (Some category)
            (match semanticScore with
             | Some sc => Some sc
             | None => Types.semanticScore packageInfo
             end).

(** The records that the ranking keeps: those that pass the category
    filter and score more than zero. *)
Definition in_category (category : string) (pkg : PackageInfo) : bool :=
  String.eqb category "all" ||
  existsb (fun keyword =>
             JsString.includes (JsString.toLowerCase (name pkg)) keyword ||
             JsString.includes (JsString.toLowerCase (description_or_empty pkg)) keyword)
          (category_keywords category).

Definition retained (query category : string) (pkg : PackageInfo) : bool :=
  in_category category pkg && (calculateSemanticScore query pkg >? 0).

(** Pairs of a record and its score, as the ranking builds them. *)
Definition scored (query : string) (l : list (PackageInfo * Z)) : Prop :=
  Forall (fun sp => snd sp = calculateSemanticScore query (fst sp)) l.

(** A list in descending order of score. *)
Definition descending (query : string) (l : list PackageInfo) : Prop :=
  StronglySorted
    (fun a b => calculateSemanticScore query a >= calculateSemanticScore query b) l.

(** The records of a given score, in the order of the list. *)
Definition with_score (query : string) (s : Z) (l : list PackageInfo)
  : list PackageInfo :=
  filter (fun p => calculateSemanticScore query p =? s) l.

(** The additive formula of the specification, stated on the lowered
    query [q], name [n] and description [d]. *)
Definition bonus (b : bool) (points : Z) : Z := if b then points else 0.

Definition sum_over {A : Type} (f : A -> Z) (l : list A) : Z :=
  fold_right (fun x acc => f x + acc) 0 l.

Definition contains_keyword (q n d keyword : string) : bool :=
  JsString.includes q keyword || JsString.includes n keyword ||
  JsString.includes d keyword.

Definition matchingKeywordCount (q n d : string) (c : Category) : Z :=
  Z.of_nat (count_occ bool_dec (map (contains_keyword q n d) (keywords c)) true).

Definition reference_score (query : string) (record : PackageInfo) : Z :=
  let q := JsString.toLowerCase query in
  let n := JsString.toLowerCase (name record) in
  let d := JsString.toLowerCase (description_or_empty record) in
  bonus (String.eqb n q) 100
  + bonus (JsString.includes n q || JsString.includes q n) 50
  + sum_over (fun word =>
                bonus (JsString.includes n word) 30
                + bonus (existsb (fun dword => JsString.includes dword word)
                                 (JsString.split_ws d)) 20)
             (JsString.split_ws q)
  + sum_over (fun c =>
                bonus (existsb (contains_keyword q n d) (keywords c))
                      (matchingKeywordCount q n d c * 10 * weight c))
             PACKAGE_CATEGORIES
  + sum_over (fun phrase =>
                bonus (JsString.includes q (fst phrase) &&
                       JsString.array_includes (snd phrase) n) 40)
             FUNCTIONALITY_MAPPINGS.

(** What [getPackageSuggestions] can return: an array of package names
    or, for a key that the mapping object inherits, the inherited value. *)
Inductive Suggestions : Type :=
| PackageList (l : list string)
| Inherited (property : string).

(** The property names of [Object.prototype] that are written in lower
    case; a lowered key can name no other inherited property. *)
Definition inherited_lowercase : list string := ["constructor"; "__proto__"].

(** The mappings whose phrase contains the text or is contained in it. *)
Definition related (functionalityLower : string) (entry : string * list string) : bool :=
  JsString.includes (fst entry) functionalityLower ||
  JsString.includes functionalityLower (fst entry).

(** [getPackageSuggestions(functionality)]. *)
Definition getPackageSuggestions (functionality : string) : Suggestions :=
  let functionalityLower := JsString.toLowerCase functionality in
  match Builtin.lookup functionalityLower FUNCTIONALITY_MAPPINGS with
  | Some directMatch => PackageList directMatch
  | None =>
      if JsString.array_includes inherited_lowercase functionalityLower
      then Inherited functionalityLower
      else PackageList
             (mkSet (flat_map snd (filter (related functionalityLower)
                                          FUNCTIONALITY_MAPPINGS)))
  end.

(** The names of the categories. *)
Definition category_names : list string := map cat_name PACKAGE_CATEGORIES.

(** The inner [reduce] of [categorizePackage]: what one category scores
    on a lowered name and description. *)
Definition keyword_hits (packageName description : string) (c : Category) : Z :=
  fold_left
    (fun acc keyword =>
       let acc := if JsString.includes packageName keyword then acc + 2 else acc in
       if JsString.includes description keyword then acc + 1 else acc)
    (keywords c) 0.

End SemanticSearch.

(** ** What the engines share *)

Module Common.

Import Types.

(** The shared cache of the [DiscoveryEngineFactory]. *)
Definition Store : Type := Cache.CacheManager Any.

(** [this.cache.set(cacheKey, result); return result;] *)
Definition remember (c : Store) (now : Z) (cacheKey : string) (result : Any)
  : Any * Store :=
  (result, Cache.set c now cacheKey result None).

(** An optional string that is absent or empty is falsy. *)
Definition truthy_opt (o : option string) : bool :=
  match o with Some s => JsString.truthy s | None => false end.

(** [o || d] on an optional string. *)
Definition or_default (o : option string) (d : string) : string :=
  match o with
  | Some s => if JsString.truthy s then s else d
  | None => d
  end.

(** [searchTerm && !name.toLowerCase().includes(searchTerm.toLowerCase())]:
    the test that skips a dependency. *)
Definition filtered_out (searchTerm : option string) (n : string) : bool :=
  match searchTerm with
  | Some t =>
      JsString.truthy t &&
      negb (JsString.includes (JsString.toLowerCase n) (JsString.toLowerCase t))
  | None => false
  end.

(** The loop over the declared dependencies: a dependency that passes
    the filter is pushed, and the loop breaks once [maxResults] records
    are there. *)
Fixpoint collect {A : Type} (mk : A -> PackageInfo) (key : A -> string)
         (searchTerm : option string) (maxResults : Z)
         (deps : list A) (packages : list PackageInfo) : list PackageInfo :=
  match deps with
  | [] => packages
  | dep :: rest =>
      if filtered_out searchTerm (key dep)
      then collect mk key searchTerm maxResults rest packages
      else
        let packages := (packages ++ [mk dep])%list in
        if Z.of_nat (List.length packages) >=? maxResults
        then packages
        else collect mk key searchTerm maxResults rest packages
  end.

(** [getStandardLibraryMatches(searchTerm)] of the four engines that
    keep their own registry. *)
Definition getStandardLibraryMatches (registry : list string) (what : string)
           (searchTerm : string) : list PackageInfo :=
  if negb (JsString.truthy searchTerm) then []
  else
    let searchLower := JsString.toLowerCase searchTerm in
    map (fun moduleName => package moduleName "stdlib" (Some what) true None)
        (filter (fun moduleName => JsString.includes moduleName searchLower) registry).

(** The step that adds registry matches when there is room left. *)
Definition add_stdlib (registry : list string) (what : string)
           (searchTerm : option string) (maxResults : Z)
           (packages : list PackageInfo) : list PackageInfo :=
  if Z.of_nat (List.length packages) <? maxResults
  then (packages ++
        slice0 (maxResults - Z.of_nat (List.length packages))
               (getStandardLibraryMatches registry what
                                          (or_default searchTerm EmptyString)))%list
  else packages.

(** The [DiscoveryResult] that closes [discoverPackages]. *)
Definition discovery (l : Language) (now : Z) (searchTerm : option string)
           (maxResults : Z) (packages : list PackageInfo) : DiscoveryResult :=
  mkDiscovery (slice0 maxResults packages) (Z.of_nat (List.length packages))
              searchTerm l now.

(** The [packages] field of whatever a cached call returned; a value of
    another shape has no such field. *)
Definition packages_of (a : Any) : list PackageInfo :=
  match a with
  | ADiscovery r => packages r
  | _ => []
  end.

(** The similarity test of [getSimilarPackages]. *)
Definition similar (packageName candidate : string) : bool :=
  JsString.includes candidate packageName || JsString.includes packageName candidate.

(** The outcome of a statement that no pattern recognises. *)
Definition unparsed (what : string) : ValidationResult :=
  mkValidation false "unknown" None (Some what) (Some []).

(** The first pattern that matches, with its match array. *)
Fixpoint first_match (statement : string) (patterns : list Regex.regex)
  : option (list (option string)) :=
  match patterns with
  | [] => None
  | pattern :: rest =>
      match Regex.str_match statement pattern with
      | Some a => Some a
      | None => first_match statement rest
      end
  end.

(** The loop of the extractors that test [match && match[1]]: a pattern
    whose first group is empty is passed over. *)
Fixpoint first_group (statement : string) (patterns : list Regex.regex)
  : option string :=
  match patterns with
  | [] => None
  | pattern :: rest =>
      match Regex.str_match statement pattern with
      | Some a =>
          match Regex.at_index a 1 with
          | Some g => if JsString.truthy g then Some g
                      else first_group statement rest
          | None => first_group statement rest
          end
      | None => first_group statement rest
      end
  end.

(** [x || null] on a string. *)
Definition or_null (s : string) : option string :=
  if JsString.truthy s then Some s else None.

Definition head_or_empty (l : list string) : string :=
  match l with x :: _ => x | [] => EmptyString end.

Definition sq : ascii := "'"%char.
Definition dq : ascii := ascii_of_nat 34.
Definition quote : Regex.regex := Regex.one_of (String sq (String dq EmptyString)).
Definition unquoted : Regex.regex := Regex.none_of (String sq (String dq EmptyString)).
Definition not_dq : Regex.regex := Regex.none_of (String dq EmptyString).

(** [[a-zA-Z_][a-zA-Z0-9_]*] and its repetition after a separator. *)
Definition identifier : Regex.regex :=
  Regex.Seq Regex.ident_start (Regex.Star Regex.ident_char).
Definition path_of (sep : string) : Regex.regex :=
  Regex.Seq identifier (Regex.Star (Regex.Seq (Regex.Lit sep) identifier)).

End Common.

(** ** engines/javascript.ts *)

Module JavaScript.

Import Types Common.

(** The project manifest: [findPackageJson(process.cwd())] followed by
    [JSON.parse(readFileSync(...))]. *)
Inductive ManifestRead : Type :=
| NotFound
| Unreadable                                   (* reading or parsing throws *)
| Parsed (projectRoot : string) (dependencies devDependencies : option Obj).

(** The manifest of a package under [node_modules]. *)
Record Installed : Type := mkInstalled {
  i_version : option string;
  i_description : option string;
  i_path : string;
  i_dependencies : option Obj
}.

Inductive RuntimeShape : Type := Callable | PlainObject | OtherValue.

(** The state outside the process that the engine reads. *)
Record World : Type := mkWorld {
  cwd : string;
  manifest : ManifestRead;
  (* [node_modules/<name>/package.json] under a project root, when it
     exists and parses *)
  installed_manifest : string -> string -> option Installed;
  (* the dependencies that [npm list -g --depth=0 --json] prints:
     name, version and path; [None] when the command or its output
     fails *)
  npm_global : option (list (string * option string * option string));
  (* [existsSync(join(projectRoot, 'node_modules', name))] *)
  node_modules_has : string -> string -> bool;
  (* [require.resolve(name, { paths: [projectRoot] })]; [None] when it
     throws *)
  require_resolve : string -> string -> option string;
  (* [ASTParser.parseFile(path)]: the exports found; [None] when it throws *)
  parseFile : string -> option (list ModuleExport);
  (* [await import(path)]: the bindings of the module; [None] when it throws *)
  dynamic_import : string -> option (list (string * RuntimeShape));
  (* the keys of the [exports] field of the [package.json] at a path, when
     the file exists, parses and has a truthy field *)
  package_exports : string -> option (list string);
  (* [readdirSync(dir)]; [None] when it throws *)
  readdir : string -> option (list string);
  (* [dirname] and [join] of node's path module *)
  dirname : string -> string;
  join : list string -> string
}.

(** The three patterns, in the order of the source.  In the comments
    [Q] stands for the class of the single and the double quote. *)
Definition patterns : list Regex.regex :=
  [ (* /import\s+.*\s+from\s+Q([^Q]+)Q/ *)
    Regex.seq [Regex.Lit "import"; Regex.Plus Regex.space; Regex.Star Regex.dot;
               Regex.Plus Regex.space; Regex.Lit "from"; Regex.Plus Regex.space;
               quote; Regex.Group 1 (Regex.Plus unquoted); quote];
    (* /import\s*\(\s*Q([^Q]+)Q\s*\)/ *)
    Regex.seq [Regex.Lit "import"; Regex.Star Regex.space; Regex.Lit "(";
               Regex.Star Regex.space; quote; Regex.Group 1 (Regex.Plus unquoted);
               quote; Regex.Star Regex.space; Regex.Lit ")"];
    (* /require\s*\(\s*Q([^Q]+)Q\s*\)/ *)
    Regex.seq [Regex.Lit "require"; Regex.Star Regex.space; Regex.Lit "(";
               Regex.Star Regex.space; quote; Regex.Group 1 (Regex.Plus unquoted);
               quote; Regex.Star Regex.space; Regex.Lit ")"] ].

(** What the loop body returns for the text of the first group. *)
Definition package_of_path (fullPath : string) : option string :=
  if JsString.startsWith fullPath "@"
  then
    let parts := JsString.split "/" fullPath in
    match parts with
    | p0 :: p1 :: _ => Some (p0 ++ "/" ++ p1)
    | _ => Some fullPath
    end
  else or_null (head_or_empty (JsString.split "/" fullPath)).

Definition extractPackageNameFromImport (importStatement : string) : option string :=
  match first_group importStatement patterns with
  | Some fullPath => package_of_path fullPath
  | None => None
  end.

Definition checkPackageExists (w : World) (packageName projectRoot : string) : bool :=
  if Builtin.isNodeBuiltinModule packageName then true
  else if node_modules_has w projectRoot packageName then true
  else match require_resolve w packageName projectRoot with
       | Some _ => true
       | None => false
       end.

Definition resolveModulePath (w : World) (moduleName projectRoot : string)
  : option string :=
  require_resolve w moduleName projectRoot.

Definition getSimilarPackages (w : World) (packageName : string) : list string :=
  match manifest w with
  | NotFound => []
  | Unreadable => []
  | Parsed _ dependencies devDependencies =>
      let allDeps := spread (or_empty dependencies) (or_empty devDependencies) in
      firstn 5 (filter (similar packageName) (obj_keys allDeps))
  end.

(** The outcome that [validateImport] computes on a cache miss.  Every
    helper catches its own errors, so the outer [catch] is never entered. *)
Definition validate (w : World) (input : ValidateImportInput) : ValidationResult :=
  match extractPackageNameFromImport (importStatement input) with
  | None => unparsed "Could not parse import statement"
  | Some packageName =>
      if negb (JsString.truthy packageName)
      then unparsed "Could not parse import statement"
      else
        let projectRoot := or_default (projectPath input) (cwd w) in
        if checkPackageExists w packageName projectRoot
        then
          let modulePath := resolveModulePath w packageName projectRoot in
          mkValidation true packageName
            (if truthy_opt modulePath then modulePath else None)
            (if Builtin.isNodeBuiltinModule packageName
             then Some ("Built-in Node.js module: " ++
                        Builtin.template
                          (Builtin.info_description
                             (Builtin.getBuiltinModuleInfo packageName)))
             else None)
            None
        else
          mkValidation false packageName None
            (Some ("Package '" ++ packageName ++ "' is not installed or available"))
            (Some (getSimilarPackages w packageName))
  end.

Definition validate_key (input : ValidateImportInput) : string :=
  Cache.generateKey
    [Cache.PStr "validate"; Cache.PStr (importStatement input);
     Cache.PStr (language_name (v_language input));
     Cache.opt_str (projectPath input)].

Definition validateImport (w : World) (now : Z) (c : Store)
           (input : ValidateImportInput) : Any * Store :=
  let cacheKey := validate_key input in
  match Cache.get c now cacheKey with
  | (Some cached, c) => (cached, c)
  | (None, c) => remember c now cacheKey (AValidation (validate w input))
  end.


(** [getPackageInfo(name, version, projectRoot)]. *)
Definition getPackageInfo (w : World) (projectRoot : string) (dep : string * string)
  : PackageInfo :=
  match installed_manifest w projectRoot (fst dep) with
  | None => package (fst dep) (snd dep) None false None
  | Some i =>
      package (fst dep) (or_default (i_version i) (snd dep)) (i_description i)
              true (Some (i_path i))
  end.

(** [getGlobalPackages(searchTerm, maxResults)]. *)
Definition getGlobalPackages (w : World) (searchTerm : option string) (maxResults : Z)
  : list PackageInfo :=
  match npm_global w with
  | None => []
  | Some deps =>
      collect (fun d => package (fst (fst d))
                                (or_default (snd (fst d)) "unknown")
                                None true (snd d))
              (fun d => fst (fst d)) searchTerm maxResults deps []
  end.

(** The packages that [discoverPackages] gathers inside its [try]. *)
Definition gather (w : World) (input : DiscoverPackagesInput) : list PackageInfo :=
  let add_global (packages : list PackageInfo) :=
    if Z.of_nat (List.length packages) <? d_maxResults input
    then (packages ++
          getGlobalPackages w (d_searchTerm input)
            (d_maxResults input - Z.of_nat (List.length packages)))%list
    else packages in
  match manifest w with
  | Unreadable => []
  | NotFound => add_global []
  | Parsed projectRoot dependencies devDependencies =>
      let allDeps := spread (or_empty dependencies) (or_empty devDependencies) in
      add_global (collect (getPackageInfo w projectRoot) fst (d_searchTerm input)
                          (d_maxResults input) (obj_entries allDeps) [])
  end.

Definition discover (w : World) (now : Z) (input : DiscoverPackagesInput)
  : DiscoveryResult :=
  discovery javascript now (d_searchTerm input) (d_maxResults input) (gather w input).

Definition discover_key (input : DiscoverPackagesInput) : string :=
  Cache.generateKey
    [Cache.PStr "discover"; Cache.PStr (language_name (d_language input));
     Cache.opt_str (d_searchTerm input);
     Cache.PBool (d_includeDevDependencies input);
     Cache.PNum (d_maxResults input)].

Definition discoverPackages (w : World) (now : Z) (c : Store)
           (input : DiscoverPackagesInput) : Any * Store :=
  let cacheKey := discover_key input in
  match Cache.get c now cacheKey with
  | (Some cached, c) => (cached, c)
  | (None, c) => remember c now cacheKey (ADiscovery (discover w now input))
  end.

(** [s.endsWith(suffix)]. *)
Definition endsWith (s suffix : string) : bool :=
  (String.length suffix <=? String.length s)%nat &&
  String.eqb (substring (String.length s - String.length suffix)
                        (String.length suffix) s) suffix.

(** [file.replace(/\.(js|ts)$/, '')]. *)
Definition strip_extension (file : string) : string :=
  if endsWith file ".js" || endsWith file ".ts"
  then substring 0 (String.length file - 3) file
  else file.

Definition visible (includePrivate : bool) (n : string) : bool :=
  includePrivate || negb (JsString.startsWith n "_").

Definition shape_type (v : RuntimeShape) : ExportType :=
  match v with
  | Callable => TFunction
  | PlainObject => TNamespace
  | OtherValue => TConstant
  end.

(** [analyzeModuleExports(moduleName, modulePath, includePrivate)]. *)
Definition analyzeModuleExports (w : World) (moduleName : string)
           (modulePath : option string) (includePrivate : bool) : list ModuleExport :=
  if Builtin.isNodeBuiltinModule moduleName
  then
    [mkExport "default" TNamespace (Some moduleName)
              (Builtin.info_description (Builtin.getBuiltinModuleInfo moduleName))]
  else
    let from_ast : list ModuleExport :=
      match modulePath with
      | Some p =>
          if JsString.truthy p
          then match parseFile w p with
               | Some found => filter (fun e => visible includePrivate (export_name e)) found
               | None => []
               end
          else []
      | None => []
      end in
    if (0 <? List.length from_ast)%nat then from_ast
    else
      let from_import : list ModuleExport :=
        match modulePath with
        | Some p =>
            if JsString.truthy p
            then match dynamic_import w p with
                 | Some bindings =>
                     map (fun kv =>
                            mkExport (fst kv) (shape_type (snd kv))
                                     (match snd kv with
                                      | Callable => Some (fst kv ++ "()")
                                      | _ => None
                                      end)
                                     None)
                         (filter (fun kv => visible includePrivate (fst kv)) bindings)
                 | None => []
                 end
            else []
        | None => []
        end in
      if (List.length from_import =? 0)%nat
      then
        let packagePath :=
          join w [dirname w (or_default modulePath EmptyString); "package.json"] in
        match package_exports w packagePath with
        | Some keys =>
            map (fun exportPath =>
                   mkExport (if String.eqb exportPath "." then "default" else exportPath)
                            TNamespace None None)
                keys
        | None => []
        end
      else from_import.

Definition findSubmodules (w : World) (moduleName : string) (modulePath : option string)
  : list string :=
  match modulePath with
  | None => []
  | Some p =>
      if negb (JsString.truthy p) then []
      else match readdir w (dirname w p) with
           | None => []
           | Some files =>
               firstn 10
                 (map strip_extension
                    (filter (fun file => negb (String.eqb file "index.js") &&
                                         negb (String.eqb file "index.ts"))
                       (filter (fun file => endsWith file ".js" || endsWith file ".ts")
                               files)))
           end
  end.

Definition getModuleDependencies (w : World) (moduleName : string) : list string :=
  match installed_manifest w (cwd w) moduleName with
  | Some i => obj_keys (or_empty (i_dependencies i))
  | None => []
  end.

(** The descriptor that [introspectModule] computes on a cache miss. *)
Definition introspect (w : World) (input : IntrospectModuleInput) : ModuleInfo :=
  let modulePath := resolveModulePath w (moduleName input) (cwd w) in
  let exports :=
    analyzeModuleExports w (moduleName input) modulePath (includePrivate input) in
  mkModule (moduleName input) (or_default modulePath EmptyString) exports
           (findSubmodules w (moduleName input) modulePath)
           (getModuleDependencies w (moduleName input)).

Definition introspect_key (input : IntrospectModuleInput) : string :=
  Cache.generateKey
    [Cache.PStr "introspect"; Cache.PStr (moduleName input);
     Cache.PStr (language_name (i_language input));
     Cache.PBool (includePrivate input); Cache.PNum (maxDepth input)].

Definition introspectModule (w : World) (now : Z) (c : Store)
           (input : IntrospectModuleInput) : Any * Store :=
  let cacheKey := introspect_key input in
  match Cache.get c now cacheKey with
  | (Some cached, c) => (cached, c)
  | (None, c) => remember c now cacheKey (AModule (introspect w input))
  end.

Definition search_key (input : SearchAffordancesInput) : string :=
  Cache.generateKey
    [Cache.PStr "searchAffordances"; Cache.PStr (query input);
     Cache.PStr (language_name (s_language input));
     Cache.PStr (s_category input); Cache.PNum (s_maxResults input)].

(** The input of the inner [discoverPackages] call. *)
Definition all_packages_input (input : SearchAffordancesInput) : DiscoverPackagesInput :=
  mkDiscoverInput (s_language input) (Some EmptyString) true 1000.

(** The result that [searchAffordances] builds from the packages of the
    inner call. *)
Definition rank (now : Z) (input : SearchAffordancesInput)
           (candidates : list PackageInfo) : DiscoveryResult :=
  let enhancedPackages :=
    map (fun pkg => SemanticSearch.enhancePackageInfo pkg (Some (query input)))
        candidates in
  let searchResults :=
    SemanticSearch.searchPackagesSemanticaly (query input) enhancedPackages
                                             (s_category input) (s_maxResults input) in
  mkDiscovery searchResults (Z.of_nat (List.length searchResults))
              (Some (query input)) (s_language input) now.

Definition searchAffordances (w : World) (now : Z) (c : Store)
           (input : SearchAffordancesInput) : Any * Store :=
  let cacheKey := search_key input in
  match Cache.get c now cacheKey with
  | (Some cached, c) => (cached, c)
  | (None, c) =>
      let (allPackagesResult, c) := discoverPackages w now c (all_packages_input input) in
      remember c now cacheKey (ADiscovery (rank now input (packages_of allPackagesResult)))
  end.

(** The same outside state with another project manifest. *)
Definition with_manifest (w : World) (m : ManifestRead) : World :=
  mkWorld (cwd w) m (installed_manifest w) (npm_global w) (node_modules_has w)
          (require_resolve w) (parseFile w) (dynamic_import w) (package_exports w)
          (readdir w) (dirname w) (join w).

End JavaScript.

(** ** engines/python.ts *)

Module Python.

Import Types Common.

Definition PYTHON_STDLIB_MODULES : list string :=
  Eval vm_compute in
  mkSet
  ["os"; "sys"; "json"; "datetime"; "time"; "math"; "random"; "collections";
     "itertools"; "functools"; "operator"; "copy"; "pickle"; "csv"; "xml"; "sqlite3";
     "threading"; "multiprocessing"; "asyncio"; "concurrent"; "urllib"; "http";
     "email"; "html"; "xml"; "pathlib"; "shutil"; "glob"; "tempfile"; "zipfile";
     "tarfile"; "gzip"; "bz2"; "lzma"; "subprocess"; "io"; "logging"; "warnings";
     "traceback"; "unittest"; "doctest"; "pdb"; "profile"; "pstats"; "timeit";
     "argparse"; "configparser"; "getopt"; "optparse"; "socket"; "ssl"; "hashlib";
     "hmac"; "secrets"; "base64"; "binascii"; "struct"; "codecs"; "unicodedata";
     "stringprep"; "readline"; "rlcompleter"; "cmd"; "shlex"; "queue"; "sched";
     "mutex"; "contextvars"; "decimal"; "fractions"; "statistics"; "array"; "weakref";
     "gc"; "inspect"; "site"; "imp"; "importlib"; "pkgutil"; "modulefinder"; "runpy";
     "ast"; "keyword"; "token"; "tokenize"; "parser"; "symbol"; "dis"; "pickletools";
     "py_compile"; "compileall"; "marshal"; "types"; "enum"; "dataclasses"; "typing";
     "typing_extensions"; "abc"; "numbers"; "zlib"; "gzip"; "bz2"; "lzma"; "zipfile";
     "tarfile"].

(** What the engine learns from child processes. *)
Record World : Type := mkWorld {
  (* the name and version of each package that [pip list --format=json]
     prints; [None] when the command or its output fails *)
  pip_list : option (list (string * string));
  (* the same for [conda list --json] *)
  conda_list : option (list (string * string));
  (* whether [python -c "import <name>"] exits normally *)
  can_import : string -> bool;
  (* the members that the introspection script prints, already split
     into records; empty when the script fails *)
  module_members : string -> list ModuleExport;
  (* the trimmed output of printing [__file__]; [None] when it fails *)
  module_file : string -> option string
}.

Definition getInstalledPackages (w : World) : list PackageInfo :=
  let records := map (fun pkg => package (fst pkg) (snd pkg) None true None) in
  match pip_list w with
  | Some pipPackages => records pipPackages
  | None =>
      match conda_list w with
      | Some condaPackages => records condaPackages
      | None => []
      end
  end.

(** In the comments [PATH] stands for identifiers joined by dots, an
    identifier being a letter or underscore followed by letters, digits
    and underscores. *)
Definition patterns : list Regex.regex :=
  [ (* /^from\s+(PATH)\s+import/ *)
    Regex.seq [Regex.Bol; Regex.Lit "from"; Regex.Plus Regex.space;
               Regex.Group 1 (path_of "."); Regex.Plus Regex.space;
               Regex.Lit "import"];
    (* /^import\s+(PATH)/ *)
    Regex.seq [Regex.Bol; Regex.Lit "import"; Regex.Plus Regex.space;
               Regex.Group 1 (path_of ".")] ].

Definition extractPackageNameFromImport (importStatement : string) : option string :=
  match first_group importStatement patterns with
  | Some g => or_null (head_or_empty (JsString.split "." g))
  | None => None
  end.

Definition checkPackageInstalled (w : World) (packageName : string) : bool :=
  can_import w packageName.

Definition getSimilarPackages (w : World) (packageName : string) : list string :=
  let installedPackages := getInstalledPackages w in
  let suggestions :=
    filter (similar packageName) (map name installedPackages) in
  let suggestions :=
    (suggestions ++ filter (similar packageName) PYTHON_STDLIB_MODULES)%list in
  firstn 5 suggestions.

Definition validate (w : World) (input : ValidateImportInput) : ValidationResult :=
  match extractPackageNameFromImport (importStatement input) with
  | None => unparsed "Could not parse import statement"
  | Some packageName =>
      if negb (JsString.truthy packageName)
      then unparsed "Could not parse import statement"
      else if set_has PYTHON_STDLIB_MODULES packageName
      then mkValidation true packageName None
                        (Some "Python standard library module") None
      else if checkPackageInstalled w packageName
      then mkValidation true packageName None None None
      else mkValidation false packageName None
             (Some ("Package '" ++ packageName ++ "' is not installed"))
             (Some (getSimilarPackages w packageName))
  end.

Definition validate_key (input : ValidateImportInput) : string :=
  Cache.generateKey [Cache.PStr "validate_python"; Cache.PStr (importStatement input)].

Definition validateImport (w : World) (now : Z) (c : Store)
           (input : ValidateImportInput) : Any * Store :=
  let cacheKey := validate_key input in
  match Cache.get c now cacheKey with
  | (Some cached, c) => (cached, c)
  | (None, c) => remember c now cacheKey (AValidation (validate w input))
  end.

(** The filter of [discoverPackages] on the installed packages. *)
Definition matches_term (t : string) (pkg : PackageInfo) : bool :=
  JsString.includes (JsString.toLowerCase (name pkg)) (JsString.toLowerCase t) ||
  match description pkg with
  | Some d =>
      JsString.truthy d &&
      JsString.includes (JsString.toLowerCase d) (JsString.toLowerCase t)
  | None => false
  end.

Definition gather (w : World) (input : DiscoverPackagesInput) : list PackageInfo :=
  let installedPackages := getInstalledPackages w in
  let filteredPackages :=
    match d_searchTerm input with
    | Some t => if JsString.truthy t then filter (matches_term t) installedPackages
                else installedPackages
    | None => installedPackages
    end in
  add_stdlib PYTHON_STDLIB_MODULES "Python standard library module"
             (d_searchTerm input) (d_maxResults input)
             (slice0 (d_maxResults input) filteredPackages).

Definition discover (w : World) (now : Z) (input : DiscoverPackagesInput)
  : DiscoveryResult :=
  discovery python now (d_searchTerm input) (d_maxResults input) (gather w input).

Definition discover_key (input : DiscoverPackagesInput) : string :=
  Cache.generateKey
    [Cache.PStr "discover_python"; Cache.opt_str (d_searchTerm input);
     Cache.PBool (d_includeDevDependencies input); Cache.PNum (d_maxResults input)].

Definition discoverPackages (w : World) (now : Z) (c : Store)
           (input : DiscoverPackagesInput) : Any * Store :=
  let cacheKey := discover_key input in
  match Cache.get c now cacheKey with
  | (Some cached, c) => (cached, c)
  | (None, c) => remember c now cacheKey (ADiscovery (discover w now input))
  end.

Definition introspect (w : World) (input : IntrospectModuleInput) : ModuleInfo :=
  mkModule (moduleName input)
           (or_default (module_file w (moduleName input)) EmptyString)
           (module_members w (moduleName input)) [] [].

Definition introspect_key (input : IntrospectModuleInput) : string :=
  Cache.generateKey [Cache.PStr "introspect_python"; Cache.PStr (moduleName input)].

Definition introspectModule (w : World) (now : Z) (c : Store)
           (input : IntrospectModuleInput) : Any * Store :=
  let cacheKey := introspect_key input in
  match Cache.get c now cacheKey with
  | (Some cached, c) => (cached, c)
  | (None, c) => remember c now cacheKey (AModule (introspect w input))
  end.

(** [searchAffordances]: "Delegate to discoverPackages with search term". *)
Definition searchAffordances (w : World) (now : Z) (c : Store)
           (input : SearchAffordancesInput) : Any * Store :=
  discoverPackages w now c
    (mkDiscoverInput (s_language input) (Some (query input)) true (s_maxResults input)).

End Python.

(** ** engines/rust.ts *)

Module Rust.

Import Types Common.

Definition RUST_STDLIB_MODULES : list string :=
  Eval vm_compute in
  mkSet
  ["std"; "core"; "alloc"; "proc_macro"; "test"; "std::collections"; "std::fs";
     "std::io"; "std::net"; "std::os"; "std::path"; "std::process"; "std::sync";
     "std::thread"; "std::time"; "std::env"; "std::fmt"; "std::str"; "std::string";
     "std::vec"; "std::hash"; "std::convert"; "std::default"; "std::iter"; "std::mem";
     "std::ptr"; "std::slice"; "std::borrow"; "std::clone"; "std::cmp"; "std::marker";
     "std::ops"; "std::option"; "std::result"; "std::any"; "std::ascii"; "std::char";
     "std::f32"; "std::f64"; "std::i8"; "std::i16"; "std::i32"; "std::i64";
     "std::i128"; "std::isize"; "std::u8"; "std::u16"; "std::u32"; "std::u64";
     "std::u128"; "std::usize"; "std::primitive"].

(** The sections of a parsed [Cargo.toml] that the engine reads. *)
Record CargoToml : Type := mkCargo {
  cargo_dependencies : option Obj;
  cargo_dev_dependencies : option Obj
}.

(** [findCargoToml(process.cwd())] followed by [parseCargoToml]; [None]
    when no manifest is found. *)
Record World : Type := mkWorld {
  cargo : option CargoToml
}.

(** In the comments [PATH] stands for identifiers joined by [::] and
    [IDENT] for one identifier. *)
Definition patterns : list Regex.regex :=
  [ (* /^use\s+(PATH)/ *)
    Regex.seq [Regex.Bol; Regex.Lit "use"; Regex.Plus Regex.space;
               Regex.Group 1 (path_of "::")];
    (* /^extern\s+crate\s+(IDENT)/ *)
    Regex.seq [Regex.Bol; Regex.Lit "extern"; Regex.Plus Regex.space;
               Regex.Lit "crate"; Regex.Plus Regex.space;
               Regex.Group 1 identifier] ].

Definition extractPackageNameFromImport (useStatement : string) : option string :=
  match first_group useStatement patterns with
  | Some g => or_null (head_or_empty (JsString.split "::" g))
  | None => None
  end.

Definition isStandardLibraryModule (packageName : string) : bool :=
  set_has RUST_STDLIB_MODULES packageName || JsString.startsWith packageName "std::".

Definition checkPackageInCargo (w : World) (packageName : string) : bool :=
  match cargo w with
  | None => false
  | Some cargoToml =>
      obj_in packageName (or_empty (cargo_dependencies cargoToml)) ||
      obj_in packageName (or_empty (cargo_dev_dependencies cargoToml))
  end.

(** The names pushed by the first loop of [getSimilarPackages]. *)
Definition similar_dependencies (w : World) (packageName : string) : list string :=
  match cargo w with
  | Some cargoToml =>
      let allDeps := spread (or_empty (cargo_dependencies cargoToml))
                            (or_empty (cargo_dev_dependencies cargoToml)) in
      filter (similar packageName) (obj_keys allDeps)
  | None => []
  end.

Definition getSimilarPackages (w : World) (packageName : string) : list string :=
  let suggestions := similar_dependencies w packageName in
  let suggestions :=
    (suggestions ++ filter (similar packageName) RUST_STDLIB_MODULES)%list in
  firstn 5 suggestions.

Definition validate (w : World) (input : ValidateImportInput) : ValidationResult :=
  match extractPackageNameFromImport (importStatement input) with
  | None => unparsed "Could not parse use statement"
  | Some packageName =>
      if negb (JsString.truthy packageName)
      then unparsed "Could not parse use statement"
      else if isStandardLibraryModule packageName
      then mkValidation true packageName None
                        (Some "Rust standard library module") None
      else if checkPackageInCargo w packageName
      then mkValidation true packageName None None None
      else mkValidation false packageName None
             (Some ("Crate '" ++ packageName ++ "' is not found in Cargo.toml"))
             (Some (getSimilarPackages w packageName))
  end.

Definition validate_key (input : ValidateImportInput) : string :=
  Cache.generateKey [Cache.PStr "validate_rust"; Cache.PStr (importStatement input)].

Definition validateImport (w : World) (now : Z) (c : Store)
           (input : ValidateImportInput) : Any * Store :=
  let cacheKey := validate_key input in
  match Cache.get c now cacheKey with
  | (Some cached, c) => (cached, c)
  | (None, c) => remember c now cacheKey (AValidation (validate w input))
  end.

Definition gather (w : World) (input : DiscoverPackagesInput) : list PackageInfo :=
  let packages :=
    match cargo w with
    | Some cargoToml =>
        let dependencies := or_empty (cargo_dependencies cargoToml) in
        let devDependencies :=
          if d_includeDevDependencies input
          then or_empty (cargo_dev_dependencies cargoToml) else [] in
        let allDeps := spread dependencies devDependencies in
        collect (fun dep => package (fst dep) (snd dep) None true None) fst
                (d_searchTerm input) (d_maxResults input) (obj_entries allDeps) []
    | None => []
    end in
  add_stdlib RUST_STDLIB_MODULES "Rust standard library module"
             (d_searchTerm input) (d_maxResults input) packages.

Definition discover (w : World) (now : Z) (input : DiscoverPackagesInput)
  : DiscoveryResult :=
  discovery rust now (d_searchTerm input) (d_maxResults input) (gather w input).

Definition discover_key (input : DiscoverPackagesInput) : string :=
  Cache.generateKey
    [Cache.PStr "discover_rust"; Cache.opt_str (d_searchTerm input);
     Cache.PBool (d_includeDevDependencies input); Cache.PNum (d_maxResults input)].

Definition discoverPackages (w : World) (now : Z) (c : Store)
           (input : DiscoverPackagesInput) : Any * Store :=
  let cacheKey := discover_key input in
  match Cache.get c now cacheKey with
  | (Some cached, c) => (cached, c)
  | (None, c) => remember c now cacheKey (ADiscovery (discover w now input))
  end.

(** "This is a simplified implementation": an empty descriptor. *)
Definition introspect (input : IntrospectModuleInput) : ModuleInfo :=
  mkModule (moduleName input) EmptyString [] [] [].

Definition introspect_key (input : IntrospectModuleInput) : string :=
  Cache.generateKey [Cache.PStr "introspect_rust"; Cache.PStr (moduleName input)].

Definition introspectModule (w : World) (now : Z) (c : Store)
           (input : IntrospectModuleInput) : Any * Store :=
  let cacheKey := introspect_key input in
  match Cache.get c now cacheKey with
  | (Some cached, c) => (cached, c)
  | (None, c) => remember c now cacheKey (AModule (introspect input))
  end.

(** [searchAffordances]: "Delegate to discoverPackages with search term". *)
Definition searchAffordances (w : World) (now : Z) (c : Store)
           (input : SearchAffordancesInput) : Any * Store :=
  discoverPackages w now c
    (mkDiscoverInput (s_language input) (Some (query input)) true (s_maxResults input)).

End Rust.

(** ** engines/go.ts *)

Module Go.

Import Types Common.

Definition GO_STDLIB_PACKAGES : list string :=
  Eval vm_compute in
  mkSet
  ["fmt"; "log"; "os"; "io"; "net"; "http"; "time"; "strings"; "strconv"; "bytes";
     "bufio"; "context"; "sync"; "json"; "xml"; "html"; "url"; "path"; "filepath";
     "sort"; "math"; "crypto"; "encoding"; "compress"; "archive"; "database"; "regexp";
     "unicode"; "reflect"; "runtime"; "errors"; "flag"; "testing"; "image"; "text";
     "mime"; "plugin"; "debug"; "go"; "index"; "container"; "hash"; "net/http";
     "net/url"; "net/mail"; "net/smtp"; "net/textproto"; "crypto/md5"; "crypto/sha1";
     "crypto/sha256"; "crypto/sha512"; "crypto/aes"; "crypto/des"; "crypto/rsa";
     "crypto/rand"; "crypto/tls"; "crypto/x509"; "encoding/json"; "encoding/xml";
     "encoding/base64"; "encoding/hex"; "encoding/csv"; "encoding/gob";
     "encoding/binary"; "text/template"; "text/scanner"; "html/template"; "image/jpeg";
     "image/png"; "image/gif"; "compress/gzip"; "compress/zlib"; "archive/zip";
     "archive/tar"; "database/sql"; "database/sql/driver"; "go/ast"; "go/build";
     "go/doc"; "go/format"; "go/parser"; "go/token"; "container/heap";
     "container/list"; "container/ring"; "hash/crc32"; "hash/crc64"; "hash/fnv";
     "index/suffixarray"; "mime/multipart"; "mime/quotedprintable"; "debug/dwarf";
     "debug/elf"; "debug/gosym"; "debug/macho"; "debug/pe"; "debug/plan9obj"].

(** [findGoMod(process.cwd())] followed by [parseGoMod]: the name and
    version of each [require] entry; [None] when no [go.mod] is found. *)
Record World : Type := mkWorld {
  go_mod : option (list (string * string))
}.

(** In the comments [D] stands for the double quote and [IDENT] for an
    identifier. *)
Definition patterns : list Regex.regex :=
  [ (* /^import\s+D([^D]+)D/ *)
    Regex.seq [Regex.Bol; Regex.Lit "import"; Regex.Plus Regex.space;
               Regex.Lit (String dq EmptyString); Regex.Group 1 (Regex.Plus not_dq);
               Regex.Lit (String dq EmptyString)];
    (* /^import\s+(IDENT)\s+D([^D]+)D/ *)
    Regex.seq [Regex.Bol; Regex.Lit "import"; Regex.Plus Regex.space;
               Regex.Group 1 identifier; Regex.Plus Regex.space;
               Regex.Lit (String dq EmptyString); Regex.Group 2 (Regex.Plus not_dq);
               Regex.Lit (String dq EmptyString)];
    (* /^\s*D([^D]+)D\s*$/ *)
    Regex.seq [Regex.Bol; Regex.Star Regex.space;
               Regex.Lit (String dq EmptyString); Regex.Group 1 (Regex.Plus not_dq);
               Regex.Lit (String dq EmptyString); Regex.Star Regex.space; Regex.Eol];
    (* /^\s*(IDENT)\s+D([^D]+)D\s*$/ *)
    Regex.seq [Regex.Bol; Regex.Star Regex.space; Regex.Group 1 identifier;
               Regex.Plus Regex.space;
               Regex.Lit (String dq EmptyString); Regex.Group 2 (Regex.Plus not_dq);
               Regex.Lit (String dq EmptyString); Regex.Star Regex.space; Regex.Eol] ].

(** The first pattern that matches decides; the package path is its last
    group, [match[match.length - 1]]. *)
Definition extractPackageNameFromImport (importStatement : string) : option string :=
  match first_match importStatement patterns with
  | Some a =>
      match Regex.at_index a (List.length a - 1) with
      | Some packagePath => or_null packagePath
      | None => None
      end
  | None => None
  end.

Definition checkPackageInGoMod (w : World) (packageName : string) : bool :=
  match go_mod w with
  | None => false
  | Some dependencies => existsb (fun dep => String.eqb (fst dep) packageName) dependencies
  end.

Definition similar_dependencies (w : World) (packageName : string) : list string :=
  match go_mod w with
  | Some dependencies => filter (similar packageName) (map fst dependencies)
  | None => []
  end.

Definition getSimilarPackages (w : World) (packageName : string) : list string :=
  let suggestions := similar_dependencies w packageName in
  let suggestions :=
    (suggestions ++ filter (similar packageName) GO_STDLIB_PACKAGES)%list in
  firstn 5 suggestions.

Definition validate (w : World) (input : ValidateImportInput) : ValidationResult :=
  match extractPackageNameFromImport (importStatement input) with
  | None => unparsed "Could not parse import statement"
  | Some packageName =>
      if negb (JsString.truthy packageName)
      then unparsed "Could not parse import statement"
      else if set_has GO_STDLIB_PACKAGES packageName
      then mkValidation true packageName None
                        (Some "Go standard library package") None
      else if checkPackageInGoMod w packageName
      then mkValidation true packageName None None None
      else mkValidation false packageName None
             (Some ("Package '" ++ packageName ++ "' is not found in go.mod"))
             (Some (getSimilarPackages w packageName))
  end.

Definition validate_key (input : ValidateImportInput) : string :=
  Cache.generateKey [Cache.PStr "validate_go"; Cache.PStr (importStatement input)].

Definition validateImport (w : World) (now : Z) (c : Store)
           (input : ValidateImportInput) : Any * Store :=
  let cacheKey := validate_key input in
  match Cache.get c now cacheKey with
  | (Some cached, c) => (cached, c)
  | (None, c) => remember c now cacheKey (AValidation (validate w input))
  end.

Definition gather (w : World) (input : DiscoverPackagesInput) : list PackageInfo :=
  let packages :=
    match go_mod w with
    | Some dependencies =>
        collect (fun dep => package (fst dep) (snd dep) None true None) fst
                (d_searchTerm input) (d_maxResults input) dependencies []
    | None => []
    end in
  add_stdlib GO_STDLIB_PACKAGES "Go standard library package"
             (d_searchTerm input) (d_maxResults input) packages.

Definition discover (w : World) (now : Z) (input : DiscoverPackagesInput)
  : DiscoveryResult :=
  discovery go now (d_searchTerm input) (d_maxResults input) (gather w input).

Definition discover_key (input : DiscoverPackagesInput) : string :=
  Cache.generateKey
    [Cache.PStr "discover_go"; Cache.opt_str (d_searchTerm input);
     Cache.PBool (d_includeDevDependencies input); Cache.PNum (d_maxResults input)].

Definition discoverPackages (w : World) (now : Z) (c : Store)
           (input : DiscoverPackagesInput) : Any * Store :=
  let cacheKey := discover_key input in
  match Cache.get c now cacheKey with
  | (Some cached, c) => (cached, c)
  | (None, c) => remember c now cacheKey (ADiscovery (discover w now input))
  end.

Definition introspect (input : IntrospectModuleInput) : ModuleInfo :=
  mkModule (moduleName input) EmptyString [] [] [].

Definition introspect_key (input : IntrospectModuleInput) : string :=
  Cache.generateKey [Cache.PStr "introspect_go"; Cache.PStr (moduleName input)].

Definition introspectModule (w : World) (now : Z) (c : Store)
           (input : IntrospectModuleInput) : Any * Store :=
  let cacheKey := introspect_key input in
  match Cache.get c now cacheKey with
  | (Some cached, c) => (cached, c)
  | (None, c) => remember c now cacheKey (AModule (introspect input))
  end.

(** [searchAffordances]: "Delegate to discoverPackages with search term". *)
Definition searchAffordances (w : World) (now : Z) (c : Store)
           (input : SearchAffordancesInput) : Any * Store :=
  discoverPackages w now c
    (mkDiscoverInput (s_language input) (Some (query input)) true (s_maxResults input)).

End Go.

(** ** engines/java.ts *)

Module Java.

Import Types Common.

Definition JAVA_STDLIB_PACKAGES : list string :=
  Eval vm_compute in
  mkSet
  ["java.lang"; "java.util"; "java.io"; "java.net"; "java.nio"; "java.time";
     "java.text"; "java.math"; "java.security"; "java.sql"; "java.awt"; "java.swing";
     "javax.swing"; "java.applet"; "java.beans"; "java.rmi"; "java.util.concurrent";
     "java.util.regex"; "java.util.stream"; "java.util.function"; "java.util.logging";
     "java.nio.file"; "java.nio.charset"; "java.security.cert"; "java.security.spec";
     "java.time.format"; "java.time.temporal"; "java.time.zone"; "javax.crypto";
     "javax.net"; "javax.security"; "javax.sql"; "javax.xml"; "javax.annotation";
     "javax.management"; "javax.naming"; "javax.script"; "javax.sound";
     "javax.imageio"; "javax.print"; "javax.tools"; "javax.lang";
     "javax.accessibility"; "javax.activity"; "javax.transaction"; "org.w3c.dom";
     "org.xml.sax"; "org.ietf.jgss"].

(** [findBuildFile(process.cwd())] followed by [parseBuildFile]: the
    name ([group:artifact]) and version of each dependency; [None] when
    no build file is found. *)
Record World : Type := mkWorld {
  build_file : option (list (string * string))
}.

(** In the comments [PATH] stands for identifiers joined by dots. *)
Definition patterns : list Regex.regex :=
  [ (* /^import\s+static\s+(PATH)/ *)
    Regex.seq [Regex.Bol; Regex.Lit "import"; Regex.Plus Regex.space;
               Regex.Lit "static"; Regex.Plus Regex.space;
               Regex.Group 1 (path_of ".")];
    (* /^import\s+(PATH)/ *)
    Regex.seq [Regex.Bol; Regex.Lit "import"; Regex.Plus Regex.space;
               Regex.Group 1 (path_of ".")] ].

(** Everything but the last component, which is usually the class. *)
Definition package_part (fullPackage : string) : string :=
  let parts := JsString.split "." fullPackage in
  if (1 <? List.length parts)%nat
  then JsString.join "." (removelast parts)
  else fullPackage.

Definition extractPackageNameFromImport (importStatement : string) : option string :=
  match first_group importStatement patterns with
  | Some fullPackage => Some (package_part fullPackage)
  | None => None
  end.

Definition isStandardLibraryPackage (packageName : string) : bool :=
  set_has JAVA_STDLIB_PACKAGES packageName ||
  JsString.startsWith packageName "java." ||
  JsString.startsWith packageName "javax." ||
  JsString.startsWith packageName "org.w3c." ||
  JsString.startsWith packageName "org.xml." ||
  JsString.startsWith packageName "org.ietf.".

(** [dep.name.split(':')[i] || '']. *)
Definition name_part (i : nat) (n : string) : string :=
  nth i (JsString.split ":" n) EmptyString.

Definition checkPackageInBuildFile (w : World) (packageName : string) : bool :=
  match build_file w with
  | None => false
  | Some dependencies =>
      existsb (fun dep =>
                 JsString.includes (fst dep) packageName ||
                 JsString.includes packageName (name_part 0 (fst dep)) ||
                 JsString.includes packageName (name_part 1 (fst dep)))
              dependencies
  end.

Definition similar_dependencies (w : World) (packageName : string) : list string :=
  match build_file w with
  | Some dependencies => filter (similar packageName) (map fst dependencies)
  | None => []
  end.

Definition getSimilarPackages (w : World) (packageName : string) : list string :=
  let suggestions := similar_dependencies w packageName in
  let suggestions :=
    (suggestions ++ filter (similar packageName) JAVA_STDLIB_PACKAGES)%list in
  firstn 5 suggestions.

Definition validate (w : World) (input : ValidateImportInput) : ValidationResult :=
  match extractPackageNameFromImport (importStatement input) with
  | None => unparsed "Could not parse import statement"
  | Some packageName =>
      if negb (JsString.truthy packageName)
      then unparsed "Could not parse import statement"
      else if isStandardLibraryPackage packageName
      then mkValidation true packageName None
                        (Some "Java standard library package") None
      else if checkPackageInBuildFile w packageName
      then mkValidation true packageName None None None
      else mkValidation false packageName None
             (Some ("Package '" ++ packageName ++
                    "' is not found in build dependencies"))
             (Some (getSimilarPackages w packageName))
  end.

Definition validate_key (input : ValidateImportInput) : string :=
  Cache.generateKey [Cache.PStr "validate_java"; Cache.PStr (importStatement input)].

Definition validateImport (w : World) (now : Z) (c : Store)
           (input : ValidateImportInput) : Any * Store :=
  let cacheKey := validate_key input in
  match Cache.get c now cacheKey with
  | (Some cached, c) => (cached, c)
  | (None, c) => remember c now cacheKey (AValidation (validate w input))
  end.

Definition gather (w : World) (input : DiscoverPackagesInput) : list PackageInfo :=
  let packages :=
    match build_file w with
    | Some dependencies =>
        collect (fun dep => package (fst dep) (snd dep) None true None) fst
                (d_searchTerm input) (d_maxResults input) dependencies []
    | None => []
    end in
  add_stdlib JAVA_STDLIB_PACKAGES "Java standard library package"
             (d_searchTerm input) (d_maxResults input) packages.

Definition discover (w : World) (now : Z) (input : DiscoverPackagesInput)
  : DiscoveryResult :=
  discovery java now (d_searchTerm input) (d_maxResults input) (gather w input).

Definition discover_key (input : DiscoverPackagesInput) : string :=
  Cache.generateKey
    [Cache.PStr "discover_java"; Cache.opt_str (d_searchTerm input);
     Cache.PBool (d_includeDevDependencies input); Cache.PNum (d_maxResults input)].

Definition discoverPackages (w : World) (now : Z) (c : Store)
           (input : DiscoverPackagesInput) : Any * Store :=
  let cacheKey := discover_key input in
  match Cache.get c now cacheKey with
  | (Some cached, c) => (cached, c)
  | (None, c) => remember c now cacheKey (ADiscovery (discover w now input))
  end.

Definition introspect (input : IntrospectModuleInput) : ModuleInfo :=
  mkModule (moduleName input) EmptyString [] [] [].

Definition introspect_key (input : IntrospectModuleInput) : string :=
  Cache.generateKey [Cache.PStr "introspect_java"; Cache.PStr (moduleName input)].

Definition introspectModule (w : World) (now : Z) (c : Store)
           (input : IntrospectModuleInput) : Any * Store :=
  let cacheKey := introspect_key input in
  match Cache.get c now cacheKey with
  | (Some cached, c) => (cached, c)
  | (None, c) => remember c now cacheKey (AModule (introspect input))
  end.

(** [searchAffordances]: "Delegate to discoverPackages with search term". *)
Definition searchAffordances (w : World) (now : Z) (c : Store)
           (input : SearchAffordancesInput) : Any * Store :=
  discoverPackages w now c
    (mkDiscoverInput (s_language input) (Some (query input)) true (s_maxResults input)).

End Java.

(** ** engines/index.ts *)

Module Factory.

Import Types Common.

(** The [DiscoveryEngine] interface of types.ts. *)
Record DiscoveryEngine : Type := mkEngine {
  discoverPackages : Z -> Store -> DiscoverPackagesInput -> Any * Store;
  validateImport : Z -> Store -> ValidateImportInput -> Any * Store;
  introspectModule : Z -> Store -> IntrospectModuleInput -> Any * Store;
  searchAffordances : Z -> Store -> SearchAffordancesInput -> Any * Store
}.

(** The outside state of the five engines. *)
Record Worlds : Type := mkWorlds {
  js : JavaScript.World;
  py : Python.World;
  rs : Rust.World;
  gl : Go.World;
  jv : Java.World
}.

(** The engine that [initializeEngines] registers for a language. *)
Definition engine (ws : Worlds) (l : Language) : DiscoveryEngine :=
  match l with
  | javascript =>
      mkEngine (JavaScript.discoverPackages (js ws)) (JavaScript.validateImport (js ws))
               (JavaScript.introspectModule (js ws)) (JavaScript.searchAffordances (js ws))
  | python =>
      mkEngine (Python.discoverPackages (py ws)) (Python.validateImport (py ws))
               (Python.introspectModule (py ws)) (Python.searchAffordances (py ws))
  | rust =>
      mkEngine (Rust.discoverPackages (rs ws)) (Rust.validateImport (rs ws))
               (Rust.introspectModule (rs ws)) (Rust.searchAffordances (rs ws))
  | go =>
      mkEngine (Go.discoverPackages (gl ws)) (Go.validateImport (gl ws))
               (Go.introspectModule (gl ws)) (Go.searchAffordances (gl ws))
  | java =>
      mkEngine (Java.discoverPackages (jv ws)) (Java.validateImport (jv ws))
               (Java.introspectModule (jv ws)) (Java.searchAffordances (jv ws))
  end.

Definition languages : list Language := [javascript; python; rust; go; java].

(** [getEngine(language)]; [None] is the "Unsupported language" error. *)
Definition getEngine (ws : Worlds) (l : string) : option DiscoveryEngine :=
  match find (fun x => String.eqb (language_name x) (JsString.toLowerCase l)) languages with
  | Some x => Some (engine ws x)
  | None => None
  end.

(** The private parts of each engine that the properties speak about. *)
Definition patterns (l : Language) : list Regex.regex :=
  match l with
  | javascript => JavaScript.patterns
  | python => Python.patterns
  | rust => Rust.patterns
  | go => Go.patterns
  | java => Java.patterns
  end.

Definition extractPackageNameFromImport (l : Language) : string -> option string :=
  match l with
  | javascript => JavaScript.extractPackageNameFromImport
  | python => Python.extractPackageNameFromImport
  | rust => Rust.extractPackageNameFromImport
  | go => Go.extractPackageNameFromImport
  | java => Java.extractPackageNameFromImport
  end.

(** The standard-library set of each ecosystem. *)
Definition registry (l : Language) : list string :=
  match l with
  | javascript => Builtin.NODE_BUILTIN_MODULES
  | python => Python.PYTHON_STDLIB_MODULES
  | rust => Rust.RUST_STDLIB_MODULES
  | go => Go.GO_STDLIB_PACKAGES
  | java => Java.JAVA_STDLIB_PACKAGES
  end.

Definition validate_key (l : Language) : ValidateImportInput -> string :=
  match l with
  | javascript => JavaScript.validate_key
  | python => Python.validate_key
  | rust => Rust.validate_key
  | go => Go.validate_key
  | java => Java.validate_key
  end.

Definition introspect_key (l : Language) : IntrospectModuleInput -> string :=
  match l with
  | javascript => JavaScript.introspect_key
  | python => Python.introspect_key
  | rust => Rust.introspect_key
  | go => Go.introspect_key
  | java => Java.introspect_key
  end.

Definition getSimilarPackages (ws : Worlds) (l : Language) : string -> list string :=
  match l with
  | javascript => JavaScript.getSimilarPackages (js ws)
  | python => Python.getSimilarPackages (py ws)
  | rust => Rust.getSimilarPackages (rs ws)
  | go => Go.getSimilarPackages (gl ws)
  | java => Java.getSimilarPackages (jv ws)
  end.

(** The declared dependencies of the located manifest: the keys of
    [package.json], of [Cargo.toml], the names that [go.mod] requires and
    the names in the build file.  The Python engine locates no manifest. *)
Definition declared (ws : Worlds) (l : Language) : list string :=
  match l with
  | javascript =>
      match JavaScript.manifest (js ws) with
      | JavaScript.Parsed _ dependencies devDependencies =>
          obj_keys (spread (or_empty dependencies) (or_empty devDependencies))
      | _ => []
      end
  | python => []
  | rust =>
      match Rust.cargo (rs ws) with
      | Some t => obj_keys (spread (or_empty (Rust.cargo_dependencies t))
                                   (or_empty (Rust.cargo_dev_dependencies t)))
      | None => []
      end
  | go => match Go.go_mod (gl ws) with Some d => map fst d | None => [] end
  | java => match Java.build_file (jv ws) with Some d => map fst d | None => [] end
  end.

(** The names that the first loop of [getSimilarPackages] scans: the
    declared dependencies, and in the Python engine the names of the
    packages that pip or conda list as installed. *)
Definition scanned (ws : Worlds) (l : Language) : list string :=
  match l with
  | python => map name (Python.getInstalledPackages (py ws))
  | _ => declared ws l
  end.

(** The search pipeline as the specification words it, over the
    [discover] of any engine: enumerate with an empty search term,
    annotate, rank and keep the top [maxResults]. *)
Definition pipeline (discover : DiscoverPackagesInput -> DiscoveryResult)
           (input : SearchAffordancesInput) : list PackageInfo :=
  let candidates :=
    packages (discover (mkDiscoverInput (s_language input) (Some EmptyString) true 1000)) in
  SemanticSearch.searchPackagesSemanticaly
    (query input)
    (map (fun pkg => SemanticSearch.enhancePackageInfo pkg (Some (query input))) candidates)
    (s_category input) (s_maxResults input).

(** [isLanguageSupported(language)]. *)
Definition isLanguageSupported (l : string) : bool :=
  existsb (fun x => String.eqb (language_name x) (JsString.toLowerCase l)) languages.

(** [getSupportedLanguages()]. *)
Definition getSupportedLanguages : list string := map language_name languages.

(** The four operations of an engine on a request, by name. *)
Inductive Request : Type :=
| Discover (input : DiscoverPackagesInput)
| Validate (input : ValidateImportInput)
| Introspect (input : IntrospectModuleInput)
| Search (input : SearchAffordancesInput).

Definition call (e : DiscoveryEngine) (now : Z) (c : Store) (r : Request) : Any * Store :=
  match r with
  | Discover input => discoverPackages e now c input
  | Validate input => validateImport e now c input
  | Introspect input => introspectModule e now c input
  | Search input => searchAffordances e now c input
  end.

(** The key under which an engine stores the result of a request. *)
Definition request_key (l : Language) (r : Request) : string :=
  match r with
  | Validate input => validate_key l input
  | Introspect input => introspect_key l input
  | Discover input =>
      match l with
      | javascript => JavaScript.discover_key input
      | python => Python.discover_key input
      | rust => Rust.discover_key input
      | go => Go.discover_key input
      | java => Java.discover_key input
      end
  | Search input =>
      let delegated :=
        mkDiscoverInput (s_language input) (Some (query input)) true (s_maxResults input) in
      match l with
      | javascript => JavaScript.search_key input
      | python => Python.discover_key delegated
      | rust => Rust.discover_key delegated
      | go => Go.discover_key delegated
      | java => Java.discover_key delegated
      end
  end.

(** The packages that [discoverPackages] gathers before it cuts the list. *)
Definition gather (ws : Worlds) (l : Language) (input : DiscoverPackagesInput)
  : list PackageInfo :=
  match l with
  | javascript => JavaScript.gather (js ws) input
  | python => Python.gather (py ws) input
  | rust => Rust.gather (rs ws) input
  | go => Go.gather (gl ws) input
  | java => Java.gather (jv ws) input
  end.

(** The outcome that [validateImport] computes. *)
Definition validate (ws : Worlds) (l : Language) (input : ValidateImportInput)
  : ValidationResult :=
  match l with
  | javascript => JavaScript.validate (js ws) input
  | python => Python.validate (py ws) input
  | rust => Rust.validate (rs ws) input
  | go => Go.validate (gl ws) input
  | java => Java.validate (jv ws) input
  end.

(** The result that [discoverPackages] computes on a cache miss. *)
Definition discover (ws : Worlds) (l : Language) (now : Z) (input : DiscoverPackagesInput)
  : DiscoveryResult :=
  match l with
  | javascript => JavaScript.discover (js ws) now input
  | python => Python.discover (py ws) now input
  | rust => Rust.discover (rs ws) now input
  | go => Go.discover (gl ws) now input
  | java => Java.discover (jv ws) now input
  end.

End Factory.

(** ** The upward search for a manifest

    [findPackageJson], [findCargoToml], [findGoMod] and [findBuildFile]
    walk from the working directory to its parents.  An absolute
    normalised path is the list of its segments, innermost first, so
    that [dirname(dir)] and [join(dir, '..')] are the tail and the root
    directory is the empty list. *)

Module Locator.

Definition Dir : Type := list string.

(** [while (currentDir !== '/')]: the loop of the three engines that look
    for one file name; [has dir] is [existsSync(join(dir, name))]. *)
Fixpoint find_up (has : Dir -> bool) (currentDir : Dir) : option Dir :=
  match currentDir with
  | [] => None
  | _ :: parent => if has currentDir then Some currentDir else find_up has parent
  end.

(** [findBuildFile]: in each directory [pom.xml] is looked for first,
    then [build.gradle], then [build.gradle.kts]. *)
Fixpoint findBuildFile (has : Dir -> string -> bool) (currentDir : Dir)
  : option (Dir * string) :=
  match currentDir with
  | [] => None
  | _ :: parent =>
      if has currentDir "pom.xml" then Some (currentDir, "pom.xml")
      else if has currentDir "build.gradle" then Some (currentDir, "build.gradle")
      else if has currentDir "build.gradle.kts" then Some (currentDir, "build.gradle.kts")
      else findBuildFile has parent
  end.

(** [dir] is [start] or one of its parents. *)
Definition ancestor (dir start : Dir) : Prop := exists inner, start = (inner ++ dir)%list.

End Locator.

(** ** Concrete projects and requests *)

Module Examples.

Import Types Common.

Definition server_options : Cache.CacheOptions := Cache.mkOptions 300000 1000.
Definition empty_store : Store := Cache.create server_options.

(** A cache of capacity one. *)
Definition tiny : Cache.CacheManager Z := Cache.create (Cache.mkOptions 60000 1).

(** A stored entry for the expiry property. *)
Definition one_entry : Cache.CacheManager Z :=
  Cache.set (Cache.create server_options) 1000 "k" 7 (Some 50).

(** A JavaScript project without manifest in which nothing resolves,
    with [dirname] and [join] tabulated on the paths used below. *)
Definition bare_js : JavaScript.World :=
  JavaScript.mkWorld "/work" JavaScript.NotFound (fun _ _ => None) None
    (fun _ _ => false) (fun _ _ => None) (fun _ => None) (fun _ => None)
    (fun _ => None) (fun _ => None)
    (fun p => if String.eqb p EmptyString then "." else p)
    (fun ps => match ps with
               | ["."; f] => f
               | _ => JsString.join "/" ps
               end).

(** The same project started in a directory whose [package.json] has an
    [exports] map with the single key ["."]. *)
Definition exporting_js : JavaScript.World :=
  JavaScript.mkWorld "/work" JavaScript.NotFound (fun _ _ => None) None
    (fun _ _ => false) (fun _ _ => None) (fun _ => None) (fun _ => None)
    (fun p => if String.eqb p "package.json" then Some ["."] else None)
    (fun _ => None)
    (JavaScript.dirname bare_js) (JavaScript.join bare_js).

(** A project in which [left-pad] is installed under [/x] only. *)
Definition leftpad_js : JavaScript.World :=
  JavaScript.mkWorld "/work" JavaScript.NotFound (fun _ _ => None) None
    (fun root n => String.eqb root "/x" && String.eqb n "left-pad")
    (fun _ _ => None) (fun _ => None) (fun _ => None)
    (fun _ => None) (fun _ => None)
    (JavaScript.dirname bare_js) (JavaScript.join bare_js).

(** A project that declares [vitest] and [vite]. *)
Definition vitest_js : JavaScript.World :=
  JavaScript.mkWorld "/work"
    (JavaScript.Parsed "/work" (Some [("vite", "^5.0.0")]) (Some [("vitest", "^1.0.0")]))
    (fun _ _ => None) None
    (fun _ _ => false) (fun _ _ => None) (fun _ => None) (fun _ => None)
    (fun _ => None) (fun _ => None)
    (JavaScript.dirname bare_js) (JavaScript.join bare_js).

Definition bare_py : Python.World :=
  Python.mkWorld (Some [("requests", "2.31.0")]) None (fun _ => false)
                 (fun _ => []) (fun _ => None).

(** A crate that depends on [reqwest]. *)
Definition reqwest_rs : Rust.World :=
  Rust.mkWorld (Some (Rust.mkCargo (Some [("reqwest", "0.11")]) None)).

Definition bare_go : Go.World := Go.mkWorld None.
Definition bare_java : Java.World := Java.mkWorld None.

Definition worlds : Factory.Worlds :=
  Factory.mkWorlds vitest_js bare_py reqwest_rs bare_go bare_java.

(** Two validation requests that differ in the project path only. *)
Definition os_in_a : ValidateImportInput := mkValidateInput "import os" python (Some "/a").
Definition os_in_b : ValidateImportInput := mkValidateInput "import os" python (Some "/b").

(** Two introspection requests that differ in depth and privacy. *)
Definition serde_shallow : IntrospectModuleInput := mkIntrospectInput "serde" rust false 1.
Definition serde_deep : IntrospectModuleInput := mkIntrospectInput "serde" rust true 5.

(** Two JavaScript requests whose fields differ but join to one key. *)
Definition pad_elsewhere : ValidateImportInput :=
  mkValidateInput "require('left-pad')" javascript (Some "javascript:/x").
Definition pad_in_x : ValidateImportInput :=
  mkValidateInput "require('left-pad'):javascript" javascript (Some "/x").

Definition missing_module : IntrospectModuleInput :=
  mkIntrospectInput "non-existent-module-12345" javascript false 2.
Definition test_module : IntrospectModuleInput :=
  mkIntrospectInput "test" javascript false 2.

Definition reqwest_query : SearchAffordancesInput :=
  mkSearchInput "reqwest http" rust "all" 5.

Definition vitest_query : SearchAffordancesInput :=
  mkSearchInput "vite" javascript "all" 5.

(** Two JavaScript requests with one key: the first names [nope] in an
    [import ... from], the second requires [fs]. *)
Definition nope_first : ValidateImportInput :=
  mkValidateInput "require('fs'):javascript:import x from 'nope'" javascript None.
Definition fs_second : ValidateImportInput :=
  mkValidateInput "require('fs')" javascript (Some "import x from 'nope':javascript").

(** Two JavaScript requests with one key: the first requires [fs], the
    second is no import at all. *)
Definition fs_first : ValidateImportInput :=
  mkValidateInput "garbage:javascript:require('fs')" javascript (Some "/p").
Definition garbage_second : ValidateImportInput :=
  mkValidateInput "garbage" javascript (Some "require('fs'):javascript:/p").

(** Two Rust searches that differ in the category only. *)
Definition serde_in_data : SearchAffordancesInput := mkSearchInput "serde" rust "data" 5.
Definition serde_in_ui : SearchAffordancesInput := mkSearchInput "serde" rust "ui" 5.

(** A project in which the parser finds a private and a public export. *)
Definition parsed_js : JavaScript.World :=
  JavaScript.mkWorld "/work" JavaScript.NotFound (fun _ _ => None) None
    (fun _ _ => false) (fun _ _ => None)
    (fun _ => Some [mkExport "_internal" TFunction None None;
                    mkExport "pad" TFunction (Some "pad()") None])
    (fun _ => None) (fun _ => None) (fun _ => None)
    (JavaScript.dirname bare_js) (JavaScript.join bare_js).

End Examples.

(** ** Vocabulary of the properties *)

Module Vocabulary.

(** [s.split(ch)] for a separator of one code unit, without the bound on
    the scan. *)
Fixpoint split_char (ch : ascii) (acc : string) (s : string) : list string :=
  match s with
  | EmptyString => [acc]
  | String c s' =>
      if Ascii.eqb c ch then acc :: split_char ch EmptyString s'
      else split_char ch (acc ++ String c EmptyString) s'
  end.

(** The code unit [ch] does not occur in [s]. *)
Fixpoint free_of (ch : ascii) (s : string) : bool :=
  match s with
  | EmptyString => true
  | String c s' => negb (Ascii.eqb c ch) && free_of ch s'
  end.

(** An entry is expired at time [now]. *)
Definition expired {T : Type} (now : Z) (b : string * Cache.CacheEntry T) : bool :=
  now - Cache.timestamp (snd b) >? Cache.ttl (snd b).

(** A record whose name and description are in lower case. *)
Definition lowered (p : Types.PackageInfo) : Types.PackageInfo :=
  Types.mkPackage (JsString.toLowerCase (Types.name p)) (Types.version p)
                  (option_map JsString.toLowerCase (Types.description p))
                  (Types.installed p) (Types.path p) (Types.category p)
                  (Types.semanticScore p).

(** The name of a record contains a search term, case apart. *)
Definition term_in_name (t : string) (p : Types.PackageInfo) : bool :=
  JsString.includes (JsString.toLowerCase (Types.name p)) (JsString.toLowerCase t).

(** The pattern of every engine method: look the key up, and on a miss
    compute, store and return. *)
Definition read_through (key : string)
           (compute : Common.Store -> Types.Any * Common.Store)
           (now : Z) (c : Common.Store) : Types.Any * Common.Store :=
  match Cache.get c now key with
  | (Some cached, c) => (cached, c)
  | (None, c) => let (result, c) := compute c in Common.remember c now key result
  end.

(** What one category scores in [categorizePackage] for a record. *)
Definition hits (p : Types.PackageInfo) (c : SemanticSearch.Category) : Z :=
  SemanticSearch.keyword_hits
    (JsString.toLowerCase (Types.name p))
    (JsString.toLowerCase (SemanticSearch.description_or_empty p)) c.

(** The states of the shared cache of a running server: [index.ts]
    creates it empty and hands it to the factory; afterwards only the
    methods of the engines and the periodic [cleanup] touch it.  Every
    call may find the world outside in another state. *)
Inductive reachable : Common.Store -> Prop :=
| reach_create (options : Cache.CacheOptions) : reachable (Cache.create options)
| reach_call (ws : Factory.Worlds) (l : Types.Language) (now : Z) (c : Common.Store)
             (r : Factory.Request) :
    reachable c -> reachable (snd (Factory.call (Factory.engine ws l) now c r))
| reach_cleanup (now : Z) (c : Common.Store) :
    reachable c -> reachable (Cache.cleanup c now).

(** A value fits a key when, the key being that of a validation request
    of the Python, Rust, Go or Java engine, the value is the outcome of
    that request in some state of the world. *)
Definition fits (key : string) (value : Types.Any) : Prop :=
  forall (l : Types.Language) (input : Types.ValidateImportInput),
    l <> Types.javascript -> key = Factory.validate_key l input ->
    exists ws : Factory.Worlds,
      value = Types.AValidation (Factory.validate ws l input).

(** Every entry of the store fits its key. *)
Definition validated (c : Common.Store) : Prop :=
  forall (key : string) (e : Cache.CacheEntry Types.Any),
    Cache.map_get key (Cache.cache c) = Some e -> fits key (Cache.data e).

(** What the optional search term adds to a key. *)
Definition term_text (searchTerm : option string) : string :=
  match searchTerm with Some t => t ++ ":" | None => EmptyString end.

(** The text that opens the key of [discoverPackages] in each engine. *)
Definition discover_tag (l : Types.Language) (input : Types.DiscoverPackagesInput)
  : string :=
  match l with
  | Types.javascript =>
      "discover:" ++ Types.language_name (Types.d_language input) ++ ":"
  | Types.python => "discover_python:"
  | Types.rust => "discover_rust:"
  | Types.go => "discover_go:"
  | Types.java => "discover_java:"
  end.

(** The input of the [discoverPackages] call to which the Python, Rust,
    Go and Java engines delegate [searchAffordances]. *)
Definition delegated (input : Types.SearchAffordancesInput)
  : Types.DiscoverPackagesInput :=
  Types.mkDiscoverInput (Types.s_language input) (Some (Types.query input)) true
                        (Types.s_maxResults input).

End Vocabulary.

(** * Properties *)

(** ** Strings *)

Module JsStringFacts.

Import JsString.

Lemma prefix_app (p r : string) : prefix p (p ++ r) = true.
Proof.
  induction p as [|a p IH]; simpl; [now destruct r|].
  destruct (ascii_dec a a) as [_|n]; [exact IH | now elim n].
Qed.

Lemma prefix_inv (p s : string) : prefix p s = true -> exists r, s = p ++ r.
Proof.
  revert s; induction p as [|a p IH]; intros s H.
  - now exists s.
  - destruct s as [|b s]; simpl in H; [discriminate|].
    destruct (ascii_dec a b) as [->|]; [|discriminate].
    destruct (IH s H) as [r ->]. now exists r.
Qed.

Lemma append_assoc (a b c : string) : (a ++ b) ++ c = a ++ (b ++ c).
Proof. induction a; simpl; congruence. Qed.

Lemma append_nil_r (a : string) : a ++ EmptyString = a.
Proof. induction a; simpl; congruence. Qed.

Lemma includes_nil (t : string) :
  includes EmptyString t = prefix t EmptyString || false.
Proof. reflexivity. Qed.

Lemma includes_cons (c : ascii) (s t : string) :
  includes (String c s) t = prefix t (String c s) || includes s t.
Proof. reflexivity. Qed.

(** [includes] decides the occurrence of a contiguous substring. *)
Lemma includes_spec (s t : string) :
  includes s t = true <-> exists a b, s = a ++ t ++ b.
Proof.
  split.
  - induction s as [|c s IH]; intros H.
    + rewrite includes_nil, orb_false_r in H. apply prefix_inv in H as [r E].
      exists EmptyString, r. exact E.
    + rewrite includes_cons in H. apply orb_true_iff in H as [H|H].
      * apply prefix_inv in H as [r E]. exists EmptyString, r. exact E.
      * destruct (IH H) as (a & b & ->). now exists (String c a), b.
  - intros (a & b & ->). induction a as [|c a IH].
    + change (EmptyString ++ t ++ b) with (t ++ b).
      destruct (t ++ b) eqn:E.
      * rewrite includes_nil, <- E, prefix_app. reflexivity.
      * rewrite includes_cons, <- E, prefix_app. reflexivity.
    + change (String c a ++ t ++ b) with (String c (a ++ t ++ b)).
      rewrite includes_cons, IH. apply orb_true_r.
Qed.

Lemma truthy_app_l (a b : string) : truthy a = true -> truthy (a ++ b) = true.
Proof. destruct a; simpl; [discriminate | reflexivity]. Qed.

Lemma truthy_nonempty (a : string) : truthy a = true <-> a <> EmptyString.
Proof. destruct a; simpl; split; congruence. Qed.

Lemma array_includes_In (l : list string) (x : string) :
  array_includes l x = true <-> In x l.
Proof.
  unfold array_includes. rewrite existsb_exists. split.
  - intros (y & Hy & E). apply String.eqb_eq in E. now subst.
  - intros H. exists x. split; [exact H | apply String.eqb_refl].
Qed.

Lemma append_inj_l (p a b : string) : p ++ a = p ++ b -> a = b.
Proof. induction p; simpl; intros H; [exact H | injection H; auto]. Qed.

End JsStringFacts.

(** ** The matcher *)

Module RegexFacts.

Import Regex.

Lemma length_append (a b : string) :
  String.length (a ++ b) = (String.length a + String.length b)%nat.
Proof. induction a; simpl; congruence. Qed.

Lemma substring_all (r : string) : substring 0 (String.length r) r = r.
Proof. induction r; simpl; congruence. Qed.

Lemma substring_skip (l r : string) (n : nat) :
  substring (String.length l) n (l ++ r) = substring 0 n r.
Proof. induction l; simpl; [reflexivity | assumption]. Qed.

(** What remains after a literal has been read. *)
Lemma rest_after_prefix (l s : string) :
  prefix l s = true ->
  (String.length l
   + String.length (substring (String.length l) (String.length s - String.length l) s)
   = String.length s)%nat.
Proof.
  intros H. apply JsStringFacts.prefix_inv in H as [r ->].
  rewrite length_append, substring_skip.
  replace (String.length l + String.length r - String.length l)%nat
    with (String.length r) by lia.
  now rewrite substring_all.
Qed.

Lemma star_loop_fuel {R : Type}
      (body1 body2 : nat -> string -> captures ->
                     (nat -> string -> captures -> option R) -> option R)
      (k1 k2 : nat -> string -> captures -> option R) (pos0 : nat) (s0 : string) :
  (forall pos s cs (c1 c2 : nat -> string -> captures -> option R),
      later pos0 s0 pos s ->
      (forall pos' s' cs', later pos s pos' s' -> c1 pos' s' cs' = c2 pos' s' cs') ->
      body1 pos s cs c1 = body2 pos s cs c2) ->
  (forall pos s cs, later pos0 s0 pos s -> k1 pos s cs = k2 pos s cs) ->
  forall n1 n2 pos s cs,
    later pos0 s0 pos s ->
    (String.length s < n1)%nat -> (String.length s < n2)%nat ->
    star_loop body1 n1 pos s cs k1 = star_loop body2 n2 pos s cs k2.
Proof.
  intros Hbody Hk. induction n1 as [|n1 IH]; intros n2 pos s cs Hl H1 H2; [lia|].
  destruct n2 as [|n2]; [lia|]. simpl.
  rewrite (Hbody pos s cs _
             (fun pos' s' cs' =>
                if Nat.eqb pos' pos then None else star_loop body2 n2 pos' s' cs' k2) Hl).
  - now rewrite (Hk pos s cs Hl).
  - intros pos' s' cs' [Hle Hsum].
    destruct (Nat.eqb pos' pos) eqn:E; [reflexivity|].
    apply Nat.eqb_neq in E. destruct Hl as [Hle0 Hsum0].
    apply IH; [split; lia | lia | lia].
Qed.

(** The result of the matcher does not depend on the fuel, once there is
    more of it than input: no [Star] ever runs out of iterations. *)
Lemma m_fuel {R : Type} (r : regex) :
  forall (f1 f2 pos : nat) (s : string) (cs : captures)
         (k1 k2 : nat -> string -> captures -> option R),
    (String.length s < f1)%nat -> (String.length s < f2)%nat ->
    (forall pos' s' cs', later pos s pos' s' -> k1 pos' s' cs' = k2 pos' s' cs') ->
    m r f1 pos s cs k1 = m r f2 pos s cs k2.
Proof.
  induction r as [l|p|r1 IH1 r2 IH2|r IH|i r IH| |];
    intros f1 f2 pos s cs k1 k2 H1 H2 Hk; simpl.
  - destruct (prefix l s) eqn:E; [|reflexivity].
    apply Hk. pose proof (rest_after_prefix l s E). split; lia.
  - destruct s as [|c s]; [reflexivity|].
    destruct (p c); [|reflexivity]. apply Hk. split; simpl; lia.
  - apply IH1; [assumption | assumption|].
    intros pos' s' cs' [Hle Hsum]. apply IH2; [lia | lia|].
    intros pos'' s'' cs'' [Hle' Hsum']. apply Hk. split; lia.
  - apply (star_loop_fuel _ _ k1 k2 pos s).
    + intros pos1 s1 cs1 c1 c2 [Hle Hsum] Hc. apply IH; [lia | lia | exact Hc].
    + exact Hk.
    + split; lia.
    + assumption.
    + assumption.
  - apply IH; [assumption | assumption|].
    intros pos' s' cs' Hl. now apply Hk.
  - destruct (Nat.eqb pos 0); [|reflexivity]. apply Hk. split; lia.
  - destruct s; [|reflexivity]. apply Hk. split; lia.
Qed.

(** [match_at] gives the matcher enough fuel. *)
Lemma match_at_fuel (r : regex) (fuel pos : nat) (s : string) :
  (String.length s < fuel)%nat ->
  m r fuel pos s [] (fun pos' _ cs => Some (pos', cs)) = match_at r pos s.
Proof.
  intros H. unfold match_at. apply m_fuel; [assumption | lia | reflexivity].
Qed.

End RegexFacts.

(** ** The cache *)

Module CacheFacts.

Import Cache.

Section Facts.
Context {T : Type}.
Implicit Types (m : JsMap T) (c : CacheManager T).

Lemma map_delete_length m key :
  (List.length (map_delete key m) <= List.length m)%nat.
Proof. unfold map_delete. apply filter_length_le. Qed.

Lemma map_delete_get m key : map_get key (map_delete key m) = None.
Proof.
  induction m as [|[k e] m IH]; simpl; [reflexivity|].
  destruct (String.eqb k key) eqn:E; simpl; [exact IH|].
  now rewrite E.
Qed.

Lemma map_delete_head m k e :
  (List.length (map_delete k ((k, e) :: m)) <= List.length m)%nat.
Proof.
  unfold map_delete. simpl. rewrite String.eqb_refl. simpl.
  apply filter_length_le.
Qed.

Lemma map_set_length m key e :
  (List.length (map_set key e m) <= S (List.length m))%nat.
Proof.
  induction m as [|[k e'] m IH]; simpl; [lia|].
  destruct (String.eqb k key); simpl; lia.
Qed.

Lemma map_set_get m key e : map_get key (map_set key e m) = Some e.
Proof.
  induction m as [|[k e'] m IH]; simpl.
  - now rewrite String.eqb_refl.
  - destruct (String.eqb k key) eqn:E; simpl; now rewrite E.
Qed.

Lemma map_set_fresh m key e :
  map_get key m = None -> map_set key e m = (m ++ [(key, e)])%list.
Proof.
  induction m as [|[k e'] m IH]; simpl; [reflexivity|].
  destruct (String.eqb k key); [discriminate|].
  intros H. now rewrite IH.
Qed.

Lemma map_delete_absent m key :
  ~ In key (map fst m) -> map_delete key m = m.
Proof.
  induction m as [|[k e] m IH]; simpl; intros H; [reflexivity|].
  unfold map_delete in *. simpl.
  destruct (String.eqb k key) eqn:E.
  - apply String.eqb_eq in E. tauto.
  - simpl. f_equal. apply IH. tauto.
Qed.

Lemma keys_truthy_delete m key : keys_truthy m -> keys_truthy (map_delete key m).
Proof.
  unfold keys_truthy, map_delete. rewrite !Forall_forall.
  intros H b Hb. apply filter_In in Hb. now apply H.
Qed.

Lemma keys_truthy_set m key e :
  JsString.truthy key = true -> keys_truthy m -> keys_truthy (map_set key e m).
Proof.
  intros Hk. induction m as [|[k e'] m IH]; simpl; intros H.
  - constructor; [exact Hk | constructor].
  - inversion H as [|b m' Hb Hm]; subst.
    destruct (String.eqb k key); constructor; try assumption.
    now apply IH.
Qed.

Lemma fold_delete_length (ks : list string) m :
  (List.length (fold_left (fun m k => map_delete k m) ks m) <= List.length m)%nat.
Proof.
  revert m; induction ks as [|k ks IH]; intros m; simpl; [lia|].
  etransitivity; [apply IH | apply map_delete_length].
Qed.

Lemma fold_delete_truthy (ks : list string) m :
  keys_truthy m -> keys_truthy (fold_left (fun m k => map_delete k m) ks m).
Proof.
  revert m; induction ks as [|k ks IH]; intros m H; simpl; [exact H|].
  apply IH. now apply keys_truthy_delete.
Qed.

Lemma evict_room c :
  1 <= maxSize (options c) -> bounded c ->
  map_size (evict_if_full c) <= maxSize (options c) - 1 /\
  keys_truthy (evict_if_full c).
Proof.
  intros Hmax [Hsz Hk]. unfold evict_if_full. unfold size in Hsz.
  destruct (map_size (cache c) >=? maxSize (options c)) eqn:E.
  - destruct (cache c) as [|[k e] m] eqn:Ec.
    + rewrite Z.geb_leb in E. apply Z.leb_le in E.
      unfold map_size in E. cbn [List.length] in E. lia.
    + cbn [map_first_key]. inversion Hk as [|b m' Hb Hm]; subst.
      cbn [fst] in Hb. rewrite Hb. split.
      * pose proof (map_delete_head m k e) as Hd.
        unfold map_size in *. cbn [List.length] in Hsz. lia.
      * apply keys_truthy_delete. exact Hk.
  - split; [|exact Hk]. rewrite Z.geb_leb in E. apply Z.leb_gt in E. lia.
Qed.

Lemma bounded_step c (o : op) :
  1 <= maxSize (options c) ->
  match set_key o with Some k => JsString.truthy k = true | None => True end ->
  bounded c ->
  bounded (step c o) /\ options (step c o) = options c.
Proof.
  intros Hmax Hkey Hb. pose proof Hb as [Hsz Hk].
  unfold bounded, size, map_size in *.
  destruct o as [now key|now key v t|now key|key| |now]; simpl in *.
  - unfold get. destruct (map_get key (cache c)) as [e|]; simpl; auto.
    destruct (now - timestamp e >? ttl e); simpl; auto.
    repeat split; [|now apply keys_truthy_delete].
    pose proof (map_delete_length (cache c) key). lia.
  - destruct (evict_room c Hmax Hb) as [Hr Ht].
    unfold set, map_size in *. simpl. repeat split.
    + pose proof (map_set_length (evict_if_full c) key
                    (mkEntry v now
                       match t with Some t0 => t0 | None => opt_ttl (options c) end)).
      lia.
    + now apply keys_truthy_set.
  - unfold has, get. destruct (map_get key (cache c)) as [e|]; simpl; auto.
    destruct (now - timestamp e >? ttl e); simpl; auto.
    repeat split; [|now apply keys_truthy_delete].
    pose proof (map_delete_length (cache c) key). lia.
  - repeat split; [|now apply keys_truthy_delete].
    pose proof (map_delete_length (cache c) key). lia.
  - repeat split; [simpl; lia | constructor].
  - repeat split; [|now apply fold_delete_truthy].
    match goal with
    | |- context [fold_left _ ?ks _] =>
        pose proof (fold_delete_length ks (cache c))
    end. lia.
Qed.

(** With a capacity of at least one and no empty key, no sequence of
    calls stores more than [maxSize] entries. *)
Lemma size_bounded (ops : list op) c :
  1 <= maxSize (options c) ->
  Forall (fun o => match set_key o with
                   | Some k => JsString.truthy k = true
                   | None => True
                   end) ops ->
  bounded c ->
  size (run c ops) <= maxSize (options c).
Proof.
  revert c; induction ops as [|o ops IH]; intros c Hmax Hops Hb.
  - exact (proj1 Hb).
  - inversion Hops; subst. simpl.
    destruct (bounded_step c o Hmax H1 Hb) as [Hb' Ho].
    unfold run in IH. rewrite <- Ho. apply IH; [now rewrite Ho | assumption | assumption].
Qed.

(** A [set] of a new key into a full cache drops exactly the oldest
    entry, provided its key is not the empty string. *)
Lemma set_evicts_oldest c now key value customTtl k0 e0 rest :
  cache c = (k0, e0) :: rest ->
  map_wf (cache c) ->
  size c >= maxSize (options c) ->
  JsString.truthy k0 = true ->
  map_get key rest = None ->
  cache (set c now key value customTtl) =
    (rest ++ [(key, mkEntry value now
                      match customTtl with
                      | Some t => t
                      | None => opt_ttl (options c)
                      end)])%list.
Proof.
  intros Ec Hwf Hfull Hk0 Hfresh. unfold set, evict_if_full, size in *. simpl.
  destruct (map_size (cache c) >=? maxSize (options c)) eqn:E.
  2:{ rewrite Z.geb_leb in E. apply Z.leb_gt in E. lia. }
  rewrite Ec in *. simpl. rewrite Hk0.
  unfold map_wf in Hwf. simpl in Hwf. inversion Hwf; subst.
  unfold map_delete at 1. simpl. rewrite String.eqb_refl. simpl.
  fold (map_delete k0 rest). rewrite (map_delete_absent rest k0) by assumption.
  now apply map_set_fresh.
Qed.

End Facts.

End CacheFacts.

Module CacheSpec.

Import Cache Examples.

(** C5.  For a stored entry, [get(key)] returns absence and deletes
    the entry once [now - timestamp] exceeds the entry's [ttl];
    otherwise it returns exactly the stored value and leaves the cache
    as it is.  [get] is a total function: no call throws. *)
Theorem get_expires_or_returns_value :
  forall (T : Type) (c : CacheManager T) (now : Z) (key : string)
         (entry : CacheEntry T),
    map_get key (cache c) = Some entry ->
    (now - timestamp entry > ttl entry ->
       get c now key = (None, with_cache c (map_delete key (cache c))) /\
       map_get key (cache (snd (get c now key))) = None) /\
    (now - timestamp entry <= ttl entry ->
       get c now key = (Some (data entry), c)).
Proof.
  intros T c now key entry Hget. unfold get. rewrite Hget. split.
  - intros Hexp.
    replace (now - timestamp entry >? ttl entry) with true
      by (symmetry; apply Z.gtb_lt; lia).
    split; [reflexivity|]. simpl. apply CacheFacts.map_delete_get.
  - intros Hlive.
    replace (now - timestamp entry >? ttl entry) with false
      by (symmetry; rewrite Z.gtb_ltb; apply Z.ltb_ge; lia).
    reflexivity.
Qed.

(** The entry written at time 1000 with a ttl of 50 is returned at time
    1050 and is gone at time 1051. *)
Lemma get_expires_or_returns_value_witness :
  get one_entry 1050 "k" = (Some 7, one_entry) /\
  get one_entry 1051 "k" = (None, with_cache one_entry []) /\
  map_get "k" (cache (snd (get one_entry 1051 "k"))) = None.
Proof.
  pose proof (get_expires_or_returns_value Z one_entry 1050 "k"
                (mkEntry 7 1000 50) eq_refl) as [_ Hlive].
  pose proof (get_expires_or_returns_value Z one_entry 1051 "k"
                (mkEntry 7 1000 50) eq_refl) as [Hexp _].
  split; [apply Hlive; simpl; lia|].
  apply Hexp. simpl. lia.
Defined.

(** C4, at the input on which the capacity bound breaks.  The eviction
    step tests [if (oldestKey)], and the empty string is falsy: with a
    capacity of one, a [set] of the empty key followed by a [set] of
    another key leaves two entries in the cache. *)
Theorem set_keeps_empty_oldest_key :
  size (run tiny [OpSet 0 EmptyString 1 None; OpSet 1 "a" 2 None]) = 2 /\
  maxSize (options (run tiny [OpSet 0 EmptyString 1 None; OpSet 1 "a" 2 None])) = 1 /\
  map fst (cache (run tiny [OpSet 0 EmptyString 1 None; OpSet 1 "a" 2 None]))
    = [EmptyString; "a"].
Proof. repeat split. Qed.

(** C10.  [generateKey] is not injective.  An [undefined] argument is
    dropped before the join, and an argument that contains the
    delimiter reads like two arguments.  In the JavaScript engine two
    different validation requests therefore get one key, and the
    second is served the outcome cached for the first although its own
    outcome differs. *)
Theorem generateKey_not_injective :
  (exists p q : list part, p <> q /\ generateKey p = generateKey q) /\
  (generateKey [PStr "a"; PUndefined; PStr "b"] = generateKey [PStr "a"; PStr "b"]) /\
  (generateKey [PStr "a:b"; PStr "c"] = generateKey [PStr "a"; PStr "b:c"]) /\
  (pad_elsewhere <> pad_in_x /\
   JavaScript.validate_key pad_elsewhere = JavaScript.validate_key pad_in_x /\
   JavaScript.validate leftpad_js pad_elsewhere <> JavaScript.validate leftpad_js pad_in_x /\
   Types.valid (JavaScript.validate leftpad_js pad_in_x) = true /\
   fst (JavaScript.validateImport leftpad_js 1
          (snd (JavaScript.validateImport leftpad_js 0 empty_store pad_elsewhere))
          pad_in_x)
     = Types.AValidation (JavaScript.validate leftpad_js pad_elsewhere)).
Proof.
  split; [|split; [|split]].
  - exists [PStr "a"; PUndefined; PStr "b"], [PStr "a"; PStr "b"].
    split; [discriminate | reflexivity].
  - reflexivity.
  - reflexivity.
  - split; [discriminate|].
    split; [vm_compute; reflexivity|].
    split; [vm_compute; discriminate|].
    split; vm_compute; reflexivity.
Qed.

End CacheSpec.

(** ** The relevance scorer *)

Module ScoreSpec.

Import Types SemanticSearch.

(** A loop that adds a contribution per element computes the sum of the
    contributions on top of the initial score. *)
Lemma fold_adds {A : Type} (F : Z -> A -> Z) (g : A -> Z) (l : list A) :
  (forall acc x, F acc x = acc + g x) ->
  forall init, fold_left F l init = init + sum_over g l.
Proof.
  intros HF. induction l as [|x l IH]; intros init; simpl.
  - lia.
  - rewrite IH, HF. lia.
Qed.

Lemma filter_count {A : Type} (f : A -> bool) (l : list A) :
  List.length (filter f l) = count_occ bool_dec (map f l) true.
Proof.
  induction l as [|x l IH]; simpl; [reflexivity|].
  destruct (f x); simpl.
  - destruct (bool_dec true true) as [_|n]; [now rewrite IH | now elim n].
  - destruct (bool_dec false true) as [e|_]; [discriminate | exact IH].
Qed.

Lemma filter_positive {A : Type} (f : A -> bool) (l : list A) :
  (Z.of_nat (List.length (filter f l)) >? 0) = existsb f l.
Proof.
  induction l as [|x l IH]; simpl; [reflexivity|].
  destruct (f x); simpl; [|exact IH].
  apply Z.gtb_lt. lia.
Qed.

(** C7.  The score is a function of the query and the record alone, and
    its value is the additive formula: 100 for an exact match of the
    lowered name, 50 for containment either way between query and name,
    30 and 20 per query word found in the name and in a word of the
    description, for each category the number of its keywords found in
    query, name or description times 10 times the category weight, and
    40 for each functionality phrase found in the query whose package
    list holds the name. *)
Theorem score_is_additive_formula :
  forall (query : string) (record : PackageInfo),
    calculateSemanticScore query record = reference_score query record.
Proof.
  intros query record. unfold calculateSemanticScore, reference_score.
  set (q := JsString.toLowerCase query).
  set (n := JsString.toLowerCase (name record)).
  set (d := JsString.toLowerCase (description_or_empty record)).
  rewrite (fold_adds _
             (fun phrase =>
                bonus (JsString.includes q (fst phrase) &&
                       JsString.array_includes (snd phrase) n) 40)).
  2:{ intros acc x. unfold bonus.
      destruct (JsString.includes q (fst x)),
               (JsString.array_includes (snd x) n); simpl; lia. }
  rewrite (fold_adds _
             (fun c =>
                bonus (existsb (contains_keyword q n d) (keywords c))
                      (matchingKeywordCount q n d c * 10 * weight c))).
  2:{ intros acc c. unfold bonus, matchingKeywordCount, contains_keyword.
      rewrite filter_positive, <- filter_count.
      destruct (existsb _ (keywords c)); lia. }
  rewrite (fold_adds _
             (fun word =>
                bonus (JsString.includes n word) 30
                + bonus (existsb (fun dword => JsString.includes dword word)
                                 (JsString.split_ws d)) 20)).
  2:{ intros acc w. unfold bonus.
      destruct (JsString.includes n w), (existsb _ (JsString.split_ws d)); lia. }
  unfold bonus.
  destruct (String.eqb n q), (JsString.includes n q || JsString.includes q n); lia.
Qed.

End ScoreSpec.

(** ** The shared store of the engines *)

Module StoreFacts.

Import Types Common Factory Vocabulary.

Lemma get_of_delete {T : Type} (m : Cache.JsMap T) (key key' : string)
      (e : Cache.CacheEntry T) :
  Cache.map_get key' (Cache.map_delete key m) = Some e -> Cache.map_get key' m = Some e.
Proof.
  destruct (String.eqb key key') eqn:E.
  - apply String.eqb_eq in E. subst key'. now rewrite CacheFacts.map_delete_get.
  - unfold Cache.map_delete.
    induction m as [|[k e0] m IH]; cbn [filter fst Cache.map_get]; [discriminate|].
    destruct (String.eqb k key) eqn:Ek; cbn [negb Cache.map_get].
    + apply String.eqb_eq in Ek. subst k. rewrite E. exact IH.
    + destruct (String.eqb k key'); [trivial | exact IH].
Qed.

Lemma get_of_set {T : Type} (m : Cache.JsMap T) (key key' : string)
      (e0 e : Cache.CacheEntry T) :
  Cache.map_get key' (Cache.map_set key e0 m) = Some e ->
  (key' = key /\ e = e0) \/ Cache.map_get key' m = Some e.
Proof.
  induction m as [|[k e1] m IH]; cbn [Cache.map_set Cache.map_get].
  - destruct (String.eqb key key') eqn:E; [|discriminate].
    apply String.eqb_eq in E. intros [= <-]. left. now split.
  - destruct (String.eqb k key) eqn:E; cbn [Cache.map_get].
    + apply String.eqb_eq in E. subst k.
      destruct (String.eqb key key') eqn:E'; [|now right].
      apply String.eqb_eq in E'. intros [= <-]. left. now split.
    + destruct (String.eqb k key'); [now right | exact IH].
Qed.

Lemma get_of_evict {T : Type} (c : Cache.CacheManager T) (key : string)
      (e : Cache.CacheEntry T) :
  Cache.map_get key (Cache.evict_if_full c) = Some e ->
  Cache.map_get key (Cache.cache c) = Some e.
Proof.
  unfold Cache.evict_if_full. destruct (_ >=? _); [|trivial].
  destruct (Cache.map_first_key (Cache.cache c)) as [k|]; [|trivial].
  destruct (JsString.truthy k); [apply get_of_delete | trivial].
Qed.

Lemma validated_get (c : Store) (now : Z) (key : string) :
  validated c -> validated (snd (Cache.get c now key)).
Proof.
  intros H. unfold Cache.get.
  destruct (Cache.map_get key (Cache.cache c)) as [e|]; [|exact H].
  destruct (_ >? _); [|exact H].
  intros k e' He'. cbn [snd Cache.cache Cache.with_cache] in He'.
  apply get_of_delete in He'. now apply (H k).
Qed.

(** A live entry is an entry of the store. *)
Lemma get_hit (c : Store) (now : Z) (key : string) (value : Any) :
  fst (Cache.get c now key) = Some value ->
  exists e, Cache.map_get key (Cache.cache c) = Some e /\ Cache.data e = value.
Proof.
  unfold Cache.get. destruct (Cache.map_get key (Cache.cache c)) as [e|]; [|discriminate].
  destruct (_ >? _); [discriminate|]. intros [= <-]. now exists e.
Qed.

Lemma validated_set (c : Store) (now : Z) (key : string) (value : Any)
      (customTtl : option Z) :
  validated c -> fits key value -> validated (Cache.set c now key value customTtl).
Proof.
  intros H Hfit k e He. cbn [Cache.set Cache.cache Cache.with_cache] in He.
  apply get_of_set in He as [[-> ->]|He]; [exact Hfit|].
  apply get_of_evict in He. now apply (H k).
Qed.

Lemma validated_cleanup (c : Store) (now : Z) : validated c -> validated (Cache.cleanup c now).
Proof.
  intros H k e He. cbn [Cache.cleanup Cache.cache Cache.with_cache] in He.
  apply (H k). revert He.
  generalize (map fst (filter (fun b => now - Cache.timestamp (snd b) >? Cache.ttl (snd b))
                              (Cache.cache c))).
  intros ks. generalize (Cache.cache c). induction ks as [|k0 ks IH]; intros m; cbn [fold_left].
  - trivial.
  - intros He. apply IH in He. now apply get_of_delete in He.
Qed.

Lemma get_options {T : Type} (c : Cache.CacheManager T) (now : Z) (key : string) :
  Cache.options (snd (Cache.get c now key)) = Cache.options c.
Proof.
  unfold Cache.get. destruct (Cache.map_get key (Cache.cache c)) as [e|]; [|reflexivity].
  now destruct (_ >? _).
Qed.

Lemma read_through_options (key : string) (compute : Store -> Any * Store)
      (now : Z) (c : Store) :
  (forall c', Cache.options (snd (compute c')) = Cache.options c') ->
  Cache.options (snd (read_through key compute now c)) = Cache.options c.
Proof.
  intros Hc. unfold read_through.
  pose proof (get_options c now key) as Hg.
  destruct (Cache.get c now key) as [[cached|] c']; cbn [snd] in *; [exact Hg|].
  specialize (Hc c'). destruct (compute c') as [result c'']. cbn [snd] in *.
  unfold remember. cbn [snd Cache.set Cache.with_cache Cache.options]. congruence.
Qed.

Lemma read_through_validated (key : string) (compute : Store -> Any * Store)
      (now : Z) (c : Store) :
  (forall c', validated c' -> validated (snd (compute c')) /\ fits key (fst (compute c'))) ->
  validated c -> validated (snd (read_through key compute now c)).
Proof.
  intros Hc H. unfold read_through.
  pose proof (validated_get c now key H) as Hg.
  destruct (Cache.get c now key) as [[cached|] c']; cbn [snd] in *; [exact Hg|].
  destruct (Hc c' Hg) as [H1 H2]. destruct (compute c') as [result c'']. cbn [fst snd] in *.
  unfold remember. cbn [snd]. now apply validated_set.
Qed.

(** What [read_through] returns is the result of the computation or the
    data of a live entry that the store holds under the key. *)
Lemma read_through_result (key : string) (compute : Store -> Any * Store)
      (now : Z) (c : Store) :
  (fst (Cache.get c now key) = None /\
   fst (read_through key compute now c)
   = fst (compute (snd (Cache.get c now key)))) \/
  (exists e, Cache.map_get key (Cache.cache c) = Some e /\
             fst (Cache.get c now key) = Some (Cache.data e) /\
             fst (read_through key compute now c) = Cache.data e).
Proof.
  unfold read_through. destruct (Cache.get c now key) as [[cached|] c'] eqn:E.
  - right. destruct (get_hit c now key cached) as (e & He & Hd); [now rewrite E|].
    exists e. cbn [fst]. subst cached. now repeat split.
  - left. cbn [fst snd]. split; [reflexivity|].
    now destruct (compute c') as [result c''].
Qed.

(** The keys of the validation requests of the four engines that keep a
    registry of their own. *)
Lemma validate_key_text (l : Language) (input : ValidateImportInput) :
  l <> javascript ->
  validate_key l input
  = match l with
    | javascript => EmptyString
    | python => "validate_python:"
    | rust => "validate_rust:"
    | go => "validate_go:"
    | java => "validate_java:"
    end ++ importStatement input.
Proof. destruct l; [congruence | reflexivity..]. Qed.

(** These engines read the import statement only. *)
Lemma validate_reads_statement (ws : Worlds) (l : Language)
      (input input' : ValidateImportInput) :
  l <> javascript -> importStatement input = importStatement input' ->
  validate ws l input = validate ws l input'.
Proof.
  intros Hl H. destruct l; [congruence| | | |]; cbn [validate];
    unfold Python.validate, Rust.validate, Go.validate, Java.validate; now rewrite H.
Qed.

(** The key of a request is the key of a validation request of one of
    these engines only if it is such a request for the same statement. *)
Lemma validate_key_owner (l0 l : Language) (r : Request) (input : ValidateImportInput) :
  l <> javascript ->
  request_key l0 r = validate_key l input ->
  l0 = l /\ exists input0, r = Validate input0 /\
                           importStatement input0 = importStatement input.
Proof.
  intros Hl H. rewrite (validate_key_text l input Hl) in H.
  destruct r as [d|v|i|s].
  - exfalso. destruct d as [lang [t|] b n];
      destruct l0, l; try congruence; revert H;
        cbn [request_key]; unfold JavaScript.discover_key, Python.discover_key,
          Rust.discover_key, Go.discover_key, Java.discover_key, Cache.generateKey;
        cbn; discriminate.
  - destruct l0.
    + exfalso. destruct v as [stmt lang [p|]]; destruct l; try congruence; revert H;
        cbn [request_key validate_key]; unfold JavaScript.validate_key, Cache.generateKey;
        cbn; discriminate.
    + destruct l; try congruence; try (exfalso; revert H; cbn; discriminate).
      split; [reflexivity|]. exists v. split; [reflexivity|].
      now apply (JsStringFacts.append_inj_l "validate_python:") in H.
    + destruct l; try congruence; try (exfalso; revert H; cbn; discriminate).
      split; [reflexivity|]. exists v. split; [reflexivity|].
      now apply (JsStringFacts.append_inj_l "validate_rust:") in H.
    + destruct l; try congruence; try (exfalso; revert H; cbn; discriminate).
      split; [reflexivity|]. exists v. split; [reflexivity|].
      now apply (JsStringFacts.append_inj_l "validate_go:") in H.
    + destruct l; try congruence; try (exfalso; revert H; cbn; discriminate).
      split; [reflexivity|]. exists v. split; [reflexivity|].
      now apply (JsStringFacts.append_inj_l "validate_java:") in H.
  - exfalso. destruct l0, l; try congruence; revert H;
      cbn [request_key introspect_key]; unfold JavaScript.introspect_key,
        Python.introspect_key, Rust.introspect_key, Go.introspect_key,
        Java.introspect_key, Cache.generateKey;
      cbn; discriminate.
  - exfalso. destruct l0, l; try congruence; revert H;
      cbn [request_key]; unfold JavaScript.search_key, Python.discover_key,
        Rust.discover_key, Go.discover_key, Java.discover_key, Cache.generateKey;
      cbn; discriminate.
Qed.

Lemma fits_other (l0 : Language) (r : Request) (value : Any) :
  (forall input, r <> Validate input) -> fits (request_key l0 r) value.
Proof.
  intros Hr l input Hl H. exfalso.
  destruct (validate_key_owner l0 l r input Hl H) as (_ & input0 & -> & _).
  now apply (Hr input0).
Qed.

Lemma fits_javascript (r : Request) (value : Any) : fits (request_key javascript r) value.
Proof.
  intros l input Hl H. exfalso.
  destruct (validate_key_owner javascript l r input Hl H) as [<- _]. congruence.
Qed.

Lemma fits_validation (ws : Worlds) (l0 : Language) (input0 : ValidateImportInput) :
  fits (request_key l0 (Validate input0)) (AValidation (validate ws l0 input0)).
Proof.
  intros l input Hl H.
  destruct (validate_key_owner l0 l _ input Hl H) as (-> & input1 & [= <-] & Hs).
  exists ws. f_equal. now apply validate_reads_statement.
Qed.

(** Every method of every engine reads through the cache under the key
    of the request; what it computes on a miss fits the key, and the
    computation keeps the options of the store and the fit of its
    entries. *)
Lemma call_is_read_through (ws : Worlds) (l : Language) (r : Request) :
  exists compute : Z -> Store -> Any * Store,
    (forall now c, call (engine ws l) now c r
                   = read_through (request_key l r) (compute now) now c) /\
    (forall now c, Cache.options (snd (compute now c)) = Cache.options c) /\
    (forall now c, validated c ->
                   validated (snd (compute now c)) /\
                   fits (request_key l r) (fst (compute now c))) /\
    (forall input, r = Validate input ->
                   forall now c, fst (compute now c) = AValidation (validate ws l input)).
Proof.
  destruct r as [input|input|input|input].
  - exists (fun now c => (ADiscovery (discover ws l now input), c)).
    split; [intros now c; destruct l; reflexivity|].
    split; [reflexivity|]. split; [|discriminate].
    intros now c H. split; [exact H|]. apply fits_other. discriminate.
  - exists (fun now c => (AValidation (validate ws l input), c)).
    split; [intros now c; destruct l; reflexivity|].
    split; [reflexivity|]. split; [|now intros ? [= <-]].
    intros now c H. split; [exact H|]. apply fits_validation.
  - exists (fun now c =>
              (AModule match l with
                       | javascript => JavaScript.introspect (js ws) input
                       | python => Python.introspect (py ws) input
                       | rust => Rust.introspect input
                       | go => Go.introspect input
                       | java => Java.introspect input
                       end, c)).
    split; [intros now c; destruct l; reflexivity|].
    split; [reflexivity|]. split; [|discriminate].
    intros now c H. split; [exact H|]. apply fits_other. discriminate.
  - destruct l.
    + exists (fun now c =>
                let (allPackagesResult, c) :=
                  JavaScript.discoverPackages (js ws) now c
                                              (JavaScript.all_packages_input input) in
                (ADiscovery (JavaScript.rank now input (packages_of allPackagesResult)), c)).
      assert (Hinner : forall now c,
                 JavaScript.discoverPackages (js ws) now c
                                             (JavaScript.all_packages_input input)
                 = read_through
                     (request_key javascript (Discover (JavaScript.all_packages_input input)))
                     (fun c => (ADiscovery (JavaScript.discover
                                              (js ws) now
                                              (JavaScript.all_packages_input input)), c))
                     now c) by reflexivity.
      split; [|split; [|split; [|discriminate]]].
      * intros now c. cbn [call engine searchAffordances request_key].
        unfold JavaScript.searchAffordances, read_through.
        destruct (Cache.get c now (JavaScript.search_key input)) as [[cached|] c'];
          [reflexivity|].
        now destruct (JavaScript.discoverPackages _ _ _ _).
      * intros now c.
        pose proof (read_through_options
                      (request_key javascript
                                   (Discover (JavaScript.all_packages_input input)))
                      (fun c => (ADiscovery (JavaScript.discover
                                               (js ws) now
                                               (JavaScript.all_packages_input input)), c))
                      now c (fun _ => eq_refl)) as H.
        rewrite <- Hinner in H.
        now destruct (JavaScript.discoverPackages _ _ _ _).
      * intros now c Hv.
        pose proof (read_through_validated
                      (request_key javascript
                                   (Discover (JavaScript.all_packages_input input)))
                      (fun c => (ADiscovery (JavaScript.discover
                                               (js ws) now
                                               (JavaScript.all_packages_input input)), c))
                      now c) as H.
        rewrite <- Hinner in H.
        destruct (JavaScript.discoverPackages _ _ _ _) as [a c'].
        cbn [fst snd] in *. split; [|apply fits_javascript].
        apply H; [|exact Hv]. intros c0 H0. split; [exact H0 | apply fits_javascript].
    + exists (fun now c => (ADiscovery (discover ws python now (delegated input)), c)).
      split; [reflexivity|]. split; [reflexivity|]. split; [|discriminate].
      intros now c H. split; [exact H|]. apply fits_other. discriminate.
    + exists (fun now c => (ADiscovery (discover ws rust now (delegated input)), c)).
      split; [reflexivity|]. split; [reflexivity|]. split; [|discriminate].
      intros now c H. split; [exact H|]. apply fits_other. discriminate.
    + exists (fun now c => (ADiscovery (discover ws go now (delegated input)), c)).
      split; [reflexivity|]. split; [reflexivity|]. split; [|discriminate].
      intros now c H. split; [exact H|]. apply fits_other. discriminate.
    + exists (fun now c => (ADiscovery (discover ws java now (delegated input)), c)).
      split; [reflexivity|]. split; [reflexivity|]. split; [|discriminate].
      intros now c H. split; [exact H|]. apply fits_other. discriminate.
Qed.

(** In every state that the server can reach, an entry under the key of
    a validation request of the Python, Rust, Go or Java engine holds an
    outcome of that request. *)
Lemma reachable_validated (c : Store) : reachable c -> validated c.
Proof.
  induction 1 as [options|ws l now c r _ IH|now c _ IH].
  - intros key e He. discriminate.
  - destruct (call_is_read_through ws l r) as (compute & Hcall & _ & Hfit & _).
    rewrite Hcall. apply read_through_validated; [|exact IH].
    intros c' Hc'. now apply Hfit.
  - now apply validated_cleanup.
Qed.

(** What [validateImport] answers is an outcome of the request: the one
    it computes when the key has no live entry, and in a reachable store
    of the Python, Rust, Go or Java engine also the one it finds. *)
Lemma validateImport_outcome (ws : Worlds) (l : Language) (now : Z) (c : Store)
      (input : ValidateImportInput) :
  fst (Cache.get c now (validate_key l input)) = None \/
  (l <> javascript /\ reachable c) ->
  exists ws' : Worlds,
    fst (validateImport (engine ws l) now c input) = AValidation (validate ws' l input).
Proof.
  intros H.
  destruct (call_is_read_through ws l (Validate input)) as (compute & Hcall & _ & _ & Hv).
  change (validateImport (engine ws l) now c input)
    with (call (engine ws l) now c (Validate input)).
  rewrite Hcall.
  destruct (read_through_result (request_key l (Validate input)) (compute now) now c)
    as [[_ ->]|(e & He & Hlive & ->)].
  - exists ws. now apply Hv.
  - destruct H as [Hmiss|[Hl Hreach]].
    + cbn [request_key] in Hlive. rewrite Hmiss in Hlive. discriminate.
    + apply (reachable_validated c Hreach _ e He l input Hl). reflexivity.
Qed.

End StoreFacts.

(** ** Validation and suggestions *)

Module ValidationSpec.

Import Types Common Factory Examples Vocabulary.

Lemma registry_names_truthy (l : Language) (pkg : string) :
  set_has (registry l) pkg = true -> JsString.truthy pkg = true.
Proof.
  intros H. apply JsStringFacts.array_includes_In in H.
  assert (F : forallb JsString.truthy (registry l) = true)
    by (destruct l; vm_compute; reflexivity).
  rewrite forallb_forall in F. now apply F.
Qed.

(** Closes the goal once the registry test has been rewritten to [true]:
    the outcome is the literal record of the registry branch. *)
Ltac registry_outcome :=
  cbn [negb orb];
  eexists; eexists; split; [reflexivity|];
  cbn [valid packageName reason suggestions];
  repeat (split; [reflexivity|]); split; [discriminate | reflexivity].

(** C1.  When the extracted identifier is in the standard-library set of
    the ecosystem, [validateImport] answers valid with a non-empty
    informational reason and without suggestions.  The test comes before
    the look at the manifest or at the installed packages: the answer is
    the same in every state of the project.  This is what the engine
    computes when the key of the request has no live entry, and in the
    Python, Rust, Go and Java engines also what it finds in the cache,
    in every state that the store of the server can reach. *)
Theorem stdlib_import_is_valid :
  forall (ws : Worlds) (l : Language) (now : Z) (c : Store)
         (input : ValidateImportInput) (pkg : string),
    extractPackageNameFromImport l (importStatement input) = Some pkg ->
    set_has (registry l) pkg = true ->
    fst (Cache.get c now (validate_key l input)) = None \/
    (l <> javascript /\ reachable c) ->
    exists (r : ValidationResult) (text : string),
      fst (validateImport (engine ws l) now c input) = AValidation r /\
      valid r = true /\ packageName r = pkg /\
      reason r = Some text /\ text <> EmptyString /\ suggestions r = None.
Proof.
  intros ws l now c input pkg Hex Hstd Hstore.
  destruct (StoreFacts.validateImport_outcome ws l now c input Hstore) as [ws' ->].
  pose proof (registry_names_truthy l pkg Hstd) as Htruthy.
  destruct l;
    cbv beta iota delta [extractPackageNameFromImport] in Hex;
    cbv beta iota delta [registry] in Hstd;
    cbn [validate].
  - unfold JavaScript.validate. rewrite Hex, Htruthy. cbn [negb].
    unfold JavaScript.checkPackageExists, Builtin.isNodeBuiltinModule.
    rewrite Hstd. eexists; eexists.
    split; [reflexivity|]. cbn [valid packageName reason suggestions].
    split; [reflexivity|]. split; [reflexivity|]. split; [reflexivity|].
    split; [|reflexivity]. cbn [append]. discriminate.
  - unfold Python.validate. rewrite Hex, Htruthy, Hstd. registry_outcome.
  - unfold Rust.validate, Rust.isStandardLibraryModule.
    rewrite Hex, Htruthy, Hstd. registry_outcome.
  - unfold Go.validate. rewrite Hex, Htruthy, Hstd. registry_outcome.
  - unfold Java.validate, Java.isStandardLibraryPackage.
    rewrite Hex, Htruthy, Hstd. registry_outcome.
Qed.

(** [import os] in a Python project, asked a second time for another
    project path: the answer comes from the cache. *)
Lemma stdlib_import_is_valid_witness :
  exists (r : ValidationResult) (text : string),
    fst (validateImport (engine worlds python) 1
           (snd (call (engine worlds python) 0 (Cache.create server_options)
                      (Validate os_in_a)))
           os_in_b) = AValidation r /\
    valid r = true /\ packageName r = "os" /\
    reason r = Some text /\ text <> EmptyString /\ suggestions r = None.
Proof.
  apply (stdlib_import_is_valid worlds python 1 _ os_in_b "os").
  - vm_compute. reflexivity.
  - vm_compute. reflexivity.
  - right. split; [discriminate|]. apply reach_call, reach_create.
Defined.

(** C1 as stated fails in the JavaScript engine: [require('fs')] names
    a built-in module, but its key is also the key of an earlier request
    for the package [nope], and the answer is the outcome stored for
    that request. *)
Lemma stdlib_import_is_answered_invalid :
  extractPackageNameFromImport javascript (importStatement fs_second) = Some "fs" /\
  set_has (registry javascript) "fs" = true /\
  fst (validateImport (engine worlds javascript) 1
         (snd (validateImport (engine worlds javascript) 0 empty_store nope_first))
         fs_second)
  = AValidation (mkValidation false "nope" None
                              (Some "Package 'nope' is not installed or available")
                              (Some [])).
Proof. vm_compute. repeat split. Qed.

Lemma first_group_none (statement : string) (patterns : list Regex.regex) :
  Forall (fun pattern => Regex.str_match statement pattern = None) patterns ->
  first_group statement patterns = None.
Proof.
  induction 1 as [|pattern rest Hp _ IH]; simpl; [reflexivity|].
  now rewrite Hp.
Qed.

Lemma first_match_none (statement : string) (patterns : list Regex.regex) :
  Forall (fun pattern => Regex.str_match statement pattern = None) patterns ->
  first_match statement patterns = None.
Proof.
  induction 1 as [|pattern rest Hp _ IH]; simpl; [reflexivity|].
  now rewrite Hp.
Qed.

(** C2.  When no pattern of the extractor matches the statement,
    [validateImport] returns the parse-failure outcome: not valid, the
    package name [unknown], a could-not-parse reason and an empty list of
    suggestions.  The outcome is a value; nothing is thrown.  This is
    what the engine computes when the key of the request has no live
    entry, and in the Python, Rust, Go and Java engines also what it
    finds in the cache, in every state that the store of the server can
    reach. *)
Theorem unparsed_import_is_reported :
  forall (ws : Worlds) (l : Language) (now : Z) (c : Store)
         (input : ValidateImportInput),
    Forall (fun pattern => Regex.str_match (importStatement input) pattern = None)
           (patterns l) ->
    fst (Cache.get c now (validate_key l input)) = None \/
    (l <> javascript /\ reachable c) ->
    exists what : string,
      fst (validateImport (engine ws l) now c input) =
        AValidation (mkValidation false "unknown" None (Some what) (Some [])) /\
      (what = "Could not parse import statement" \/
       what = "Could not parse use statement").
Proof.
  intros ws l now c input Hno Hstore.
  destruct (StoreFacts.validateImport_outcome ws l now c input Hstore) as [ws' ->].
  destruct l; simpl in Hno; cbn [validate].
  - exists "Could not parse import statement". split; [|now left].
    unfold JavaScript.validate, JavaScript.extractPackageNameFromImport.
    now rewrite (first_group_none _ _ Hno).
  - exists "Could not parse import statement". split; [|now left].
    unfold Python.validate, Python.extractPackageNameFromImport.
    now rewrite (first_group_none _ _ Hno).
  - exists "Could not parse use statement". split; [|now right].
    unfold Rust.validate, Rust.extractPackageNameFromImport.
    now rewrite (first_group_none _ _ Hno).
  - exists "Could not parse import statement". split; [|now left].
    unfold Go.validate, Go.extractPackageNameFromImport.
    now rewrite (first_match_none _ _ Hno).
  - exists "Could not parse import statement". split; [|now left].
    unfold Java.validate, Java.extractPackageNameFromImport.
    now rewrite (first_group_none _ _ Hno).
Qed.

(** [import fs] without [from] is no JavaScript import that the engine
    knows. *)
Lemma unparsed_import_is_reported_witness :
  exists what : string,
    fst (validateImport (engine worlds javascript) 0 empty_store
           (mkValidateInput "import fs" javascript None)) =
      AValidation (mkValidation false "unknown" None (Some what) (Some [])) /\
    (what = "Could not parse import statement" \/
     what = "Could not parse use statement").
Proof.
  apply (unparsed_import_is_reported worlds javascript 0 empty_store
           (mkValidateInput "import fs" javascript None)).
  - repeat constructor.
  - left. reflexivity.
Defined.

(** C2 as stated fails in the JavaScript engine: no pattern matches
    [garbage], but the key of the request is also the key of an earlier
    request that requires [fs], and the answer is the valid outcome
    stored for that request. *)
Lemma unparsed_import_is_answered_valid :
  Forall (fun pattern => Regex.str_match (importStatement garbage_second) pattern = None)
         (patterns javascript) /\
  fst (validateImport (engine worlds javascript) 1
         (snd (validateImport (engine worlds javascript) 0 empty_store fs_first))
         garbage_second)
  = AValidation (mkValidation true "fs" None
                              (Some "Built-in Node.js module: File system operations")
                              None).
Proof. split; [repeat constructor | vm_compute; reflexivity]. Qed.

Lemma similar_spec (packageName candidate : string) :
  similar packageName candidate = true ->
  JsString.substring_of packageName candidate \/
  JsString.substring_of candidate packageName.
Proof.
  unfold similar. intros H. apply orb_true_iff in H as [H|H];
    apply JsStringFacts.includes_spec in H; [now left | now right].
Qed.

Lemma In_firstn {A : Type} (n : nat) (l : list A) (x : A) :
  In x (firstn n l) -> In x l.
Proof.
  intros H. rewrite <- (firstn_skipn n l). apply in_or_app. now left.
Qed.

(** The first names of the matches of a source come from that source
    and are similar to the identifier. *)
Lemma firstn_similar (n : nat) (packageName : string) (source : list string) :
  Forall (fun s => In s source /\
                   (JsString.substring_of packageName s \/
                    JsString.substring_of s packageName))
         (firstn n (filter (similar packageName) source)).
Proof.
  apply Forall_forall. intros s Hs. apply In_firstn in Hs.
  apply filter_In in Hs as [Hin Hsim]. split; [exact Hin|].
  now apply similar_spec.
Qed.

(** C3.  The suggestions for an identifier are at most five; they are
    matches from the names that the engine scans first, followed by
    matches from the standard-library registry; and each of them
    contains the identifier or is contained in it, code unit for code
    unit.  The names scanned first are the declared dependencies of the
    located manifest, except in the Python engine, which scans the
    installed packages. *)
Theorem suggestions_are_bounded_and_ordered :
  forall (ws : Worlds) (l : Language) (pkg : string),
    (List.length (getSimilarPackages ws l pkg) <= 5)%nat /\
    (exists fromScanned fromRegistry : list string,
        getSimilarPackages ws l pkg = (fromScanned ++ fromRegistry)%list /\
        Forall (fun s => In s (scanned ws l) /\
                         (JsString.substring_of pkg s \/ JsString.substring_of s pkg))
               fromScanned /\
        Forall (fun s => In s (registry l) /\
                         (JsString.substring_of pkg s \/ JsString.substring_of s pkg))
               fromRegistry) /\
    (l <> python -> scanned ws l = declared ws l) /\
    (l = python ->
     scanned ws l = map name (Python.getInstalledPackages (py ws)) /\
     declared ws l = []).
Proof.
  intros ws l pkg.
  assert (Hsources : (l <> python -> scanned ws l = declared ws l) /\
                     (l = python ->
                      scanned ws l = map name (Python.getInstalledPackages (py ws)) /\
                      declared ws l = [])).
  { split; [destruct l; congruence || reflexivity | intros ->; split; reflexivity]. }
  destruct l; cbn [getSimilarPackages scanned declared registry].
  - split; [|split; [|exact Hsources]].
    + unfold JavaScript.getSimilarPackages.
      destruct (JavaScript.manifest (js ws)); [simpl; lia | simpl; lia |].
      apply firstn_le_length.
    + exists (JavaScript.getSimilarPackages (js ws) pkg), [].
      rewrite app_nil_r. split; [reflexivity|]. split; [|constructor].
      unfold JavaScript.getSimilarPackages.
      destruct (JavaScript.manifest (js ws)); try constructor. apply firstn_similar.
  - unfold Python.getSimilarPackages.
    split; [apply firstn_le_length | split; [|exact Hsources]].
    rewrite firstn_app. eexists; eexists. split; [reflexivity|].
    split; apply firstn_similar.
  - unfold Rust.getSimilarPackages, Rust.similar_dependencies.
    split; [apply firstn_le_length | split; [|exact Hsources]].
    rewrite firstn_app. eexists; eexists. split; [reflexivity|].
    split; [|apply firstn_similar].
    destruct (Rust.cargo (rs ws)); [apply firstn_similar | rewrite firstn_nil; constructor].
  - unfold Go.getSimilarPackages, Go.similar_dependencies.
    split; [apply firstn_le_length | split; [|exact Hsources]].
    rewrite firstn_app. eexists; eexists. split; [reflexivity|].
    split; [|apply firstn_similar].
    destruct (Go.go_mod (gl ws)); [apply firstn_similar | rewrite firstn_nil; constructor].
  - unfold Java.getSimilarPackages, Java.similar_dependencies.
    split; [apply firstn_le_length | split; [|exact Hsources]].
    rewrite firstn_app. eexists; eexists. split; [reflexivity|].
    split; [|apply firstn_similar].
    destruct (Java.build_file (jv ws)); [apply firstn_similar | rewrite firstn_nil; constructor].
Qed.

(** C3, as the specification words it, fails in the Python engine: with
    [requests] installed, the unresolved import of [req] is answered
    with the suggestion [requests], which is neither a declared
    dependency of a manifest nor a name of the registry. *)
Lemma python_suggests_an_installed_package :
  suggestions (validate worlds python (mkValidateInput "import req" python None))
  = Some ["requests"] /\
  getSimilarPackages worlds python "req" = ["requests"] /\
  JsString.array_includes (declared worlds python ++ registry python)%list "requests"
  = false.
Proof. vm_compute. repeat split. Qed.

End ValidationSpec.

(** ** Cache keys of the engines *)

Module KeySpec.

Import Types Common Factory Examples Vocabulary.

(** [String(n)] tells integers apart. *)
Lemma of_number_inj (a b : Z) : JsString.of_number a = JsString.of_number b -> a = b.
Proof.
  unfold JsString.of_number. intros H. apply to_int_inj.
  assert (R : forall z, NilZero.int_of_string (NilZero.string_of_int (Z.to_int z))
                        = Some (Z.to_int z)).
  { intros z. apply NilZero.isi; destruct z; simpl; try discriminate;
      intros E; injection E as E; now apply Unsigned.to_uint_nonnil in E. }
  pose proof (R a) as Ra. rewrite H, R in Ra. now injection Ra.
Qed.

Lemma language_name_inj (l1 l2 : Language) (r1 r2 : string) :
  language_name l1 ++ ":" ++ r1 = language_name l2 ++ ":" ++ r2 -> l1 = l2 /\ r1 = r2.
Proof.
  destruct l1, l2; simpl; intros H; try discriminate; split; congruence.
Qed.

Lemma language_name_end (l1 l2 : Language) :
  language_name l1 = language_name l2 -> l1 = l2.
Proof. destruct l1, l2; simpl; intros H; try discriminate; reflexivity. Qed.

Lemma language_name_no_colon (l1 l2 : Language) (r : string) :
  language_name l1 <> language_name l2 ++ ":" ++ r.
Proof. destruct l1, l2; simpl; discriminate. Qed.

Lemma boolean_inj (b1 b2 : bool) (r1 r2 : string) :
  JsString.of_boolean b1 ++ ":" ++ r1 = JsString.of_boolean b2 ++ ":" ++ r2 ->
  b1 = b2 /\ r1 = r2.
Proof. destruct b1, b2; simpl; intros H; try discriminate; split; congruence. Qed.

(** The shape of the keys of the JavaScript engine. *)
Lemma js_validate_key_shape (v : ValidateImportInput) :
  JavaScript.validate_key v =
    "validate:" ++ importStatement v ++ ":" ++
    match projectPath v with
    | Some p => language_name (v_language v) ++ ":" ++ p
    | None => language_name (v_language v)
    end.
Proof.
  unfold JavaScript.validate_key, Cache.generateKey.
  destruct (projectPath v); reflexivity.
Qed.

Lemma js_introspect_key_shape (i : IntrospectModuleInput) :
  JavaScript.introspect_key i =
    "introspect:" ++ moduleName i ++ ":" ++ language_name (i_language i) ++ ":" ++
    JsString.of_boolean (includePrivate i) ++ ":" ++ JsString.of_number (maxDepth i).
Proof. reflexivity. Qed.

Lemma free_of_inside (ch : ascii) (a b : string) :
  free_of ch (a ++ String ch b) = false.
Proof.
  induction a as [|c a IH]; cbn [append free_of].
  - now rewrite Ascii.eqb_refl.
  - rewrite IH. apply andb_false_r.
Qed.

(** A text without the separator is told apart from what precedes it. *)
Lemma last_part (ch : ascii) (a a' n n' : string) :
  free_of ch n = true -> free_of ch n' = true ->
  a ++ String ch n = a' ++ String ch n' -> a = a' /\ n = n'.
Proof.
  intros Hn Hn'. revert a'. induction a as [|c a IH]; intros [|c' a'] H; cbn [append] in H.
  - injection H as H. now split.
  - injection H as <- H. rewrite H, free_of_inside in Hn. discriminate.
  - injection H as -> H. rewrite <- H, free_of_inside in Hn'. discriminate.
  - injection H as -> H. destruct (IH a' H) as [-> ->]. now split.
Qed.

Lemma uint_free (d : Decimal.uint) : free_of ":" (NilEmpty.string_of_uint d) = true.
Proof. induction d; cbn [NilEmpty.string_of_uint free_of]; try reflexivity; exact IHd. Qed.

(** The text of a number holds no colon. *)
Lemma of_number_free (n : Z) : free_of ":" (JsString.of_number n) = true.
Proof.
  unfold JsString.of_number, NilZero.string_of_int, NilZero.string_of_uint.
  destruct (Z.to_int n) as [d|d]; destruct d; cbn [free_of negb andb Ascii.eqb Bool.eqb];
    try reflexivity; apply (uint_free (_ d)) || apply uint_free.
Qed.

Lemma of_boolean_free (b : bool) : free_of ":" (JsString.of_boolean b) = true.
Proof. now destruct b. Qed.

Lemma of_boolean_inj (b b' : bool) :
  JsString.of_boolean b = JsString.of_boolean b' -> b = b'.
Proof. destruct b, b'; cbn; congruence || discriminate. Qed.

(** The key of a discovery: the tag, the search term when there is one,
    the flag and the bound. *)
Lemma discover_key_text (l : Language) (d : DiscoverPackagesInput) :
  request_key l (Discover d)
  = (discover_tag l d ++ term_text (d_searchTerm d)
     ++ JsString.of_boolean (d_includeDevDependencies d))
    ++ ":" ++ JsString.of_number (d_maxResults d).
Proof.
  destruct d as [lang [t|] b n]; destruct l; cbn [request_key discover_tag term_text];
    unfold JavaScript.discover_key, Python.discover_key, Rust.discover_key,
           Go.discover_key, Java.discover_key, Cache.generateKey;
    cbn [d_language d_searchTerm d_includeDevDependencies d_maxResults Cache.opt_str
         filter Cache.is_defined map Cache.part_to_string];
    unfold JsString.join; cbn [String.concat term_text];
    rewrite ?JsStringFacts.append_assoc; reflexivity.
Qed.

Lemma term_and_flag (t t' : option string) (b b' : bool) :
  term_text t ++ JsString.of_boolean b = term_text t' ++ JsString.of_boolean b' ->
  t = t' /\ b = b'.
Proof.
  destruct t as [t|], t' as [t'|]; cbn [term_text append]; intros H.
  - rewrite !JsStringFacts.append_assoc in H. cbn [append] in H.
    apply last_part in H as [-> H]; try apply of_boolean_free.
    split; [reflexivity | now apply of_boolean_inj].
  - exfalso. rewrite JsStringFacts.append_assoc in H. cbn [append] in H.
    pose proof (of_boolean_free b') as F. rewrite <- H, free_of_inside in F. discriminate.
  - exfalso. rewrite JsStringFacts.append_assoc in H. cbn [append] in H.
    pose proof (of_boolean_free b) as F. rewrite H, free_of_inside in F. discriminate.
  - split; [reflexivity | now apply of_boolean_inj].
Qed.

(** Two discoveries of one engine share a key exactly when they agree on
    the search term, the flag and the bound, and in the JavaScript
    engine also on the language. *)
Lemma discover_key_fields (l : Language) (d1 d2 : DiscoverPackagesInput) :
  request_key l (Discover d1) = request_key l (Discover d2) <->
  (l = javascript -> d_language d1 = d_language d2) /\
  d_searchTerm d1 = d_searchTerm d2 /\
  d_includeDevDependencies d1 = d_includeDevDependencies d2 /\
  d_maxResults d1 = d_maxResults d2.
Proof.
  rewrite !discover_key_text. split.
  - intros H. apply last_part in H as [H Hn]; try apply of_number_free.
    apply of_number_inj in Hn.
    assert (Htag : (l = javascript -> d_language d1 = d_language d2) /\
                   term_text (d_searchTerm d1)
                   ++ JsString.of_boolean (d_includeDevDependencies d1)
                   = term_text (d_searchTerm d2)
                     ++ JsString.of_boolean (d_includeDevDependencies d2)).
    { destruct l; cbn [discover_tag] in H.
      - rewrite !JsStringFacts.append_assoc in H.
        apply (JsStringFacts.append_inj_l "discover:") in H.
        apply language_name_inj in H as [Hl H]. now split.
      - apply (JsStringFacts.append_inj_l "discover_python:") in H.
        split; [discriminate | exact H].
      - apply (JsStringFacts.append_inj_l "discover_rust:") in H.
        split; [discriminate | exact H].
      - apply (JsStringFacts.append_inj_l "discover_go:") in H.
        split; [discriminate | exact H].
      - apply (JsStringFacts.append_inj_l "discover_java:") in H.
        split; [discriminate | exact H]. }
    destruct Htag as [Hl Ht]. apply term_and_flag in Ht as [Ht Hb]. now repeat split.
  - intros (Hl & -> & -> & ->).
    replace (discover_tag l d2) with (discover_tag l d1); [reflexivity|].
    destruct l; try reflexivity. cbn [discover_tag]. now rewrite Hl.
Qed.

(** The key of a search of the JavaScript engine. *)
Lemma js_search_key_shape (s : SearchAffordancesInput) :
  JavaScript.search_key s =
    ("searchAffordances:" ++ query s ++ ":" ++ language_name (s_language s) ++ ":" ++
     s_category s) ++ ":" ++ JsString.of_number (s_maxResults s).
Proof.
  unfold JavaScript.search_key, Cache.generateKey.
  cbn [filter Cache.is_defined map Cache.part_to_string]. unfold JsString.join.
  cbn [String.concat]. now rewrite !JsStringFacts.append_assoc.
Qed.

(** C6, as the engines build their keys.  Every method of every engine
    reads through the cache under the key of the request.  The key of
    [discoverPackages] tells the search term, the flag and the bound
    apart, and in the JavaScript engine the language too.  The Python,
    Rust, Go and Java engines join an operation name of their own with
    the import statement (for [validateImport]) or with the module name
    (for [introspectModule]) and nothing else, and their
    [searchAffordances] has the key of the discovery it delegates to:
    two requests share a key exactly when those fields are equal.  The
    JavaScript engine joins every field of the input: two of its
    requests with the same import statement (module name, query) share
    a key only when all fields are equal. *)
Theorem keys_follow_selected_fields :
  forall (ws : Worlds) (l : Language) (v1 v2 : ValidateImportInput)
         (i1 i2 : IntrospectModuleInput) (d1 d2 : DiscoverPackagesInput)
         (s1 s2 : SearchAffordancesInput),
    (forall r : Request,
        exists compute : Z -> Store -> Any * Store,
          forall now c, call (engine ws l) now c r
                        = read_through (request_key l r) (compute now) now c) /\
    (request_key l (Discover d1) = request_key l (Discover d2) <->
     (l = javascript -> d_language d1 = d_language d2) /\
     d_searchTerm d1 = d_searchTerm d2 /\
     d_includeDevDependencies d1 = d_includeDevDependencies d2 /\
     d_maxResults d1 = d_maxResults d2) /\
    (l <> javascript ->
     (validate_key l v1 = validate_key l v2 <-> importStatement v1 = importStatement v2) /\
     (introspect_key l i1 = introspect_key l i2 <-> moduleName i1 = moduleName i2) /\
     (request_key l (Search s1) = request_key l (Search s2) <->
      query s1 = query s2 /\ s_maxResults s1 = s_maxResults s2)) /\
    (l = javascript ->
     (importStatement v1 = importStatement v2 ->
      validate_key l v1 = validate_key l v2 -> v1 = v2) /\
     (moduleName i1 = moduleName i2 ->
      introspect_key l i1 = introspect_key l i2 -> i1 = i2) /\
     (query s1 = query s2 ->
      request_key l (Search s1) = request_key l (Search s2) -> s1 = s2)).
Proof.
  intros ws l v1 v2 i1 i2 d1 d2 s1 s2. split; [|split; [|split]].
  - intros r. destruct (StoreFacts.call_is_read_through ws l r) as (compute & H & _).
    now exists compute.
  - apply discover_key_fields.
  - intros Hl. split; [|split].
    + destruct l; try (now elim Hl);
        (split;
         [ cbv [validate_key Python.validate_key Rust.validate_key Go.validate_key
                  Java.validate_key Cache.generateKey];
           simpl; intros H; congruence
         | cbv [validate_key Python.validate_key Rust.validate_key Go.validate_key
                  Java.validate_key Cache.generateKey];
           simpl; intros H; congruence ]).
    + destruct l; try (now elim Hl);
        (split;
         [ cbv [introspect_key Python.introspect_key Rust.introspect_key
                  Go.introspect_key Java.introspect_key Cache.generateKey];
           simpl; intros H; congruence
         | cbv [introspect_key Python.introspect_key Rust.introspect_key
                  Go.introspect_key Java.introspect_key Cache.generateKey];
           simpl; intros H; congruence ]).
    + assert (Hs : forall s, request_key l (Search s)
                             = request_key l (Discover (delegated s)))
        by (intros s; destruct l; [now elim Hl | reflexivity..]).
      rewrite !Hs, discover_key_fields. unfold delegated.
      cbn [d_language d_searchTerm d_includeDevDependencies d_maxResults]. split.
      * intros (_ & Hq & _ & Hn). split; [congruence | exact Hn].
      * intros [-> ->]. repeat split. intros ->. now elim Hl.
  - intros ->. cbn [validate_key introspect_key request_key]. split; [|split].
    + intros Hs Hk. rewrite !js_validate_key_shape, Hs in Hk.
      apply JsStringFacts.append_inj_l in Hk.
      apply JsStringFacts.append_inj_l in Hk.
      apply (JsStringFacts.append_inj_l ":") in Hk.
      destruct v1 as [st1 l1 p1], v2 as [st2 l2 p2]. simpl in *. subst st2.
      destruct p1 as [p1|], p2 as [p2|].
      * apply language_name_inj in Hk as [-> ->]. reflexivity.
      * symmetry in Hk. now apply language_name_no_colon in Hk.
      * now apply language_name_no_colon in Hk.
      * apply language_name_end in Hk as ->. reflexivity.
    + intros Hm Hk. rewrite !js_introspect_key_shape, Hm in Hk.
      apply JsStringFacts.append_inj_l in Hk.
      apply JsStringFacts.append_inj_l in Hk.
      apply (JsStringFacts.append_inj_l ":") in Hk.
      apply language_name_inj in Hk as [Hl Hk].
      apply boolean_inj in Hk as [Hb Hk].
      apply of_number_inj in Hk.
      destruct i1, i2. simpl in *. congruence.
    + intros Hq Hk. rewrite !js_search_key_shape, Hq in Hk.
      apply last_part in Hk as [Hk Hn]; try apply of_number_free.
      apply of_number_inj in Hn.
      apply (JsStringFacts.append_inj_l "searchAffordances:") in Hk.
      apply JsStringFacts.append_inj_l in Hk.
      apply (JsStringFacts.append_inj_l ":") in Hk.
      apply language_name_inj in Hk as [Hl Hc].
      destruct s1, s2. simpl in *. congruence.
Qed.

(** Two Python requests for [import os] in different projects, two Rust
    introspections of [serde], and two Rust searches for [serde]. *)
Lemma keys_follow_selected_fields_witness :
  validate_key python os_in_a = validate_key python os_in_b /\
  introspect_key rust serde_shallow = introspect_key rust serde_deep /\
  request_key rust (Search serde_in_data) = request_key rust (Search serde_in_ui).
Proof.
  pose proof (keys_follow_selected_fields
                worlds python os_in_a os_in_b serde_shallow serde_deep
                (delegated serde_in_data) (delegated serde_in_ui)
                serde_in_data serde_in_ui) as (_ & _ & Hpy & _).
  pose proof (keys_follow_selected_fields
                worlds rust os_in_a os_in_b serde_shallow serde_deep
                (delegated serde_in_data) (delegated serde_in_ui)
                serde_in_data serde_in_ui) as (_ & _ & Hrs & _).
  destruct (Hpy ltac:(discriminate)) as (Hv & _ & _).
  destruct (Hrs ltac:(discriminate)) as (_ & Hi & Hs).
  split; [|split].
  - apply (proj2 Hv). reflexivity.
  - apply (proj2 Hi). reflexivity.
  - apply (proj2 Hs). split; reflexivity.
Defined.

(** C6 as stated fails: two Python validation requests that differ in
    [projectPath] get the same key, and the second finds the entry that
    the first stored; two Rust introspection requests that differ in
    [includePrivate] and [maxDepth] get the same key; and so do two Rust
    searches that differ in the category. *)
Lemma requests_that_differ_share_an_entry :
  (projectPath os_in_a <> projectPath os_in_b /\
   Python.validate_key os_in_a = Python.validate_key os_in_b /\
   fst (Cache.get (snd (Python.validateImport bare_py 0 empty_store os_in_a)) 1
                  (Python.validate_key os_in_b))
     = Some (AValidation (Python.validate bare_py os_in_a))) /\
  (includePrivate serde_shallow <> includePrivate serde_deep /\
   maxDepth serde_shallow <> maxDepth serde_deep /\
   Rust.introspect_key serde_shallow = Rust.introspect_key serde_deep) /\
  (s_category serde_in_data <> s_category serde_in_ui /\
   request_key rust (Search serde_in_data) = request_key rust (Search serde_in_ui)).
Proof.
  split; [|split]; repeat (split; try discriminate); vm_compute; reflexivity.
Qed.

End KeySpec.

(** ** Functionality search *)

Module SearchSpec.

Import Types Common SemanticSearch Factory Examples.

Section Sorting.
Context {A : Type}.
Implicit Types (x : A * Z) (l : list (A * Z)).

Lemma insert_desc_perm x l : Permutation (insert_desc x l) (x :: l).
Proof.
  induction l as [|y l IH]; simpl; [reflexivity|].
  destruct (snd y >? snd x); [|reflexivity].
  rewrite IH. apply perm_swap.
Qed.

Lemma sort_desc_perm l : Permutation (sort_desc l) l.
Proof.
  induction l as [|x l IH]; simpl; [reflexivity|].
  unfold sort_desc in *. simpl. rewrite insert_desc_perm. now constructor.
Qed.

Lemma insert_desc_sorted x l :
  StronglySorted (fun a b => snd a >= snd b) l ->
  StronglySorted (fun a b => snd a >= snd b) (insert_desc x l).
Proof.
  induction 1 as [|y l Hl IH Hy]; simpl.
  - constructor; constructor.
  - destruct (snd y >? snd x) eqn:E.
    + constructor; [exact IH|].
      eapply Permutation_Forall; [symmetry; apply insert_desc_perm|].
      constructor; [apply Z.gtb_lt in E; lia | exact Hy].
    + rewrite Z.gtb_ltb in E. apply Z.ltb_ge in E.
      constructor; [now constructor|].
      constructor; [lia|].
      eapply Forall_impl; [|exact Hy]. simpl. intros z Hz. lia.
Qed.

Lemma sort_desc_sorted l : StronglySorted (fun a b => snd a >= snd b) (sort_desc l).
Proof.
  induction l as [|x l IH]; [constructor|].
  unfold sort_desc in *. simpl. now apply insert_desc_sorted.
Qed.

(** Insertion keeps the order of the records of any one score. *)
Lemma insert_desc_stable (s : Z) x l :
  filter (fun y => snd y =? s) (insert_desc x l) = filter (fun y => snd y =? s) (x :: l).
Proof.
  induction l as [|y l IH]; [reflexivity|].
  simpl insert_desc. destruct (snd y >? snd x) eqn:E; [|reflexivity].
  apply Z.gtb_lt in E. simpl in *. rewrite IH.
  destruct (snd y =? s) eqn:Ey, (snd x =? s) eqn:Ex; try reflexivity.
  apply Z.eqb_eq in Ey, Ex. lia.
Qed.

Lemma sort_desc_stable (s : Z) l :
  filter (fun y => snd y =? s) (sort_desc l) = filter (fun y => snd y =? s) l.
Proof.
  induction l as [|x l IH]; [reflexivity|].
  unfold sort_desc in *. simpl fold_right. rewrite insert_desc_stable.
  simpl. now rewrite IH.
Qed.
End Sorting.

Lemma slice0_map {A B : Type} (f : A -> B) (n : Z) (l : list A) :
  slice0 n (map f l) = map f (slice0 n l).
Proof.
  unfold slice0. rewrite length_map. destruct (n <? 0); apply firstn_map.
Qed.

Lemma filter_map_comm {A B : Type} (f : A -> B) (g : B -> bool) (l : list A) :
  filter g (map f l) = map f (filter (fun x => g (f x)) l).
Proof.
  induction l as [|x l IH]; simpl; [reflexivity|].
  destruct (g (f x)); simpl; now rewrite IH.
Qed.

Lemma StronglySorted_map {A B : Type} (f : A -> B) (R : B -> B -> Prop) (l : list A) :
  StronglySorted (fun a b => R (f a) (f b)) l -> StronglySorted R (map f l).
Proof.
  induction 1 as [|x l Hl IH Hx]; simpl; constructor; [exact IH|].
  apply Forall_map. exact Hx.
Qed.

Lemma scored_perm query l l' : Permutation l l' -> scored query l -> scored query l'.
Proof. intros P H. exact (Permutation_Forall P H). Qed.

Lemma filter_scored_ext query (g h : PackageInfo * Z -> bool) l :
  scored query l -> (forall sp, snd sp = calculateSemanticScore query (fst sp) -> g sp = h sp) ->
  filter g l = filter h l.
Proof.
  induction 1 as [|sp l Hsp Hl IH]; intros E; simpl; [reflexivity|].
  rewrite (E sp Hsp). destruct (h sp); now rewrite IH.
Qed.

Lemma sorted_scored query l :
  scored query l ->
  StronglySorted (fun a b => snd a >= snd b) l ->
  StronglySorted (fun a b => calculateSemanticScore query (fst a)
                             >= calculateSemanticScore query (fst b)) l.
Proof.
  intros Hs. induction 1 as [|x l Hl IH Hx]; constructor.
  - apply IH. now inversion Hs.
  - inversion Hs as [|? ? Hx' Hl']; subst.
    rewrite Forall_forall in *. intros y Hy.
    rewrite <- Hx', <- (Hl' y Hy). now apply Hx.
Qed.

(** What [searchPackagesSemanticaly] returns: the first [maxResults]
    records of a list that holds exactly the retained records, in
    descending order of score, records of equal score in their original
    order. *)
Lemma search_ranks (query : string) (packages : list PackageInfo)
      (category : string) (maxResults : Z) :
  exists sorted : list PackageInfo,
    searchPackagesSemanticaly query packages category maxResults
      = slice0 maxResults sorted /\
    Permutation sorted (filter (retained query category) packages) /\
    descending query sorted /\
    (forall s, with_score query s sorted
               = with_score query s (filter (retained query category) packages)).
Proof.
  unfold searchPackagesSemanticaly.
  set (pairs := map (fun pkg => (pkg, calculateSemanticScore query pkg)) packages).
  set (kept := filter (fun sp => snd sp >? 0) _).
  assert (Hkept : kept = map (fun pkg => (pkg, calculateSemanticScore query pkg))
                             (filter (retained query category) packages)).
  { subst kept pairs. unfold retained, in_category.
    destruct (String.eqb category "all"); cbn [negb orb andb].
    - rewrite filter_map_comm. apply (f_equal (map _)). apply filter_ext.
      intros p. reflexivity.
    - rewrite !filter_map_comm. apply (f_equal (map _)). cbn [fst snd].
      induction packages as [|p ps IH]; [reflexivity|].
      cbn [filter]. destruct (existsb _ (category_keywords category)); cbn [filter andb].
      + destruct (calculateSemanticScore query p >? 0); now rewrite IH.
      + exact IH. }
  assert (Hsc : scored query kept).
  { rewrite Hkept. apply Forall_map, Forall_forall. reflexivity. }
  assert (Hfst : map fst kept = filter (retained query category) packages).
  { rewrite Hkept, map_map. simpl. apply map_id. }
  exists (map fst (sort_desc kept)). rewrite slice0_map. split; [reflexivity|].
  pose proof (sort_desc_perm kept) as Hperm.
  assert (Hss : scored query (sort_desc kept))
    by (eapply scored_perm; [symmetry; exact Hperm | exact Hsc]).
  split; [|split].
  - rewrite <- Hfst. now apply Permutation_map.
  - apply StronglySorted_map with (R := fun a b => calculateSemanticScore query a
                                                    >= calculateSemanticScore query b).
    apply sorted_scored; [exact Hss | apply sort_desc_sorted].
  - intros s. unfold with_score. rewrite <- Hfst, !filter_map_comm. f_equal.
    rewrite (filter_scored_ext query _ (fun y => snd y =? s) _ Hss)
      by (intros sp E; now rewrite E).
    rewrite (filter_scored_ext query _ (fun y => snd y =? s) _ Hsc)
      by (intros sp E; now rewrite E).
    apply sort_desc_stable.
Qed.

(** C8, as the engines search.  On a cache miss the JavaScript engine
    takes the packages of [discoverPackages] for the empty search term
    (all dependencies, at most 1000 records), annotates each with its
    category and score, keeps those that pass the category filter and
    score more than zero, orders them by descending score with ties in
    their original order, and returns the first [maxResults].  The
    engines of the other four languages return what [discoverPackages]
    returns for the query as search term. *)
Theorem search_ranks_or_delegates :
  forall (ws : Worlds) (l : Language) (now : Z) (c : Store)
         (input : SearchAffordancesInput),
    (l = javascript ->
     fst (Cache.get c now (JavaScript.search_key input)) = None ->
     exists candidates sorted : list PackageInfo,
       candidates =
         map (fun pkg => enhancePackageInfo pkg (Some (query input)))
             (packages_of
                (fst (discoverPackages (engine ws l) now
                        (snd (Cache.get c now (JavaScript.search_key input)))
                        (mkDiscoverInput (s_language input) (Some EmptyString) true 1000)))) /\
       Permutation sorted (filter (retained (query input) (s_category input)) candidates) /\
       descending (query input) sorted /\
       (forall s, with_score (query input) s sorted
                  = with_score (query input) s
                      (filter (retained (query input) (s_category input)) candidates)) /\
       fst (searchAffordances (engine ws l) now c input) =
         ADiscovery (mkDiscovery (slice0 (s_maxResults input) sorted)
                                 (Z.of_nat (List.length (slice0 (s_maxResults input) sorted)))
                                 (Some (query input)) (s_language input) now)) /\
    (l <> javascript ->
     searchAffordances (engine ws l) now c input =
       discoverPackages (engine ws l) now c
         (mkDiscoverInput (s_language input) (Some (query input)) true
                          (s_maxResults input))).
Proof.
  intros ws l now c input. split.
  - intros -> Hmiss. cbn [engine searchAffordances discoverPackages].
    unfold JavaScript.searchAffordances.
    destruct (Cache.get c now (JavaScript.search_key input)) as [[cached|] c'] eqn:E;
      simpl in Hmiss; [discriminate|]. cbn [snd].
    unfold JavaScript.all_packages_input.
    destruct (JavaScript.discoverPackages (js ws) now c'
                (mkDiscoverInput (s_language input) (Some EmptyString) true 1000))
      as [allPackagesResult c''] eqn:D.
    cbn [fst]. unfold remember. cbn [fst]. unfold JavaScript.rank.
    destruct (search_ranks (query input)
                (map (fun pkg => enhancePackageInfo pkg (Some (query input)))
                     (packages_of allPackagesResult))
                (s_category input) (s_maxResults input))
      as (sorted & Hres & Hperm & Hdesc & Hstable).
    exists (map (fun pkg => enhancePackageInfo pkg (Some (query input)))
                (packages_of allPackagesResult)), sorted.
    split; [reflexivity|]. split; [exact Hperm|]. split; [exact Hdesc|].
    split; [exact Hstable|]. now rewrite Hres.
  - intros Hl. destruct l; try (now elim Hl); reflexivity.
Qed.

(** The project that declares [vite] and [vitest], asked for [vite];
    and the crate that depends on [reqwest]. *)
Lemma search_ranks_or_delegates_witness :
  (exists candidates sorted : list PackageInfo,
     candidates =
       map (fun pkg => enhancePackageInfo pkg (Some (query vitest_query)))
           (packages_of
              (fst (discoverPackages (engine worlds javascript) 0
                      (snd (Cache.get empty_store 0 (JavaScript.search_key vitest_query)))
                      (mkDiscoverInput (s_language vitest_query) (Some EmptyString)
                                       true 1000)))) /\
     Permutation sorted
       (filter (retained (query vitest_query) (s_category vitest_query)) candidates) /\
     descending (query vitest_query) sorted /\
     (forall s, with_score (query vitest_query) s sorted
                = with_score (query vitest_query) s
                    (filter (retained (query vitest_query) (s_category vitest_query))
                            candidates)) /\
     fst (searchAffordances (engine worlds javascript) 0 empty_store vitest_query) =
       ADiscovery (mkDiscovery (slice0 (s_maxResults vitest_query) sorted)
                               (Z.of_nat (List.length
                                            (slice0 (s_maxResults vitest_query) sorted)))
                               (Some (query vitest_query)) (s_language vitest_query) 0)) /\
  searchAffordances (engine worlds rust) 0 empty_store reqwest_query =
    discoverPackages (engine worlds rust) 0 empty_store
      (mkDiscoverInput (s_language reqwest_query) (Some (query reqwest_query)) true
                       (s_maxResults reqwest_query)).
Proof.
  split.
  - apply (proj1 (search_ranks_or_delegates worlds javascript 0 empty_store vitest_query));
      reflexivity.
  - apply (proj2 (search_ranks_or_delegates worlds rust 0 empty_store reqwest_query)).
    discriminate.
Defined.

(** C8 as stated fails outside JavaScript.  The Rust engine, asked for
    [reqwest http] in a crate that depends on [reqwest], filters the
    dependencies by the whole query and finds nothing, where the pipeline
    of enumerating, annotating and ranking returns [reqwest]. *)
Lemma search_elsewhere_is_a_term_filter :
  packages_of (fst (searchAffordances (engine worlds rust) 0 empty_store reqwest_query))
    = [] /\
  pipeline (Rust.discover reqwest_rs 0) reqwest_query
    = [mkPackage "reqwest" "0.11" None true None (Some "utility") (Some 90)].
Proof. split; vm_compute; reflexivity. Qed.

End SearchSpec.

(** ** Module introspection *)

Module IntrospectSpec.

Import Types Common Factory Examples.

(** An unresolved module that is no built-in gets an empty descriptor
    when the working directory has no [package.json] with an [exports]
    field. *)
Lemma unresolved_module_is_empty (w : JavaScript.World) (input : IntrospectModuleInput) :
  JavaScript.require_resolve w (moduleName input) (JavaScript.cwd w) = None ->
  Builtin.isNodeBuiltinModule (moduleName input) = false ->
  JavaScript.package_exports w
    (JavaScript.join w [JavaScript.dirname w EmptyString; "package.json"]) = None ->
  module_path (JavaScript.introspect w input) = EmptyString /\
  exports (JavaScript.introspect w input) = [].
Proof.
  intros Hres Hbuiltin Hpkg.
  unfold JavaScript.introspect, JavaScript.resolveModulePath. rewrite Hres.
  cbn [module_path exports or_default]. split; [reflexivity|].
  unfold JavaScript.analyzeModuleExports. rewrite Hbuiltin.
  cbn [List.length Nat.ltb Nat.leb Nat.eqb or_default]. now rewrite Hpkg.
Qed.

(** C9, at the inputs on which an unresolved module gets exports.  For
    a module that cannot be resolved the last fallback joins
    [dirname('')] with [package.json] and so reads the manifest of the
    working directory: when that manifest has an [exports] map, its keys
    come back as exports next to an empty path.  The built-in test runs
    before the path is looked at, so [test], which is in the built-in
    list, gets its synthetic export also where it does not resolve. *)
Theorem unresolved_module_gets_exports :
  (JavaScript.resolveModulePath exporting_js (moduleName missing_module)
                                (JavaScript.cwd exporting_js) = None /\
   JavaScript.introspect exporting_js missing_module =
     mkModule "non-existent-module-12345" EmptyString
              [mkExport "default" TNamespace None None] [] []) /\
  (JavaScript.resolveModulePath bare_js (moduleName test_module)
                                (JavaScript.cwd bare_js) = None /\
   JavaScript.introspect bare_js test_module =
     mkModule "test" EmptyString
              [mkExport "default" TNamespace (Some "test") (Some "Test runner")] [] []).
Proof. repeat split. Qed.

End IntrospectSpec.

(** ** Laws of the string operations *)

Module StringLaws.

Import JsString Vocabulary.

Lemma split_aux_nonempty (fuel : nat) (sep acc s : string) :
  split_aux fuel sep acc s <> [].
Proof.
  revert acc s. induction fuel as [|fuel IH]; intros acc s; simpl; [discriminate|].
  destruct s as [|c s]; [discriminate|].
  destruct (prefix sep (String c s)); [discriminate | apply IH].
Qed.

Lemma join_cons (sep x : string) (l : list string) :
  l <> [] -> join sep (x :: l) = x ++ sep ++ join sep l.
Proof. destruct l; [congruence | reflexivity]. Qed.

Lemma join_split_aux (sep : string) :
  sep <> EmptyString ->
  forall (fuel : nat) (acc s : string),
    (String.length s < fuel)%nat ->
    join sep (split_aux fuel sep acc s) = acc ++ s.
Proof.
  intros Hsep. induction fuel as [|fuel IH]; intros acc s Hf; [lia|].
  destruct s as [|c s]; cbn [split_aux].
  - simpl. now rewrite JsStringFacts.append_nil_r.
  - destruct (prefix sep (String c s)) eqn:E.
    + pose proof (RegexFacts.rest_after_prefix sep (String c s) E) as Hlen.
      pose proof (JsStringFacts.prefix_inv _ _ E) as [r Hr].
      rewrite join_cons by apply split_aux_nonempty.
      rewrite IH.
      * rewrite Hr at 2. rewrite Hr, RegexFacts.length_append, RegexFacts.substring_skip.
        replace (String.length sep + String.length r - String.length sep)%nat
          with (String.length r) by lia.
        now rewrite RegexFacts.substring_all.
      * destruct sep as [|a sep]; [congruence|]. simpl in *. lia.
    + rewrite IH by (simpl in Hf; lia).
      rewrite JsStringFacts.append_assoc. reflexivity.
Qed.

(** Joining the pieces of a split with the separator gives the string
    back. *)
Lemma join_split (sep s : string) :
  sep <> EmptyString -> join sep (split sep s) = s.
Proof.
  intros Hsep. unfold split. now rewrite join_split_aux by (assumption || lia).
Qed.

Lemma split_is_split_char (ch : ascii) :
  forall (fuel : nat) (acc s : string),
    (String.length s < fuel)%nat ->
    split_aux fuel (String ch EmptyString) acc s = split_char ch acc s.
Proof.
  induction fuel as [|fuel IH]; intros acc s Hf; [lia|].
  destruct s as [|c s]; [reflexivity|].
  cbn [split_aux split_char]. simpl in Hf.
  destruct (Ascii.eqb c ch) eqn:Ec.
  - apply Ascii.eqb_eq in Ec as ->.
    replace (prefix (String ch EmptyString) (String ch s)) with true
      by (symmetry; apply (JsStringFacts.prefix_app (String ch EmptyString) s)).
    change (String ch s) with (String ch EmptyString ++ s) at 2.
    rewrite RegexFacts.substring_skip. cbn [String.length].
    replace (S (String.length s) - 1)%nat with (String.length s) by lia.
    rewrite RegexFacts.substring_all.
    f_equal. apply IH. lia.
  - replace (prefix (String ch EmptyString) (String c s)) with false.
    + apply IH. lia.
    + symmetry. simpl. destruct (ascii_dec ch c) as [->|]; [|reflexivity].
      now rewrite Ascii.eqb_refl in Ec.
Qed.

Lemma split_char_free (ch : ascii) (x : string) :
  free_of ch x = true ->
  forall acc rest, split_char ch acc (x ++ rest) = split_char ch (acc ++ x) rest.
Proof.
  induction x as [|c x IH]; intros Hx acc rest; simpl in *.
  - now rewrite JsStringFacts.append_nil_r.
  - apply andb_true_iff in Hx as [Hc Hx]. apply negb_true_iff in Hc. rewrite Hc.
    rewrite IH by assumption. now rewrite JsStringFacts.append_assoc.
Qed.

Lemma split_char_join (ch : ascii) (l : list string) :
  l <> [] -> Forall (fun x => free_of ch x = true) l ->
  forall acc,
    split_char ch acc (join (String ch EmptyString) l)
    = match l with x :: l' => (acc ++ x) :: l' | [] => [] end.
Proof.
  induction l as [|x l IH]; [congruence|]. intros _ Hall acc.
  inversion Hall as [|? ? Hx Hl]; subst.
  destruct l as [|y l].
  - simpl join. rewrite <- (JsStringFacts.append_nil_r x) at 1.
    rewrite split_char_free by assumption. reflexivity.
  - rewrite join_cons by discriminate. rewrite split_char_free by assumption.
    change (String ch EmptyString ++ join (String ch EmptyString) (y :: l))
      with (String ch (join (String ch EmptyString) (y :: l))).
    simpl split_char. rewrite Ascii.eqb_refl.
    rewrite IH by (discriminate || assumption). reflexivity.
Qed.

(** Splitting what was joined with a one-unit separator gives the pieces
    back, when the separator occurs in none of them. *)
Lemma split_join (ch : ascii) (l : list string) :
  l <> [] -> Forall (fun x => free_of ch x = true) l ->
  split (String ch EmptyString) (join (String ch EmptyString) l) = l.
Proof.
  intros Hl Hall. unfold split. rewrite split_is_split_char by lia.
  rewrite split_char_join by assumption. destruct l; [congruence | reflexivity].
Qed.

Lemma lower_char_idempotent (c : ascii) : lower_char (lower_char c) = lower_char c.
Proof. destruct c as [[] [] [] [] [] [] [] []]; reflexivity. Qed.

Lemma toLowerCase_idempotent (s : string) : toLowerCase (toLowerCase s) = toLowerCase s.
Proof. induction s; simpl; [reflexivity|]. now rewrite lower_char_idempotent, IHs. Qed.

Lemma includes_refl (s : string) : includes s s = true.
Proof.
  apply JsStringFacts.includes_spec. exists EmptyString, EmptyString.
  simpl. now rewrite JsStringFacts.append_nil_r.
Qed.

Lemma includes_empty (s : string) : includes s EmptyString = true.
Proof. apply JsStringFacts.includes_spec. now exists EmptyString, s. Qed.

Lemma free_of_app (ch : ascii) (a b : string) :
  free_of ch (a ++ b) = free_of ch a && free_of ch b.
Proof.
  induction a as [|c a IH]; cbn [append free_of]; [reflexivity|].
  now rewrite IH, andb_assoc.
Qed.

(** The pieces of a split hold no separator. *)
Lemma split_char_pieces_free (ch : ascii) (s acc : string) :
  free_of ch acc = true ->
  Forall (fun x => free_of ch x = true) (split_char ch acc s).
Proof.
  revert acc. induction s as [|c s IH]; intros acc Hacc; cbn [split_char].
  - now constructor.
  - destruct (Ascii.eqb c ch) eqn:E.
    + constructor; [exact Hacc | now apply IH].
    + apply IH. rewrite free_of_app, Hacc. cbn [free_of andb]. now rewrite E.
Qed.

Lemma split_pieces_free (ch : ascii) (s : string) :
  Forall (fun x => free_of ch x = true) (split (String ch EmptyString) s).
Proof.
  unfold split. rewrite split_is_split_char by lia.
  now apply split_char_pieces_free.
Qed.

Lemma split_nonempty (sep s : string) : split sep s <> [].
Proof. apply split_aux_nonempty. Qed.

(** A joined list is its front, the separator and its last piece. *)
Lemma join_removelast (sep : string) (l : list string) :
  (1 < List.length l)%nat ->
  join sep l = join sep (removelast l) ++ sep ++ last l EmptyString.
Proof.
  induction l as [|x l IH]; [cbn; lia|]. intros H.
  destruct l as [|y l]; [cbn in H; lia|].
  destruct l as [|z l].
  - reflexivity.
  - rewrite join_cons by discriminate.
    rewrite IH by (cbn [List.length]; lia).
    change (removelast (x :: y :: z :: l)) with (x :: removelast (y :: z :: l)).
    change (last (x :: y :: z :: l) EmptyString) with (last (y :: z :: l) EmptyString).
    rewrite join_cons by (cbn [removelast]; discriminate).
    now rewrite !JsStringFacts.append_assoc.
Qed.

Lemma app_snoc_inv (acc a1 a2 : string) (c : ascii) :
  acc ++ String c EmptyString = a1 ++ a2 -> a2 <> EmptyString ->
  exists a2', a2 = a2' ++ String c EmptyString /\ acc = a1 ++ a2'.
Proof.
  revert acc. induction a1 as [|x a1 IH]; intros acc H Hne.
  - exists acc. cbn [append] in *. now split.
  - destruct acc as [|y acc]; cbn [append] in H.
    + injection H as _ H. destruct a1; [|discriminate].
      cbn [append] in H. congruence.
    + injection H as -> H. destruct (IH acc H Hne) as (a2' & -> & ->).
      now exists a2'.
Qed.

(** The first piece of a split: it runs up to the first occurrence of
    the separator and holds no occurrence itself. *)
Lemma split_aux_head (sep : string) :
  sep <> EmptyString ->
  forall (fuel : nat) (acc s : string),
    (String.length s < fuel)%nat ->
    (forall a1 a2, acc = a1 ++ a2 -> a2 <> EmptyString -> prefix sep (a2 ++ s) = false) ->
    exists h rest more,
      split_aux fuel sep acc s = h :: more /\
      acc ++ s = h ++ rest /\
      (rest = EmptyString \/ prefix sep rest = true) /\
      includes h sep = false.
Proof.
  intros Hsep.
  assert (Hfree : forall acc s,
             (forall a1 a2, acc = a1 ++ a2 -> a2 <> EmptyString ->
                            prefix sep (a2 ++ s) = false) ->
             includes acc sep = false).
  { intros acc s Hinv. destruct (includes acc sep) eqn:E; [|reflexivity].
    apply JsStringFacts.includes_spec in E as (a & b & ->).
    assert (sep ++ b <> EmptyString) by (destruct sep; [congruence | discriminate]).
    specialize (Hinv a (sep ++ b) eq_refl H).
    rewrite JsStringFacts.append_assoc, JsStringFacts.prefix_app in Hinv. discriminate. }
  induction fuel as [|fuel IH]; intros acc s Hfuel Hinv; [lia|].
  destruct s as [|c s]; cbn [split_aux].
  - exists acc, EmptyString, []. repeat split; [now left | now apply (Hfree acc EmptyString)].
  - destruct (prefix sep (String c s)) eqn:E.
    + exists acc, (String c s), (split_aux fuel sep EmptyString
                                           (substring (String.length sep)
                                                      (String.length (String c s)
                                                       - String.length sep) (String c s))).
      repeat split; [now right | now apply (Hfree acc (String c s))].
    + destruct (IH (acc ++ String c EmptyString) s) as (h & rest & more & E1 & E2 & E3 & E4).
      * cbn [String.length] in Hfuel. lia.
      * intros a1 a2 Ha Hne. destruct (app_snoc_inv acc a1 a2 c Ha Hne) as (a2' & -> & ->).
        rewrite JsStringFacts.append_assoc. cbn [append].
        destruct a2' as [|y a2']; [exact E|].
        apply (Hinv a1 (String y a2') eq_refl). discriminate.
      * exists h, rest, more. repeat split; try assumption.
        rewrite <- E2. now rewrite JsStringFacts.append_assoc.
Qed.

Lemma split_head (sep s : string) :
  sep <> EmptyString ->
  exists h rest more,
    split sep s = h :: more /\ s = h ++ rest /\
    (rest = EmptyString \/ prefix sep rest = true) /\
    includes h sep = false.
Proof.
  intros Hsep. unfold split.
  destruct (split_aux_head sep Hsep (S (String.length s)) EmptyString s)
    as (h & rest & more & H); [lia | | now exists h, rest, more].
  intros a1 a2 H Hne. destruct a1; destruct a2; cbn in H; congruence.
Qed.

End StringLaws.

(** ** Laws of the cache *)

Module CacheLaws.

Import Cache Vocabulary Examples.

Section Laws.
Context {T : Type}.
Implicit Types (m : JsMap T) (c : CacheManager T).

Lemma map_get_delete_other m key key' :
  key' <> key -> map_get key' (map_delete key m) = map_get key' m.
Proof.
  intros Hne. induction m as [|[k e] m IH]; [reflexivity|].
  unfold map_delete in *. simpl.
  destruct (String.eqb k key) eqn:E; simpl.
  - apply String.eqb_eq in E. subst k.
    replace (String.eqb key key') with false
      by (symmetry; apply String.eqb_neq; congruence).
    exact IH.
  - destruct (String.eqb k key'); [reflexivity | exact IH].
Qed.

Lemma map_delete_keys m key : incl (map fst (map_delete key m)) (map fst m).
Proof.
  unfold map_delete. intros k Hk. apply in_map_iff in Hk as (b & <- & Hb).
  apply filter_In in Hb as [Hb _]. now apply in_map.
Qed.

Lemma map_wf_delete m key : map_wf m -> map_wf (map_delete key m).
Proof.
  unfold map_wf, map_delete. induction m as [|[k e] m IH]; simpl; intros H; [constructor|].
  inversion H as [|? ? Hk Hm]; subst.
  destruct (String.eqb k key); simpl; [now apply IH|].
  constructor; [|now apply IH].
  intros Hin. apply Hk. now apply (map_delete_keys m key).
Qed.

Lemma map_set_keys m key e k :
  In k (map fst (map_set key e m)) -> k = key \/ In k (map fst m).
Proof.
  induction m as [|[k' e'] m IH]; simpl.
  - intros [<-|[]]. now left.
  - destruct (String.eqb k' key); simpl; intros [<-|H]; auto.
    destruct (IH H); auto.
Qed.

Lemma map_wf_set m key e : map_wf m -> map_wf (map_set key e m).
Proof.
  unfold map_wf. induction m as [|[k e'] m IH]; simpl; intros H.
  - constructor; [easy | constructor].
  - inversion H as [|? ? Hk Hm]; subst.
    destruct (String.eqb k key) eqn:E; simpl.
    + now constructor.
    + constructor; [|now apply IH].
      intros Hin. apply map_set_keys in Hin as [->|Hin]; [|now apply Hk].
      now rewrite String.eqb_refl in E.
Qed.

Lemma map_wf_fold_delete (ks : list string) m :
  map_wf m -> map_wf (fold_left (fun m k => map_delete k m) ks m).
Proof.
  revert m. induction ks as [|k ks IH]; intros m H; simpl; [exact H|].
  apply IH. now apply map_wf_delete.
Qed.

Lemma map_wf_evict c : map_wf (cache c) -> map_wf (evict_if_full c).
Proof.
  intros H. unfold evict_if_full.
  destruct (map_size (cache c) >=? maxSize (options c)); [|exact H].
  destruct (map_first_key (cache c)) as [k|]; [|exact H].
  destruct (JsString.truthy k); [now apply map_wf_delete | exact H].
Qed.

(** No call binds a key twice. *)
Lemma map_wf_step c (o : op) : map_wf (cache c) -> map_wf (cache (step c o)).
Proof.
  intros H. destruct o as [now key|now key v t|now key|key| |now]; simpl.
  - unfold get. destruct (map_get key (cache c)) as [e|]; simpl; [|exact H].
    destruct (now - timestamp e >? ttl e); simpl; [now apply map_wf_delete | exact H].
  - apply map_wf_set. now apply map_wf_evict.
  - unfold has, get. destruct (map_get key (cache c)) as [e|]; simpl; [|exact H].
    destruct (now - timestamp e >? ttl e); simpl; [now apply map_wf_delete | exact H].
  - now apply map_wf_delete.
  - constructor.
  - now apply map_wf_fold_delete.
Qed.

Lemma map_wf_run (ops : list op) c : map_wf (cache c) -> map_wf (cache (run c ops)).
Proof.
  revert c. induction ops as [|o ops IH]; intros c H; [exact H|].
  simpl. apply IH. now apply map_wf_step.
Qed.

Lemma get_after_set c (now now' : Z) (key : string) (value : T) (customTtl : option Z) :
  now' - now <= match customTtl with Some t => t | None => opt_ttl (options c) end ->
  get (set c now key value customTtl) now' key
  = (Some value, set c now key value customTtl).
Proof.
  intros Hlive. unfold get.
  cbn [set cache with_cache]. rewrite CacheFacts.map_set_get. cbn [timestamp ttl data].
  replace (now' - now >? _) with false; [reflexivity|].
  symmetry. rewrite Z.gtb_ltb. apply Z.ltb_ge. exact Hlive.
Qed.

(** X1.  A value that was set is read back under its key until its ttl
    has passed, whatever the cache held before and whatever its
    capacity is, and the read changes nothing. *)
Theorem set_then_get_returns_value :
  forall c (now now' : Z) (key : string) (value : T) (customTtl : option Z),
    now' - now <= match customTtl with Some t => t | None => opt_ttl (options c) end ->
    get (set c now key value customTtl) now' key
    = (Some value, set c now key value customTtl).
Proof.
  intros c now now' key value customTtl Hlive. now apply get_after_set.
Qed.

(** X2.  After [delete(key)] the key reads as absent at any time, the call
    reports whether it was stored, and no other key is touched. *)
Theorem delete_forgets_only_its_key :
  forall c (key : string),
    (forall now, fst (get (snd (delete c key)) now key) = None) /\
    (fst (delete c key) = true <-> exists e, map_get key (cache c) = Some e) /\
    (forall key', key' <> key ->
       map_get key' (cache (snd (delete c key))) = map_get key' (cache c)).
Proof.
  intros c key. split; [|split].
  - intros now. unfold get, delete. cbn [snd cache with_cache].
    now rewrite CacheFacts.map_delete_get.
  - unfold delete, map_has. cbn [fst].
    destruct (map_get key (cache c)) as [e|]; split; try discriminate.
    + now exists e.
    + reflexivity.
    + intros [e He]. discriminate.
  - intros key' Hne. cbn [delete snd cache with_cache].
    now apply map_get_delete_other.
Qed.

Lemma fold_delete_filter (ks : list string) m :
  fold_left (fun m k => map_delete k m) ks m
  = filter (fun b => negb (JsString.array_includes ks (fst b))) m.
Proof.
  revert m. induction ks as [|k ks IH]; intros m; simpl.
  - induction m as [|b m IHm]; simpl; [reflexivity | now rewrite <- IHm].
  - rewrite IH. unfold map_delete. clear IH.
    unfold JsString.array_includes.
    induction m as [|b m IHm]; [reflexivity|]. cbn [filter existsb].
    destruct (String.eqb (fst b) k); cbn [negb orb filter]; [exact IHm|].
    destruct (existsb (String.eqb (fst b)) ks); cbn [negb]; now rewrite IHm.
Qed.

Lemma expired_keys m now (b : string * CacheEntry T) :
  map_wf m -> In b m ->
  JsString.array_includes (map fst (filter (expired now) m)) (fst b) = expired now b.
Proof.
  intros Hwf Hb. destruct (expired now b) eqn:E.
  - apply JsStringFacts.array_includes_In. apply in_map. now apply filter_In.
  - destruct (JsString.array_includes _ (fst b)) eqn:I; [|reflexivity].
    apply JsStringFacts.array_includes_In in I.
    apply in_map_iff in I as (b' & Hfst & Hb'). apply filter_In in Hb' as [Hb' E'].
    assert (b' = b); [|congruence].
    clear E E'. unfold map_wf in Hwf. induction m as [|x m IH]; [easy|].
    simpl in Hwf. inversion Hwf as [|? ? Hx Hm]; subst.
    destruct Hb as [->|Hb], Hb' as [->|Hb']; auto.
    + exfalso. apply Hx. rewrite <- Hfst. now apply in_map.
    + exfalso. apply Hx. rewrite Hfst. now apply in_map.
Qed.

Lemma map_get_filter (p : string * CacheEntry T -> bool) m key :
  map_wf m ->
  map_get key (filter p m)
  = match map_get key m with
    | Some e => if p (key, e) then Some e else None
    | None => None
    end.
Proof.
  unfold map_wf. induction m as [|[k e] m IH]; simpl; intros Hwf; [reflexivity|].
  inversion Hwf as [|? ? Hk Hm]; subst.
  destruct (String.eqb k key) eqn:E.
  - apply String.eqb_eq in E. subst k.
    destruct (p (key, e)); simpl.
    + now rewrite String.eqb_refl.
    + rewrite (IH Hm). destruct (map_get key m) as [e'|] eqn:G; [|reflexivity].
      exfalso. apply Hk. clear - G.
      induction m as [|[k' e''] m IHm]; [discriminate|]. simpl in *.
      destruct (String.eqb k' key) eqn:E; [apply String.eqb_eq in E; now left|].
      right. now apply IHm.
  - destruct (p (k, e)); simpl; [rewrite E|]; now apply IH.
Qed.

(** X3.  The sweep removes exactly the entries that have expired and keeps
    the others in their order; it changes nothing of what [get] returns
    at that time. *)
Theorem cleanup_removes_exactly_expired :
  forall c (now : Z),
    map_wf (cache c) ->
    cache (cleanup c now) = filter (fun b => negb (expired now b)) (cache c) /\
    (forall key, fst (get (cleanup c now) now key) = fst (get c now key)).
Proof.
  intros c now Hwf.
  assert (Hc : cache (cleanup c now) = filter (fun b => negb (expired now b)) (cache c)).
  { cbn [cleanup cache with_cache]. rewrite fold_delete_filter.
    apply filter_ext_in. intros b Hb. f_equal.
    now apply (expired_keys (cache c) now b Hwf). }
  split; [exact Hc|]. intros key. unfold get. rewrite Hc.
  rewrite map_get_filter by assumption.
  destruct (map_get key (cache c)) as [e|]; [|reflexivity].
  unfold expired. cbn [snd].
  destruct (now - timestamp e >? ttl e) eqn:E; cbn [negb]; [reflexivity|].
  now rewrite E.
Qed.

Lemma map_set_present m key e e' :
  map_get key m = Some e' -> List.length (map_set key e m) = List.length m.
Proof.
  induction m as [|[k e0] m IH]; cbn [map_get map_set]; [discriminate|].
  destruct (String.eqb k key); [reflexivity|].
  intros H. cbn [List.length]. now rewrite IH.
Qed.

Lemma map_get_set_other m key key' e :
  key' <> key -> map_get key' (map_set key e m) = map_get key' m.
Proof.
  intros Hne. induction m as [|[k e0] m IH]; cbn [map_get map_set].
  - replace (String.eqb key key') with false
      by (symmetry; apply String.eqb_neq; congruence).
    reflexivity.
  - destruct (String.eqb k key) eqn:E; cbn [map_get].
    + apply String.eqb_eq in E. subst k.
      replace (String.eqb key key') with false
        by (symmetry; apply String.eqb_neq; congruence).
      reflexivity.
    + destruct (String.eqb k key'); [reflexivity | exact IH].
Qed.

(** X4.  A full cache evicts its oldest entry on every [set], also when
    the key that is set is stored already and no room is needed: the
    update leaves one entry less, and the oldest key is gone. *)
Theorem update_of_full_cache_still_evicts :
  forall c (now : Z) (key : string) (value : T) (customTtl : option Z)
         (k0 : string) (e0 e : CacheEntry T) (rest : JsMap T),
    cache c = (k0, e0) :: rest ->
    map_wf (cache c) ->
    size c >= maxSize (options c) ->
    JsString.truthy k0 = true ->
    map_get key rest = Some e ->
    size (set c now key value customTtl) = size c - 1 /\
    map_get k0 (cache (set c now key value customTtl)) = None /\
    exists ttl, map_get key (cache (set c now key value customTtl))
                = Some (mkEntry value now ttl).
Proof.
  intros c now key value customTtl k0 e0 e rest Hc Hwf Hfull Hk0 Hkey.
  assert (Hfresh : ~ In k0 (map fst rest)).
  { unfold map_wf in Hwf. rewrite Hc in Hwf. cbn [map fst] in Hwf.
    now inversion Hwf. }
  assert (Hne : k0 <> key).
  { intros ->. apply Hfresh. clear - Hkey.
    induction rest as [|[k e'] rest IH]; [discriminate|]. cbn [map_get] in Hkey.
    destruct (String.eqb k key) eqn:E; [apply String.eqb_eq in E; now left|].
    right. now apply IH. }
  assert (Hevict : evict_if_full c = rest).
  { unfold evict_if_full. unfold size in Hfull.
    replace (map_size (cache c) >=? maxSize (options c)) with true
      by (symmetry; apply Z.geb_le; lia).
    rewrite Hc. cbn [map_first_key]. rewrite Hk0.
    unfold map_delete. cbn [filter fst]. rewrite String.eqb_refl. cbn [negb].
    now apply CacheFacts.map_delete_absent. }
  split; [|split].
  - unfold size, map_size. cbn [set cache with_cache]. rewrite Hevict.
    rewrite (map_set_present rest key _ e Hkey). rewrite Hc. cbn [List.length]. lia.
  - cbn [set cache with_cache]. rewrite Hevict.
    rewrite map_get_set_other by congruence.
    destruct (map_get k0 rest) as [e1|] eqn:G; [|reflexivity].
    exfalso. apply Hfresh. clear - G.
    induction rest as [|[k e'] rest IH]; [discriminate|]. cbn [map_get] in G.
    destruct (String.eqb k k0) eqn:E; [apply String.eqb_eq in E; now left|].
    right. now apply IH.
  - eexists. cbn [set cache with_cache]. apply CacheFacts.map_set_get.
Qed.

End Laws.

(** Entries written at times 0 and 40 with a ttl of 50, swept at 60. *)
Lemma cleanup_removes_exactly_expired_witness :
  cache (cleanup (set (set (create server_options) 0 "a" 1 (Some 50)) 40 "b" 2 (Some 50)) 60)
  = [("b", mkEntry 2 40 50)] /\
  fst (get (cleanup (set (set (create server_options) 0 "a" 1 (Some 50)) 40 "b" 2 (Some 50)) 60)
           60 "b") = Some 2.
Proof.
  pose proof (cleanup_removes_exactly_expired
                (set (set (create server_options) 0 "a" 1 (Some 50)) 40 "b" 2 (Some 50)) 60)
    as H.
  destruct H as [Hc Hg].
  - repeat constructor; simpl; intuition discriminate.
  - split; [rewrite Hc; reflexivity | rewrite Hg; reflexivity].
Defined.

(** Two entries in a cache of capacity two; the newer one is set again. *)
Lemma update_of_full_cache_still_evicts_witness :
  size (set (set (set (create (mkOptions 100 2)) 0 "a" 1 None) 1 "b" 2 None) 2 "b" 3 None)
  = size (set (set (create (mkOptions 100 2)) 0 "a" 1 None) 1 "b" 2 None) - 1 /\
  map_get "a" (cache (set (set (set (create (mkOptions 100 2)) 0 "a" 1 None) 1 "b" 2 None)
                          2 "b" 3 None)) = None /\
  exists ttl,
    map_get "b" (cache (set (set (set (create (mkOptions 100 2)) 0 "a" 1 None) 1 "b" 2 None)
                            2 "b" 3 None))
    = Some (mkEntry 3 2 ttl).
Proof.
  apply (update_of_full_cache_still_evicts
           (set (set (create (mkOptions 100 2)) 0 "a" 1 None) 1 "b" 2 None)
           2 "b" 3 None "a" (mkEntry 1 0 100) (mkEntry 2 1 100) [("b", mkEntry 2 1 100)]).
  - reflexivity.
  - repeat constructor; simpl; intuition discriminate.
  - vm_compute. discriminate.
  - reflexivity.
  - reflexivity.
Defined.

(** A value set at time 1000 with the default ttl of five minutes, read
    four minutes later. *)
Lemma set_then_get_returns_value_witness :
  get (set empty_store 1000 "k" (Types.AModule (Rust.introspect serde_deep)) None)
      241000 "k"
  = (Some (Types.AModule (Rust.introspect serde_deep)),
     set empty_store 1000 "k" (Types.AModule (Rust.introspect serde_deep)) None).
Proof.
  apply set_then_get_returns_value. vm_compute. discriminate.
Defined.

Lemma free_of_map (parts : list part) :
  Forall (fun p => free_of ":" (part_to_string p) = true) parts ->
  Forall (fun x => free_of ":" x = true) (map part_to_string (filter is_defined parts)).
Proof.
  intros H. apply Forall_map. apply Forall_forall. intros p Hp.
  apply filter_In in Hp as [Hp _]. rewrite Forall_forall in H. now apply H.
Qed.

(** X5.  A key can be taken apart again: when no argument contains the
    delimiter, splitting the key at the delimiter gives the text of the
    defined arguments, in order. *)
Theorem generateKey_splits_back :
  forall parts : list part,
    Forall (fun p => free_of ":" (part_to_string p) = true) parts ->
    filter is_defined parts <> [] ->
    JsString.split ":" (generateKey parts) = map part_to_string (filter is_defined parts).
Proof.
  intros parts Hfree Hdef. unfold generateKey.
  apply (StringLaws.split_join ":").
  - destruct (filter is_defined parts); [congruence | discriminate].
  - now apply free_of_map.
Qed.

Lemma generateKey_splits_back_witness :
  JsString.split ":" (generateKey [PStr "discover"; PStr "javascript"; PUndefined;
                                   PBool true; PNum 50])
  = ["discover"; "javascript"; "true"; "50"].
Proof.
  apply (generateKey_splits_back [PStr "discover"; PStr "javascript"; PUndefined;
                                  PBool true; PNum 50]).
  - repeat constructor.
  - discriminate.
Defined.

End CacheLaws.

(** ** Laws of the semantic search *)

Module SemanticLaws.

Import Types SemanticSearch Vocabulary.

Lemma fold_left_ge {A : Type} (F : Z -> A -> Z) (l : list A) :
  (forall acc x, In x l -> acc <= F acc x) ->
  forall init, init <= fold_left F l init.
Proof.
  induction l as [|x l IH]; intros HF init; simpl; [lia|].
  apply Z.le_trans with (F init x).
  - apply HF. now left.
  - apply IH. intros acc y Hy. apply HF. now right.
Qed.

Lemma fold_left_add_ge {A : Type} (F : Z -> A -> Z) (k : Z) (l : list A) :
  (forall acc x, In x l -> acc + k <= F acc x) ->
  forall init, init + k * Z.of_nat (List.length l) <= fold_left F l init.
Proof.
  induction l as [|x l IH]; intros HF init; [simpl; lia|].
  cbn [fold_left List.length].
  apply Z.le_trans with (F init x + k * Z.of_nat (List.length l)).
  - specialize (HF init x (or_introl eq_refl)). lia.
  - apply IH. intros acc y Hy. apply HF. now right.
Qed.

Lemma weights_nonneg : Forall (fun c => 0 <= weight c) PACKAGE_CATEGORIES.
Proof.
  unfold PACKAGE_CATEGORIES.
  repeat (apply Forall_cons; [cbn [weight]; lia|]). apply Forall_nil.
Qed.

(** The two loops over the tables never lower the score. *)
Lemma tables_add (q n d : string) (s : Z) :
  s <= fold_left
         (fun score entry =>
            if JsString.includes q (fst entry)
            then if JsString.array_includes (snd entry) n
                 then score + 40 else score
            else score)
         FUNCTIONALITY_MAPPINGS
         (fold_left
            (fun score categoryInfo =>
               let matchingKeywords :=
                 filter (fun keyword =>
                           JsString.includes q keyword ||
                           JsString.includes n keyword ||
                           JsString.includes d keyword)
                        (keywords categoryInfo) in
               if Z.of_nat (List.length matchingKeywords) >? 0
               then score + Z.of_nat (List.length matchingKeywords) * 10 * weight categoryInfo
               else score)
            PACKAGE_CATEGORIES s).
Proof.
  eapply Z.le_trans; [|apply fold_left_ge].
  - apply fold_left_ge. intros acc c Hc. cbv zeta.
    pose proof weights_nonneg as W. rewrite Forall_forall in W. specialize (W c Hc).
    destruct (_ >? 0); [nia | lia].
  - intros acc e _.
    destruct (JsString.includes q (fst e)); [|lia].
    destruct (JsString.array_includes (snd e) n); lia.
Qed.

(** X6.  A score is never negative. *)
Theorem score_is_never_negative :
  forall (query : string) (packageInfo : PackageInfo),
    0 <= calculateSemanticScore query packageInfo.
Proof.
  intros query p. unfold calculateSemanticScore. cbv zeta.
  eapply Z.le_trans; [|apply tables_add].
  eapply Z.le_trans; [|apply fold_left_ge].
  - destruct (String.eqb _ _); destruct (_ || _); lia.
  - intros acc w _.
    destruct (JsString.includes _ w); destruct (existsb _ _); lia.
Qed.

Lemma split_ws_aux_nonempty (s acc : string) (b : bool) :
  JsString.split_ws_aux acc b s <> [].
Proof.
  revert acc b. induction s as [|c s IH]; intros acc b; cbn [JsString.split_ws_aux].
  - discriminate.
  - destruct (JsString.is_space c); [destruct b; [apply IH | discriminate] | apply IH].
Qed.

(** A word of [split(/\s+/)] is a piece of the string: the pending word
    followed by a prefix of the rest, or a run inside the rest. *)
Lemma split_ws_aux_sub (s acc : string) (b : bool) (w : string) :
  (b = true -> acc = EmptyString) ->
  In w (JsString.split_ws_aux acc b s) ->
  (exists s1 s2, s = s1 ++ s2 /\ w = acc ++ s1) \/
  (exists a c, s = a ++ w ++ c).
Proof.
  revert acc b w. induction s as [|ch s IH]; intros acc b w Hb Hw;
    cbn [JsString.split_ws_aux] in Hw.
  - destruct Hw as [<-|[]]. left. exists EmptyString, EmptyString.
    split; [reflexivity | now rewrite JsStringFacts.append_nil_r].
  - assert (Hin : forall x, In x (JsString.split_ws_aux EmptyString true s) ->
                            exists a c, String ch s = a ++ x ++ c).
    { intros x Hx. destruct (IH EmptyString true x (fun _ => eq_refl) Hx)
        as [(s1 & s2 & -> & ->)|(a & c & ->)].
      - exists (String ch EmptyString), s2. reflexivity.
      - exists (String ch a), c. reflexivity. }
    destruct (JsString.is_space ch).
    + destruct b.
      * right. rewrite (Hb eq_refl) in Hw. now apply Hin.
      * destruct Hw as [<-|Hw].
        -- left. exists EmptyString, (String ch s).
           split; [reflexivity | now rewrite JsStringFacts.append_nil_r].
        -- right. now apply Hin.
    + destruct (IH (acc ++ String ch EmptyString) false w ltac:(discriminate) Hw)
        as [(s1 & s2 & -> & ->)|(a & c & ->)].
      * left. exists (String ch s1), s2. split; [reflexivity|].
        now rewrite JsStringFacts.append_assoc.
      * right. exists (String ch a), c. reflexivity.
Qed.

Lemma split_ws_includes (s w : string) :
  In w (JsString.split_ws s) -> JsString.includes s w = true.
Proof.
  intros H. apply JsStringFacts.includes_spec.
  destruct (split_ws_aux_sub s EmptyString false w ltac:(discriminate) H)
    as [(s1 & s2 & -> & ->)|(a & c & ->)].
  - exists EmptyString, s2. reflexivity.
  - now exists a, c.
Qed.

(** X7.  A record whose name is the query, case apart, scores 150 and
    30 more for every word of the query, hence 180 at least. *)
Theorem exact_name_scores_at_least_180 :
  forall (query : string) (packageInfo : PackageInfo),
    JsString.toLowerCase (name packageInfo) = JsString.toLowerCase query ->
    150 + 30 * Z.of_nat (List.length (JsString.split_ws (JsString.toLowerCase query)))
      <= calculateSemanticScore query packageInfo /\
    180 <= calculateSemanticScore query packageInfo.
Proof.
  intros query p Hname.
  assert (Hwords : 150 + 30 * Z.of_nat (List.length
                                          (JsString.split_ws (JsString.toLowerCase query)))
                   <= calculateSemanticScore query p).
  { unfold calculateSemanticScore. cbv zeta. rewrite Hname.
    set (q := JsString.toLowerCase query).
    rewrite String.eqb_refl, StringLaws.includes_refl. cbn [orb].
    eapply Z.le_trans; [|apply tables_add].
    change (0 + 100 + 50) with 150.
    apply fold_left_add_ge.
    intros acc w Hw. rewrite (split_ws_includes q w Hw).
    destruct (existsb _ _); lia. }
  split; [exact Hwords|].
  pose proof (split_ws_aux_nonempty (JsString.toLowerCase query) EmptyString false) as Hne.
  unfold JsString.split_ws in Hwords.
  destruct (JsString.split_ws_aux _ _ _) as [|w ws]; [congruence|].
  cbn [List.length] in Hwords. lia.
Qed.

Lemma exact_name_scores_at_least_180_witness :
  150 + 30 * Z.of_nat (List.length (JsString.split_ws (JsString.toLowerCase "Left-Pad")))
    <= calculateSemanticScore "Left-Pad" (package "left-pad" "1.3.0" None true None) /\
  180 <= calculateSemanticScore "Left-Pad" (package "left-pad" "1.3.0" None true None).
Proof.
  apply exact_name_scores_at_least_180. reflexivity.
Defined.

Lemma description_lowered (p : PackageInfo) :
  JsString.toLowerCase (description_or_empty (lowered p))
  = JsString.toLowerCase (description_or_empty p).
Proof.
  unfold description_or_empty, lowered. cbn [description option_map].
  destruct (description p) as [d|]; [|reflexivity].
  apply StringLaws.toLowerCase_idempotent.
Qed.

(** The score reads the name and the description of a record only. *)
Lemma score_ext (query : string) (p p' : PackageInfo) :
  name p = name p' -> description p = description p' ->
  calculateSemanticScore query p = calculateSemanticScore query p'.
Proof.
  intros Hn Hd. unfold calculateSemanticScore, description_or_empty.
  now rewrite Hn, Hd.
Qed.

(** X8.  The score is blind to case: lowering the query, the name and
    the description changes nothing. *)
Theorem score_ignores_case :
  forall (query : string) (packageInfo : PackageInfo),
    calculateSemanticScore (JsString.toLowerCase query) (lowered packageInfo)
    = calculateSemanticScore query packageInfo.
Proof.
  intros query p. unfold calculateSemanticScore.
  rewrite (description_lowered p). unfold lowered. cbn [name].
  now rewrite !StringLaws.toLowerCase_idempotent.
Qed.

(** The loop of [categorizePackage] over any list of categories: either
    no category beats the initial score, or the result is the first
    category that scores most. *)
Lemma best_fold (h : Category -> Z) (l : list Category) (n0 : string) (s0 : Z) :
  let r := fold_left (fun best c => if h c >? snd best then (cat_name c, h c) else best)
                     l (n0, s0) in
  (r = (n0, s0) /\ forall c, In c l -> h c <= s0) \/
  (exists l1 c l2,
      l = (l1 ++ c :: l2)%list /\ r = (cat_name c, h c) /\ s0 < h c /\
      (forall c', In c' l1 -> h c' < h c) /\
      (forall c', In c' l2 -> h c' <= h c)).
Proof.
  revert n0 s0. induction l as [|c l IH]; intros n0 s0; cbn [fold_left snd].
  - left. split; [reflexivity | intros c []].
  - destruct (h c >? s0) eqn:E.
    + apply Z.gtb_lt in E.
      destruct (IH (cat_name c) (h c)) as [[Hr Hall]|(l1 & c2 & l2 & -> & Hr & Hlt & H1 & H2)].
      * right. exists [], c, l. repeat split; auto. intros c' [].
      * right. exists (c :: l1), c2, l2. repeat split; auto; [lia|].
        intros c' [<-|Hc']; [exact Hlt | now apply H1].
    + assert (h c <= s0) by (rewrite Z.gtb_ltb in E; apply Z.ltb_ge in E; exact E).
      destruct (IH n0 s0) as [[Hr Hall]|(l1 & c2 & l2 & -> & Hr & Hlt & H1 & H2)].
      * left. split; [exact Hr|]. intros c' [<-|Hc']; [assumption | now apply Hall].
      * right. exists (c :: l1), c2, l2. repeat split; auto.
        intros c' [<-|Hc']; [lia | now apply H1].
Qed.

Lemma keyword_hits_nonneg (n d : string) (c : Category) : 0 <= keyword_hits n d c.
Proof.
  unfold keyword_hits. apply fold_left_ge. intros acc k _. cbv zeta.
  destruct (JsString.includes n k); destruct (JsString.includes d k); lia.
Qed.

(** X9.  [categorizePackage] answers with the first category whose
    keywords hit the record most, a hit in the name counting twice; a
    record that no keyword hits is a utility. *)
Theorem categorizePackage_picks_first_best :
  forall packageInfo : PackageInfo,
    ((forall c, In c PACKAGE_CATEGORIES -> hits packageInfo c = 0) /\
     categorizePackage packageInfo = "utility") \/
    (exists l1 c l2,
        PACKAGE_CATEGORIES = (l1 ++ c :: l2)%list /\
        categorizePackage packageInfo = cat_name c /\
        0 < hits packageInfo c /\
        (forall c', In c' l1 -> hits packageInfo c' < hits packageInfo c) /\
        (forall c', In c' l2 -> hits packageInfo c' <= hits packageInfo c)).
Proof.
  intros p.
  assert (E : categorizePackage p
              = fst (fold_left (fun best c => if hits p c >? snd best
                                              then (cat_name c, hits p c) else best)
                               PACKAGE_CATEGORIES ("utility", 0))) by reflexivity.
  rewrite E.
  destruct (best_fold (hits p) PACKAGE_CATEGORIES "utility" 0)
    as [[Hr Hall]|(l1 & c & l2 & Hl & Hr & Hlt & H1 & H2)].
  - left. rewrite Hr. split; [|reflexivity].
    intros c Hc. specialize (Hall c Hc).
    pose proof (keyword_hits_nonneg
                  (JsString.toLowerCase (name p))
                  (JsString.toLowerCase (description_or_empty p)) c).
    unfold hits in *. lia.
  - right. exists l1, c, l2. rewrite Hr. repeat split; auto.
Qed.

Lemma sort_desc_length {A : Type} (l : list (A * Z)) :
  List.length (sort_desc l) = List.length l.
Proof. apply Permutation_length, SearchSpec.sort_desc_perm. Qed.

Lemma slice0_all {A : Type} (n : nat) (l : list A) :
  (List.length l <= n)%nat -> slice0 (Z.of_nat n) l = l.
Proof.
  intros H. unfold slice0.
  replace (Z.of_nat n <? 0) with false by (symmetry; apply Z.ltb_ge; lia).
  rewrite Nat2Z.id. now apply firstn_all2.
Qed.

Lemma In_slice0 {A : Type} (n : Z) (l : list A) (x : A) : In x (slice0 n l) -> In x l.
Proof. unfold slice0. destruct (n <? 0); apply ValidationSpec.In_firstn. Qed.

Lemma slice0_length {A : Type} (n : Z) (l : list A) :
  0 <= n -> Z.of_nat (List.length (slice0 n l)) <= n.
Proof.
  intros H. unfold slice0.
  replace (n <? 0) with false by (symmetry; apply Z.ltb_ge; lia).
  pose proof (firstn_le_length (Z.to_nat n) l).
  rewrite length_firstn. lia.
Qed.

Lemma slice0_nil {A : Type} (n : Z) : slice0 n (@nil A) = [].
Proof. unfold slice0. destruct (n <? 0); apply firstn_nil. Qed.

(** X10.  The cut of a search is a prefix of the full ranking: asking for
    fewer results returns the head of what asking for all of them
    returns, and a negative bound drops that many records from the end.
    A bound that is not negative is kept, and only records of the input
    with a score above zero are returned. *)
Theorem search_cut_is_prefix_of_ranking :
  forall (query : string) (packages : list PackageInfo) (category : string)
         (maxResults : Z),
    searchPackagesSemanticaly query packages category maxResults
    = slice0 maxResults
        (searchPackagesSemanticaly query packages category
                                   (Z.of_nat (List.length packages))) /\
    (0 <= maxResults ->
     Z.of_nat (List.length (searchPackagesSemanticaly query packages category maxResults))
     <= maxResults) /\
    Forall (fun p => In p packages /\ 0 < calculateSemanticScore query p)
           (searchPackagesSemanticaly query packages category maxResults).
Proof.
  intros query packages category maxResults. split; [|split].
  - unfold searchPackagesSemanticaly. cbv zeta.
    set (ranked := sort_desc _).
    rewrite (slice0_all (List.length packages) ranked).
    + symmetry. apply SearchSpec.slice0_map.
    + subst ranked. rewrite sort_desc_length.
      eapply Nat.le_trans; [apply filter_length_le|].
      destruct (negb _).
      * eapply Nat.le_trans; [apply filter_length_le|]. now rewrite length_map.
      * now rewrite length_map.
  - intros H. unfold searchPackagesSemanticaly. cbv zeta.
    rewrite length_map. now apply slice0_length.
  - destruct (SearchSpec.search_ranks query packages category maxResults)
      as (sorted & -> & Hperm & _).
    apply Forall_forall. intros p Hp. apply In_slice0 in Hp.
    apply (Permutation_in _ Hperm) in Hp. apply filter_In in Hp as [Hin Hret].
    split; [exact Hin|].
    unfold retained in Hret. apply andb_true_iff in Hret as [_ Hpos].
    apply Z.gtb_lt in Hpos. lia.
Qed.

Lemma category_keywords_unknown (category : string) :
  ~ In category category_names -> category_keywords category = [].
Proof.
  unfold category_names, category_keywords. intros H.
  destruct (find _ PACKAGE_CATEGORIES) as [c|] eqn:E; [|reflexivity].
  apply find_some in E as [Hc Hn]. apply String.eqb_eq in Hn. subst category.
  exfalso. apply H. now apply in_map.
Qed.

(** X11.  A category that is neither [all] nor one of the six names
    filters everything out: the search returns no record. *)
Theorem unknown_category_finds_nothing :
  forall (query : string) (packages : list PackageInfo) (category : string)
         (maxResults : Z),
    category <> "all" ->
    ~ In category category_names ->
    searchPackagesSemanticaly query packages category maxResults = [].
Proof.
  intros query packages category maxResults Hall Hunknown.
  unfold searchPackagesSemanticaly. cbv zeta.
  replace (String.eqb category "all") with false
    by (symmetry; now apply String.eqb_neq).
  cbn [negb]. rewrite (category_keywords_unknown category Hunknown). cbn [existsb].
  replace (filter (fun _ => false) _) with (@nil (PackageInfo * Z)).
  - cbn [filter sort_desc fold_right]. now rewrite slice0_nil.
  - symmetry. induction (map _ packages) as [|x l IH]; [reflexivity | exact IH].
Qed.

Lemma unknown_category_finds_nothing_witness :
  searchPackagesSemanticaly "http client" [package "axios" "1.6.0" None true None]
                            "frontend" 20 = [].
Proof.
  apply unknown_category_finds_nothing.
  - discriminate.
  - vm_compute. intuition discriminate.
Defined.

Lemma mkSet_aux_In (l seen : list string) (x : string) :
  In x (mkSet_aux seen l) <-> In x l /\ ~ In x seen.
Proof.
  revert seen. induction l as [|y l IH]; intros seen; cbn [mkSet_aux].
  - split; [intros [] | intros [[] _]].
  - destruct (JsString.array_includes seen y) eqn:E.
    + apply JsStringFacts.array_includes_In in E. rewrite IH. split.
      * intros [H1 H2]. split; [now right | exact H2].
      * intros [[<-|H1] H2]; [contradiction | now split].
    + assert (Hy : ~ In y seen).
      { intros H. apply JsStringFacts.array_includes_In in H. congruence. }
      split.
      * intros [<-|H]; [split; [now left | exact Hy]|].
        apply IH in H as [H1 H2]. split; [now right|].
        intros H3. apply H2. now right.
      * intros [[<-|H1] H2]; [now left|].
        destruct (string_dec y x) as [->|Hne]; [now left|].
        right. apply IH. split; [exact H1|]. intros [H3|H3]; contradiction.
Qed.

Lemma mkSet_aux_NoDup (l seen : list string) : NoDup (mkSet_aux seen l).
Proof.
  revert seen. induction l as [|y l IH]; intros seen; cbn [mkSet_aux]; [constructor|].
  destruct (JsString.array_includes seen y); [apply IH|].
  constructor; [|apply IH]. intros H. apply mkSet_aux_In in H as [_ H].
  apply H. now left.
Qed.

(** The phrases of the mapping are pairwise distinct. *)
Lemma phrases_are_distinct : NoDup (map fst FUNCTIONALITY_MAPPINGS).
Proof.
  replace (map fst FUNCTIONALITY_MAPPINGS)
    with (mkSet_aux [] (map fst FUNCTIONALITY_MAPPINGS))
    by (vm_compute; reflexivity).
  apply mkSet_aux_NoDup.
Qed.

Lemma In_lookup {A : Type} (k : string) (t : list (string * A)) (v : A) :
  NoDup (map fst t) -> In (k, v) t -> Builtin.lookup k t = Some v.
Proof.
  induction t as [|[k' v'] t IH]; cbn [Builtin.lookup map fst]; [intros _ []|].
  intros Hd [H|H].
  - injection H as -> ->. now rewrite String.eqb_refl.
  - inversion Hd as [|? ? Hk Ht]; subst.
    destruct (String.eqb k' k) eqn:E; [|now apply IH].
    apply String.eqb_eq in E. subst k'. elim Hk.
    apply in_map_iff. now exists (k, v).
Qed.

Lemma lookup_absent {A : Type} (k : string) (t : list (string * A)) :
  ~ In k (map fst t) -> Builtin.lookup k t = None.
Proof.
  induction t as [|[k' v'] t IH]; cbn [Builtin.lookup map fst]; [reflexivity|].
  intros H. destruct (String.eqb k' k) eqn:E.
  - apply String.eqb_eq in E. elim H. now left.
  - apply IH. intros H'. apply H. now right.
Qed.

(** X12.  What [getPackageSuggestions] answers, whatever the case of the
    text.  When the lowered text is a phrase of the mapping, the answer
    is the package list of that phrase.  When it is [constructor] or
    [__proto__], names that the mapping object inherits, the answer is
    the inherited value and no list.  In every other case the answer is
    a list that holds, each once, exactly the packages of the phrases
    that contain the lowered text or that it contains. *)
Theorem suggestions_are_mapped_packages :
  forall functionality : string,
    (forall l : list string,
        In (JsString.toLowerCase functionality, l) FUNCTIONALITY_MAPPINGS ->
        getPackageSuggestions functionality = PackageList l) /\
    (In (JsString.toLowerCase functionality) inherited_lowercase ->
     getPackageSuggestions functionality
     = Inherited (JsString.toLowerCase functionality)) /\
    (~ In (JsString.toLowerCase functionality) (map fst FUNCTIONALITY_MAPPINGS) ->
     ~ In (JsString.toLowerCase functionality) inherited_lowercase ->
     exists l : list string,
       getPackageSuggestions functionality = PackageList l /\
       NoDup l /\
       forall x, In x l <->
                 exists entry, In entry FUNCTIONALITY_MAPPINGS /\
                               related (JsString.toLowerCase functionality) entry = true /\
                               In x (snd entry)).
Proof.
  intros f. unfold getPackageSuggestions. cbv zeta. split; [|split].
  - intros l Hl. now rewrite (In_lookup _ _ l phrases_are_distinct Hl).
  - intros H.
    assert (Hn : Builtin.lookup (JsString.toLowerCase f) FUNCTIONALITY_MAPPINGS = None).
    { destruct H as [<-|[<-|[]]]; vm_compute; reflexivity. }
    rewrite Hn. apply JsStringFacts.array_includes_In in H. now rewrite H.
  - intros Hp Hi. rewrite (lookup_absent _ _ Hp).
    destruct (JsString.array_includes inherited_lowercase _) eqn:I.
    + apply JsStringFacts.array_includes_In in I. contradiction.
    + eexists. split; [reflexivity|]. split; [apply mkSet_aux_NoDup|].
      intros x. unfold mkSet. rewrite mkSet_aux_In, in_flat_map. split.
      * intros [(e & He & Hx) _]. apply filter_In in He as [He Hr]. now exists e.
      * intros (e & He & Hr & Hx). split; [|intros []].
        exists e. split; [apply filter_In; now split | exact Hx].
Qed.

Lemma categorize_ext (p p' : PackageInfo) :
  name p = name p' -> description p = description p' ->
  categorizePackage p = categorizePackage p'.
Proof.
  intros Hn Hd. unfold categorizePackage, description_or_empty.
  now rewrite Hn, Hd.
Qed.

(** X13.  Annotating a record changes neither its score nor its
    category, so that annotating twice is annotating once. *)
Theorem enhancePackageInfo_is_idempotent :
  forall (packageInfo : PackageInfo) (query : option string),
    (forall q, calculateSemanticScore q (enhancePackageInfo packageInfo query)
               = calculateSemanticScore q packageInfo) /\
    categorizePackage (enhancePackageInfo packageInfo query)
    = categorizePackage packageInfo /\
    enhancePackageInfo (enhancePackageInfo packageInfo query) query
    = enhancePackageInfo packageInfo query.
Proof.
  intros p query.
  assert (Hs : forall q, calculateSemanticScore q (enhancePackageInfo p query)
                         = calculateSemanticScore q p).
  { intros q. apply score_ext; reflexivity. }
  assert (Hc : categorizePackage (enhancePackageInfo p query) = categorizePackage p).
  { apply categorize_ext; reflexivity. }
  split; [exact Hs|]. split; [exact Hc|].
  unfold enhancePackageInfo at 1. cbv zeta. rewrite Hc.
  destruct query as [q|].
  - rewrite (Hs q). unfold enhancePackageInfo.
    destruct (JsString.truthy q); reflexivity.
  - reflexivity.
Qed.

End SemanticLaws.

(** ** Laws of the built-in module table *)

Module BuiltinLaws.

Import Builtin.

Lemma replace_first_eq (pat rep s : string) :
  replace_first pat rep s
  = if prefix pat s
    then rep ++ substring (String.length pat) (String.length s - String.length pat) s
    else match s with
         | EmptyString => EmptyString
         | String c s' => String c (replace_first pat rep s')
         end.
Proof. destruct s; reflexivity. Qed.

(** Replacing a prefix by nothing leaves what follows it. *)
Lemma replace_first_prefix (pat s : string) :
  replace_first pat EmptyString (pat ++ s) = s.
Proof.
  rewrite replace_first_eq, JsStringFacts.prefix_app.
  rewrite RegexFacts.length_append.
  replace (String.length pat + String.length s - String.length pat)%nat
    with (String.length s) by lia.
  rewrite RegexFacts.substring_skip. cbn [append]. apply RegexFacts.substring_all.
Qed.

(** A bare name whose prefixed form is listed holds no [node:] itself. *)
Lemma bare_names_are_clean :
  forallb (fun m => negb (isNodeBuiltinModule ("node:" ++ m)) ||
                    String.eqb (replace_first "node:" EmptyString m) m)
          NODE_BUILTIN_MODULES = true.
Proof. vm_compute. reflexivity. Qed.

(** X14.  A built-in module is described alike under its bare name and
    under its [node:] name: the prefix is taken off before the
    description and the category are looked up. *)
Theorem prefixed_builtin_is_described_alike :
  forall moduleName : string,
    isNodeBuiltinModule moduleName = true ->
    isNodeBuiltinModule ("node:" ++ moduleName) = true ->
    info_description (getBuiltinModuleInfo ("node:" ++ moduleName))
    = info_description (getBuiltinModuleInfo moduleName) /\
    info_category (getBuiltinModuleInfo ("node:" ++ moduleName))
    = info_category (getBuiltinModuleInfo moduleName).
Proof.
  intros m Hbare Hprefixed.
  assert (Hclean : replace_first "node:" EmptyString m = m).
  { pose proof bare_names_are_clean as H. rewrite forallb_forall in H.
    apply JsStringFacts.array_includes_In in Hbare. specialize (H m Hbare).
    rewrite Hprefixed in H. cbn [negb orb] in H. now apply String.eqb_eq. }
  unfold getBuiltinModuleInfo. rewrite Hbare, Hprefixed. cbn [negb].
  cbv zeta. rewrite (replace_first_prefix "node:" m), Hclean.
  cbn [info_description info_category]. split; reflexivity.
Qed.

Lemma prefixed_builtin_is_described_alike_witness :
  info_description (getBuiltinModuleInfo ("node:" ++ "fs"))
  = info_description (getBuiltinModuleInfo "fs") /\
  info_category (getBuiltinModuleInfo ("node:" ++ "fs"))
  = info_category (getBuiltinModuleInfo "fs").
Proof.
  apply prefixed_builtin_is_described_alike; reflexivity.
Defined.

Lemma lookup_group_push (k category moduleName : string) (categories : Groups) :
  lookup k (group_push category moduleName categories)
  = if String.eqb category k
    then Some (group k categories ++ [moduleName])%list
    else lookup k categories.
Proof.
  unfold group. induction categories as [|[c ms] rest IH]; cbn [group_push lookup].
  - destruct (String.eqb category k); reflexivity.
  - destruct (String.eqb c category) eqn:E; cbn [lookup].
    + apply String.eqb_eq in E. subst c.
      destruct (String.eqb category k); reflexivity.
    + destruct (String.eqb c k) eqn:E'; [|exact IH].
      apply String.eqb_eq in E'. subst c. now rewrite String.eqb_sym, E.
Qed.

Lemma keys_group_push (category moduleName : string) (categories : Groups) :
  map fst (group_push category moduleName categories)
  = if JsString.array_includes (map fst categories) category
    then map fst categories
    else (map fst categories ++ [category])%list.
Proof.
  unfold JsString.array_includes.
  induction categories as [|[c ms] rest IH]; cbn [group_push map fst existsb]; [reflexivity|].
  rewrite (String.eqb_sym category c).
  destruct (String.eqb c category); cbn [map fst orb]; [reflexivity|].
  rewrite IH. now destruct (existsb _ _).
Qed.

Section Grouping.
Variable category_of : string -> string.

Lemma group_fold (modules : list string) (categories : Groups) (k : string) :
  group k (fold_left (fun categories m => group_push (category_of m) m categories)
                     modules categories)
  = (group k categories
     ++ filter (fun m => String.eqb (category_of m) k) modules)%list.
Proof.
  revert categories. induction modules as [|m modules IH]; intros categories;
    cbn [fold_left filter].
  - now rewrite app_nil_r.
  - rewrite IH. unfold group at 1. rewrite lookup_group_push.
    destruct (String.eqb (category_of m) k).
    + now rewrite <- app_assoc.
    + reflexivity.
Qed.

Lemma keys_fold (modules : list string) (categories : Groups) :
  NoDup (map fst categories) ->
  NoDup (map fst (fold_left (fun categories m => group_push (category_of m) m categories)
                            modules categories)) /\
  forall k, In k (map fst (fold_left
                             (fun categories m => group_push (category_of m) m categories)
                             modules categories)) <->
            In k (map fst categories) \/ exists m, In m modules /\ category_of m = k.
Proof.
  revert categories. induction modules as [|m modules IH]; intros categories Hnd;
    cbn [fold_left].
  - split; [exact Hnd|]. intros k. split; [now left|].
    intros [H|(m & [] & _)]. exact H.
  - assert (Hkeys := keys_group_push (category_of m) m categories).
    destruct (JsString.array_includes (map fst categories) (category_of m)) eqn:E.
    + apply JsStringFacts.array_includes_In in E.
      destruct (IH (group_push (category_of m) m categories)) as [H1 H2];
        [now rewrite Hkeys|].
      split; [exact H1|]. intros k. rewrite H2, Hkeys. split.
      * intros [H|(m' & Hm' & Hc)]; [now left|].
        right. exists m'. split; [now right | exact Hc].
      * intros [H|(m' & [<-|Hm'] & Hc)]; [now left | left; now rewrite <- Hc |].
        right. now exists m'.
    + assert (Hnew : ~ In (category_of m) (map fst categories)).
      { intros H. apply JsStringFacts.array_includes_In in H. congruence. }
      destruct (IH (group_push (category_of m) m categories)) as [H1 H2].
      { rewrite Hkeys. apply NoDup_app; [exact Hnd | repeat constructor; intros [] |].
        intros x Hx [<-|[]]. contradiction. }
      split; [exact H1|]. intros k. rewrite H2, Hkeys, in_app_iff. split.
      * intros [[H|[<-|[]]]|(m' & Hm' & Hc)];
          [now left | right; exists m; split; [now left | reflexivity] |].
        right. exists m'. split; [now right | exact Hc].
      * intros [H|(m' & [<-|Hm'] & Hc)];
          [left; now left | left; right; left; exact Hc |].
        right. now exists m'.
Qed.

End Grouping.

(** X15.  The grouping files every module under its category, keeps the
    modules of a category in their order, and has one key for each
    category that occurs and no other. *)
Theorem grouping_is_a_partition :
  forall modules : list string,
    (forall category,
        group category (group_by_category modules)
        = filter (fun m => String.eqb (category_or_other m) category) modules) /\
    NoDup (map fst (group_by_category modules)) /\
    (forall category,
        In category (map fst (group_by_category modules)) <->
        exists m, In m modules /\ category_or_other m = category).
Proof.
  intros modules. unfold group_by_category. split; [|split].
  - intros category. apply (group_fold category_or_other modules [] category).
  - apply (keys_fold category_or_other modules []). constructor.
  - intros category.
    destruct (keys_fold category_or_other modules [] (NoDup_nil _)) as [_ H].
    rewrite (H category). split; [intros [[]|H']; exact H' | now right].
Qed.

End BuiltinLaws.

(** ** Laws of the engines *)

Module EngineLaws.

Import Types Common Factory Vocabulary.

(** *** The bound of [discoverPackages] *)

Lemma collect_length {A : Type} (mk : A -> PackageInfo) (key : A -> string)
      (searchTerm : option string) (maxResults : Z) (deps : list A) :
  forall packages,
    Z.of_nat (List.length packages) < maxResults ->
    Z.of_nat (List.length (collect mk key searchTerm maxResults deps packages))
    <= maxResults.
Proof.
  induction deps as [|dep deps IH]; intros packages H; cbn [collect]; [lia|].
  destruct (filtered_out searchTerm (key dep)); [now apply IH|].
  destruct (_ >=? maxResults) eqn:E.
  - rewrite length_app in *. cbn [List.length] in *. lia.
  - apply IH. rewrite Z.geb_leb in E. apply Z.leb_gt in E. exact E.
Qed.

Lemma add_stdlib_length (registry : list string) (what : string)
      (searchTerm : option string) (maxResults : Z) (packages : list PackageInfo) :
  Z.of_nat (List.length packages) <= maxResults ->
  Z.of_nat (List.length (add_stdlib registry what searchTerm maxResults packages))
  <= maxResults.
Proof.
  intros H. unfold add_stdlib.
  destruct (_ <? maxResults) eqn:E; [|exact H].
  apply Z.ltb_lt in E. rewrite length_app.
  pose proof (SemanticLaws.slice0_length
                (maxResults - Z.of_nat (List.length packages))
                (getStandardLibraryMatches registry what
                                           (or_default searchTerm EmptyString))).
  lia.
Qed.

Lemma gather_length (ws : Worlds) (l : Language) (input : DiscoverPackagesInput) :
  1 <= d_maxResults input ->
  Z.of_nat (List.length (gather ws l input)) <= d_maxResults input.
Proof.
  intros H.
  assert (Hnil : Z.of_nat (List.length (@nil PackageInfo)) < d_maxResults input)
    by (cbn [List.length]; lia).
  destruct l; cbn [gather].
  - unfold JavaScript.gather.
    assert (Hglobal : forall packages,
               Z.of_nat (List.length packages) <= d_maxResults input ->
               Z.of_nat (List.length
                           (if Z.of_nat (List.length packages) <? d_maxResults input
                            then (packages ++
                                  JavaScript.getGlobalPackages
                                    (js ws) (d_searchTerm input)
                                    (d_maxResults input - Z.of_nat (List.length packages)))%list
                            else packages))
               <= d_maxResults input).
    { intros packages Hp. destruct (_ <? d_maxResults input) eqn:E; [|exact Hp].
      apply Z.ltb_lt in E. rewrite length_app. unfold JavaScript.getGlobalPackages.
      destruct (JavaScript.npm_global (js ws)) as [deps|]; [|cbn [List.length]; lia].
      match goal with
      | |- context [collect ?mk ?key ?t ?n ?d []] =>
          pose proof (collect_length mk key t n d [])
      end.
      cbn [List.length] in *. lia. }
    destruct (JavaScript.manifest (js ws)) as [| |root deps devDeps].
    + apply Hglobal. cbn [List.length]. lia.
    + cbn [List.length]. lia.
    + apply Hglobal. now apply collect_length.
  - unfold Python.gather. apply add_stdlib_length.
    apply SemanticLaws.slice0_length. lia.
  - unfold Rust.gather. apply add_stdlib_length.
    destruct (Rust.cargo (rs ws)); [now apply collect_length | cbn [List.length]; lia].
  - unfold Go.gather. apply add_stdlib_length.
    destruct (Go.go_mod (gl ws)); [now apply collect_length | cbn [List.length]; lia].
  - unfold Java.gather. apply add_stdlib_length.
    destruct (Java.build_file (jv ws)); [now apply collect_length | cbn [List.length]; lia].
Qed.

Lemma discover_is_discovery (ws : Worlds) (l : Language) (now : Z)
      (input : DiscoverPackagesInput) :
  discover ws l now input
  = discovery l now (d_searchTerm input) (d_maxResults input) (gather ws l input).
Proof. destruct l; reflexivity. Qed.

(** X16.  With a whole number of at least one for a bound, no engine
    gathers more packages than the bound: the result holds all that was
    gathered, and [totalFound] is the number of packages returned.  The
    bound is an integer here, as everywhere in this embedding; a bound
    with a fraction, which the schema of the tool lets through, is
    outside it. *)
Theorem discovery_respects_bound :
  forall (ws : Worlds) (l : Language) (now : Z) (input : DiscoverPackagesInput),
    1 <= d_maxResults input ->
    packages (discover ws l now input) = gather ws l input /\
    totalFound (discover ws l now input)
    = Z.of_nat (List.length (packages (discover ws l now input))) /\
    totalFound (discover ws l now input) <= d_maxResults input.
Proof.
  intros ws l now input H. rewrite discover_is_discovery.
  pose proof (gather_length ws l input H) as Hlen.
  unfold discovery. cbn [packages totalFound].
  assert (Hall : slice0 (d_maxResults input) (gather ws l input) = gather ws l input).
  { unfold slice0.
    replace (d_maxResults input <? 0) with false by (symmetry; apply Z.ltb_ge; lia).
    apply firstn_all2. lia. }
  rewrite Hall. repeat split. exact Hlen.
Qed.

Lemma discovery_respects_bound_witness :
  packages (discover Examples.worlds rust 0 (mkDiscoverInput rust (Some "req") true 3))
  = gather Examples.worlds rust (mkDiscoverInput rust (Some "req") true 3) /\
  totalFound (discover Examples.worlds rust 0 (mkDiscoverInput rust (Some "req") true 3))
  = Z.of_nat (List.length
                (packages (discover Examples.worlds rust 0
                                    (mkDiscoverInput rust (Some "req") true 3)))) /\
  totalFound (discover Examples.worlds rust 0 (mkDiscoverInput rust (Some "req") true 3))
  <= d_maxResults (mkDiscoverInput rust (Some "req") true 3).
Proof.
  apply discovery_respects_bound. cbn [d_maxResults]. lia.
Defined.

(** *** The search term of [discoverPackages] *)

Lemma toLowerCase_app (a b : string) :
  JsString.toLowerCase (a ++ b) = JsString.toLowerCase a ++ JsString.toLowerCase b.
Proof. induction a as [|c a IH]; cbn [append JsString.toLowerCase]; congruence. Qed.

Lemma includes_lower (s t : string) :
  JsString.includes s t = true ->
  JsString.includes (JsString.toLowerCase s) (JsString.toLowerCase t) = true.
Proof.
  intros H. apply JsStringFacts.includes_spec in H as (a & b & ->).
  apply JsStringFacts.includes_spec.
  exists (JsString.toLowerCase a), (JsString.toLowerCase b).
  now rewrite !toLowerCase_app.
Qed.

Lemma Forall_slice0 {A : Type} (P : A -> Prop) (n : Z) (l : list A) :
  Forall P l -> Forall P (slice0 n l).
Proof.
  intros H. apply Forall_forall. intros x Hx. apply SemanticLaws.In_slice0 in Hx.
  rewrite Forall_forall in H. now apply H.
Qed.

Section Term.
Variable t : string.
Hypothesis t_truthy : JsString.truthy t = true.

Lemma collect_term {A : Type} (mk : A -> PackageInfo) (key : A -> string)
      (maxResults : Z) (deps : list A) :
  (forall dep, name (mk dep) = key dep) ->
  forall packages,
    Forall (fun p => term_in_name t p = true) packages ->
    Forall (fun p => term_in_name t p = true)
           (collect mk key (Some t) maxResults deps packages).
Proof.
  intros Hmk. induction deps as [|dep deps IH]; intros packages H; cbn [collect];
    [exact H|].
  destruct (filtered_out (Some t) (key dep)) eqn:E; [now apply IH|].
  assert (H' : Forall (fun p => term_in_name t p = true) (packages ++ [mk dep])).
  { apply Forall_app. split; [exact H|]. constructor; [|constructor].
    unfold term_in_name. rewrite Hmk. unfold filtered_out in E.
    rewrite t_truthy in E. cbn [andb] in E. now apply negb_false_iff in E. }
  destruct (_ >=? maxResults); [exact H' | now apply IH].
Qed.

Lemma stdlib_term (registry : list string) (what : string) :
  Forall (fun p => term_in_name t p = true)
         (getStandardLibraryMatches registry what t).
Proof.
  unfold getStandardLibraryMatches. rewrite t_truthy. cbn [negb].
  apply Forall_map, Forall_forall. intros m Hm. apply filter_In in Hm as [_ Hm].
  unfold term_in_name, package. cbn [name].
  rewrite <- (StringLaws.toLowerCase_idempotent t). now apply includes_lower.
Qed.

Lemma add_stdlib_term (registry : list string) (what : string) (maxResults : Z)
      (packages : list PackageInfo) :
  Forall (fun p => term_in_name t p = true) packages ->
  Forall (fun p => term_in_name t p = true)
         (add_stdlib registry what (Some t) maxResults packages).
Proof.
  intros H. unfold add_stdlib. destruct (_ <? maxResults); [|exact H].
  apply Forall_app. split; [exact H|]. apply Forall_slice0.
  unfold or_default. rewrite t_truthy. apply stdlib_term.
Qed.

Lemma gather_term (ws : Worlds) (l : Language) (input : DiscoverPackagesInput) :
  d_searchTerm input = Some t ->
  Forall (fun p => term_in_name t p = true) (gather ws l input).
Proof.
  intros Ht. destruct l; cbn [gather].
  - unfold JavaScript.gather. rewrite Ht.
    assert (Hglobal : forall packages,
               Forall (fun p => term_in_name t p = true) packages ->
               Forall (fun p => term_in_name t p = true)
                      (if Z.of_nat (List.length packages) <? d_maxResults input
                       then (packages ++
                             JavaScript.getGlobalPackages
                               (js ws) (Some t)
                               (d_maxResults input - Z.of_nat (List.length packages)))%list
                       else packages)).
    { intros packages Hp. destruct (_ <? d_maxResults input); [|exact Hp].
      apply Forall_app. split; [exact Hp|]. unfold JavaScript.getGlobalPackages.
      destruct (JavaScript.npm_global (js ws)) as [deps|]; [|constructor].
      apply collect_term; [reflexivity | constructor]. }
    destruct (JavaScript.manifest (js ws)) as [| |root deps devDeps].
    + apply Hglobal. constructor.
    + constructor.
    + apply Hglobal. apply collect_term; [|constructor].
      intros dep. unfold JavaScript.getPackageInfo.
      now destruct (JavaScript.installed_manifest (js ws) root (fst dep)).
  - unfold Python.gather. rewrite Ht, t_truthy. apply add_stdlib_term.
    apply Forall_slice0. apply Forall_forall. intros p Hp.
    apply filter_In in Hp as [Hin Hp]. unfold Python.matches_term in Hp.
    assert (Hd : description p = None).
    { unfold Python.getInstalledPackages in Hin.
      destruct (Python.pip_list (py ws)) as [pip|];
        [|destruct (Python.conda_list (py ws)) as [conda|]; [|destruct Hin]];
        apply in_map_iff in Hin as (x & <- & _); reflexivity. }
    rewrite Hd, orb_false_r in Hp. exact Hp.
  - unfold Rust.gather. rewrite Ht. apply add_stdlib_term.
    destruct (Rust.cargo (rs ws)); [|constructor].
    apply collect_term; [reflexivity | constructor].
  - unfold Go.gather. rewrite Ht. apply add_stdlib_term.
    destruct (Go.go_mod (gl ws)); [|constructor].
    apply collect_term; [reflexivity | constructor].
  - unfold Java.gather. rewrite Ht. apply add_stdlib_term.
    destruct (Java.build_file (jv ws)); [|constructor].
    apply collect_term; [reflexivity | constructor].
Qed.

End Term.

(** X17.  With a search term that is not empty, every package that an
    engine discovers has the term in its name, case apart. *)
Theorem discovered_names_contain_term :
  forall (ws : Worlds) (l : Language) (now : Z) (input : DiscoverPackagesInput)
         (t : string),
    d_searchTerm input = Some t ->
    JsString.truthy t = true ->
    Forall (fun p => term_in_name t p = true) (packages (discover ws l now input)).
Proof.
  intros ws l now input t Ht Htruthy. rewrite discover_is_discovery.
  unfold discovery. cbn [packages]. apply Forall_slice0.
  now apply gather_term.
Qed.

Lemma discovered_names_contain_term_witness :
  Forall (fun p => term_in_name "REQ" p = true)
         (packages (discover Examples.worlds rust 0
                             (mkDiscoverInput rust (Some "REQ") true 3))).
Proof.
  apply discovered_names_contain_term; reflexivity.
Defined.

(** *** Reading through the cache *)

Lemma read_through_twice (key : string) (compute compute' : Store -> Any * Store)
      (now now' : Z) (c : Store) :
  (forall c', Cache.options (snd (compute c')) = Cache.options c') ->
  fst (Cache.get c now key) = None ->
  now' - now <= Cache.opt_ttl (Cache.options c) ->
  read_through key compute' now' (snd (read_through key compute now c))
  = read_through key compute now c.
Proof.
  intros Hc Hmiss Hlive. unfold read_through at 2 3.
  pose proof (StoreFacts.get_options c now key) as Hg.
  destruct (Cache.get c now key) as [[cached|] c']; cbn [fst snd] in *; [discriminate|].
  specialize (Hc c'). destruct (compute c') as [result c'']. cbn [snd] in *.
  unfold remember, read_through. cbn [snd].
  rewrite (CacheLaws.get_after_set c'' now now' key result None); [reflexivity|].
  congruence.
Qed.

(** X18.  A request that missed the cache is answered from the cache when
    it is repeated before the ttl has passed: the second call returns
    the first result and leaves the store as the first call left it. *)
Theorem repeated_request_is_served_from_cache :
  forall (ws : Worlds) (l : Language) (r : Request) (now now' : Z) (c : Store),
    fst (Cache.get c now (request_key l r)) = None ->
    now' - now <= Cache.opt_ttl (Cache.options c) ->
    call (engine ws l) now' (snd (call (engine ws l) now c r)) r
    = call (engine ws l) now c r.
Proof.
  intros ws l r now now' c Hmiss Hlive.
  destruct (StoreFacts.call_is_read_through ws l r) as (compute & Hcall & Hopt & _).
  rewrite !Hcall. apply read_through_twice; auto.
Qed.

Lemma repeated_request_is_served_from_cache_witness :
  call (engine Examples.worlds javascript) 200000
       (snd (call (engine Examples.worlds javascript) 0 Examples.empty_store
                  (Search Examples.vitest_query)))
       (Search Examples.vitest_query)
  = call (engine Examples.worlds javascript) 0 Examples.empty_store
         (Search Examples.vitest_query).
Proof.
  apply repeated_request_is_served_from_cache.
  - reflexivity.
  - vm_compute. discriminate.
Defined.

(** *** The outcome of a validation *)

Ltac outcome :=
  cbn [valid packageName reason suggestions unparsed JsString.truthy];
  repeat split; try discriminate; try reflexivity; eauto.

(** X19.  The outcome of a validation is well formed in every engine:
    the package name is never empty; a valid outcome carries no
    suggestions; an invalid outcome carries a reason and a list of
    suggestions, which may be empty. *)
Theorem validation_outcome_is_well_formed :
  forall (ws : Worlds) (l : Language) (input : ValidateImportInput),
    JsString.truthy (packageName (validate ws l input)) = true /\
    (valid (validate ws l input) = true ->
     suggestions (validate ws l input) = None) /\
    (valid (validate ws l input) = false ->
     (exists why, reason (validate ws l input) = Some why) /\
     (exists names, suggestions (validate ws l input) = Some names)).
Proof.
  intros ws l input. destruct l; cbn [validate].
  - unfold JavaScript.validate.
    destruct (JavaScript.extractPackageNameFromImport _) as [n|]; [|outcome].
    destruct (JsString.truthy n) eqn:T; cbn [negb]; [|outcome].
    destruct (JavaScript.checkPackageExists _ _ _); cbn [valid packageName reason suggestions];
      rewrite T; outcome.
  - unfold Python.validate.
    destruct (Python.extractPackageNameFromImport _) as [n|]; [|outcome].
    destruct (JsString.truthy n) eqn:T; cbn [negb]; [|outcome].
    destruct (set_has _ n); [cbn [valid packageName reason suggestions]; rewrite T; outcome|].
    destruct (Python.checkPackageInstalled _ n);
      cbn [valid packageName reason suggestions]; rewrite T; outcome.
  - unfold Rust.validate.
    destruct (Rust.extractPackageNameFromImport _) as [n|]; [|outcome].
    destruct (JsString.truthy n) eqn:T; cbn [negb]; [|outcome].
    destruct (Rust.isStandardLibraryModule n);
      [cbn [valid packageName reason suggestions]; rewrite T; outcome|].
    destruct (Rust.checkPackageInCargo _ n);
      cbn [valid packageName reason suggestions]; rewrite T; outcome.
  - unfold Go.validate.
    destruct (Go.extractPackageNameFromImport _) as [n|]; [|outcome].
    destruct (JsString.truthy n) eqn:T; cbn [negb]; [|outcome].
    destruct (set_has _ n); [cbn [valid packageName reason suggestions]; rewrite T; outcome|].
    destruct (Go.checkPackageInGoMod _ n);
      cbn [valid packageName reason suggestions]; rewrite T; outcome.
  - unfold Java.validate.
    destruct (Java.extractPackageNameFromImport _) as [n|]; [|outcome].
    destruct (JsString.truthy n) eqn:T; cbn [negb]; [|outcome].
    destruct (Java.isStandardLibraryPackage n);
      [cbn [valid packageName reason suggestions]; rewrite T; outcome|].
    destruct (Java.checkPackageInBuildFile _ n);
      cbn [valid packageName reason suggestions]; rewrite T; outcome.
Qed.

(** X20.  The JavaScript engine does not read the project manifest to
    decide on an import: with another [package.json], or none, the
    verdict, the name, the path and the reason are the same, and a
    valid outcome is the same outcome.  Only the suggestions of a
    failing import come from the manifest. *)
Theorem javascript_verdict_ignores_manifest :
  forall (w : JavaScript.World) (m : JavaScript.ManifestRead)
         (input : ValidateImportInput),
    valid (JavaScript.validate (JavaScript.with_manifest w m) input)
    = valid (JavaScript.validate w input) /\
    packageName (JavaScript.validate (JavaScript.with_manifest w m) input)
    = packageName (JavaScript.validate w input) /\
    modulePath (JavaScript.validate (JavaScript.with_manifest w m) input)
    = modulePath (JavaScript.validate w input) /\
    reason (JavaScript.validate (JavaScript.with_manifest w m) input)
    = reason (JavaScript.validate w input) /\
    (valid (JavaScript.validate w input) = true ->
     JavaScript.validate (JavaScript.with_manifest w m) input
     = JavaScript.validate w input).
Proof.
  intros w m input. unfold JavaScript.validate.
  destruct (JavaScript.extractPackageNameFromImport _) as [n|]; [|repeat split].
  destruct (negb (JsString.truthy n)); [repeat split|].
  cbv zeta.
  change (JavaScript.cwd (JavaScript.with_manifest w m)) with (JavaScript.cwd w).
  change (JavaScript.checkPackageExists (JavaScript.with_manifest w m))
    with (JavaScript.checkPackageExists w).
  change (JavaScript.resolveModulePath (JavaScript.with_manifest w m))
    with (JavaScript.resolveModulePath w).
  destruct (JavaScript.checkPackageExists w n _).
  - repeat split.
  - cbn [valid packageName modulePath reason]. repeat split. discriminate.
Qed.

(** *** The flag for development dependencies *)

Lemma flag_shows_in_key (p rest : string) (b b' : bool) :
  b <> b' ->
  p ++ JsString.of_boolean b ++ rest <> p ++ JsString.of_boolean b' ++ rest.
Proof.
  intros Hb H. apply JsStringFacts.append_inj_l in H.
  destruct b, b'; try congruence; discriminate.
Qed.

(** The key of a discovery is a text that does not depend on the flag,
    then the flag, then the bound. *)
Lemma discover_key_shape (l : Language) (lang : Language) (searchTerm : option string)
      (maxResults : Z) :
  l <> rust ->
  exists p,
    forall b, request_key l (Discover (mkDiscoverInput lang searchTerm b maxResults))
              = p ++ JsString.of_boolean b ++ ":" ++ JsString.of_number maxResults.
Proof.
  intros Hl.
  destruct l; [| | congruence | |]; destruct searchTerm as [t|].
  - exists ("discover:" ++ language_name lang ++ ":" ++ t ++ ":"). intros b.
    cbn [request_key]. unfold JavaScript.discover_key, Cache.generateKey.
    cbn [d_language d_searchTerm d_includeDevDependencies d_maxResults Cache.opt_str
         filter Cache.is_defined map Cache.part_to_string].
    unfold JsString.join. cbn [String.concat].
    now rewrite !JsStringFacts.append_assoc.
  - exists ("discover:" ++ language_name lang ++ ":"). intros b.
    cbn [request_key]. unfold JavaScript.discover_key, Cache.generateKey.
    cbn [d_language d_searchTerm d_includeDevDependencies d_maxResults Cache.opt_str
         filter Cache.is_defined map Cache.part_to_string].
    unfold JsString.join. cbn [String.concat].
    now rewrite !JsStringFacts.append_assoc.
  - exists ("discover_python:" ++ t ++ ":"). intros b.
    cbn [request_key]. unfold Python.discover_key, Cache.generateKey.
    cbn [d_language d_searchTerm d_includeDevDependencies d_maxResults Cache.opt_str
         filter Cache.is_defined map Cache.part_to_string].
    unfold JsString.join. cbn [String.concat].
    now rewrite !JsStringFacts.append_assoc.
  - exists "discover_python:". intros b. reflexivity.
  - exists ("discover_go:" ++ t ++ ":"). intros b.
    cbn [request_key]. unfold Go.discover_key, Cache.generateKey.
    cbn [d_language d_searchTerm d_includeDevDependencies d_maxResults Cache.opt_str
         filter Cache.is_defined map Cache.part_to_string].
    unfold JsString.join. cbn [String.concat].
    now rewrite !JsStringFacts.append_assoc.
  - exists "discover_go:". intros b. reflexivity.
  - exists ("discover_java:" ++ t ++ ":"). intros b.
    cbn [request_key]. unfold Java.discover_key, Cache.generateKey.
    cbn [d_language d_searchTerm d_includeDevDependencies d_maxResults Cache.opt_str
         filter Cache.is_defined map Cache.part_to_string].
    unfold JsString.join. cbn [String.concat].
    now rewrite !JsStringFacts.append_assoc.
  - exists "discover_java:". intros b. reflexivity.
Qed.

(** X21.  The JavaScript, Python, Go and Java engines do not read
    [includeDevDependencies]: [discoverPackages] computes the same
    result for both values of the flag, although it stores the result
    under a key that differs with the flag. *)
Theorem dev_flag_changes_key_not_result :
  forall (ws : Worlds) (l : Language) (now : Z) (lang : Language)
         (searchTerm : option string) (b b' : bool) (maxResults : Z),
    l <> rust ->
    discover ws l now (mkDiscoverInput lang searchTerm b maxResults)
    = discover ws l now (mkDiscoverInput lang searchTerm b' maxResults) /\
    (b <> b' ->
     request_key l (Discover (mkDiscoverInput lang searchTerm b maxResults))
     <> request_key l (Discover (mkDiscoverInput lang searchTerm b' maxResults))).
Proof.
  intros ws l now lang searchTerm b b' maxResults Hl.
  split; [destruct l; try reflexivity; congruence|].
  intros Hb. destruct (discover_key_shape l lang searchTerm maxResults Hl) as [p Hp].
  rewrite !Hp. now apply flag_shows_in_key.
Qed.

Lemma dev_flag_changes_key_not_result_witness :
  discover Examples.worlds javascript 0 (mkDiscoverInput javascript None false 10)
  = discover Examples.worlds javascript 0 (mkDiscoverInput javascript None true 10) /\
  (false <> true ->
   request_key javascript (Discover (mkDiscoverInput javascript None false 10))
   <> request_key javascript (Discover (mkDiscoverInput javascript None true 10))).
Proof.
  apply dev_flag_changes_key_not_result. discriminate.
Defined.

End EngineLaws.

(** ** Laws of the package names taken from import statements *)

Module NameLaws.

Import Types Common Vocabulary.

Lemma head_of_split (sep s : string) :
  sep <> EmptyString ->
  exists rest,
    s = head_or_empty (JsString.split sep s) ++ rest /\
    (rest = EmptyString \/ prefix sep rest = true) /\
    JsString.includes (head_or_empty (JsString.split sep s)) sep = false.
Proof.
  intros Hsep. destruct (StringLaws.split_head sep s Hsep) as (h & rest & more & -> & H).
  now exists rest.
Qed.

(** X22.  The root that the Python and the Rust engine validate holds no
    separator.  In the Rust engine a root therefore never starts with
    [std::], so that only the registry decides whether it belongs to the
    standard library. *)
Theorem root_name_has_no_separator :
  forall statement root : string,
    (Python.extractPackageNameFromImport statement = Some root ->
     JsString.includes root "." = false) /\
    (Rust.extractPackageNameFromImport statement = Some root ->
     JsString.includes root "::" = false /\
     Rust.isStandardLibraryModule root = set_has Rust.RUST_STDLIB_MODULES root).
Proof.
  intros statement root. split.
  - unfold Python.extractPackageNameFromImport.
    destruct (first_group statement Python.patterns) as [g|]; [|discriminate].
    destruct (head_of_split "." g ltac:(discriminate)) as (rest & _ & _ & H).
    unfold or_null. destruct (JsString.truthy _); [|discriminate].
    now intros [= <-].
  - unfold Rust.extractPackageNameFromImport.
    destruct (first_group statement Rust.patterns) as [g|]; [|discriminate].
    destruct (head_of_split "::" g ltac:(discriminate)) as (rest & _ & _ & H).
    unfold or_null. destruct (JsString.truthy _); [|discriminate].
    intros [= <-]. split; [exact H|].
    unfold Rust.isStandardLibraryModule, JsString.startsWith.
    destruct (prefix "std::" _) eqn:E; [|apply orb_false_r].
    apply JsStringFacts.prefix_inv in E as [r E].
    assert (JsString.includes (head_or_empty (JsString.split "::" g)) "::" = true);
      [|congruence].
    apply JsStringFacts.includes_spec. exists "std", r. rewrite E. reflexivity.
Qed.

(** X23.  The Java engine validates the package of the imported class:
    the import without its last component; an import of one component
    stands for itself. *)
Theorem java_package_drops_last_component :
  forall fullPackage : string,
    (exists class_name,
        fullPackage = Java.package_part fullPackage ++ "." ++ class_name /\
        free_of "." class_name = true) \/
    (Java.package_part fullPackage = fullPackage /\ free_of "." fullPackage = true).
Proof.
  intros s. unfold Java.package_part.
  pose proof (StringLaws.join_split "." s ltac:(discriminate)) as Hjoin.
  pose proof (StringLaws.split_pieces_free "." s) as Hfree.
  pose proof (StringLaws.split_nonempty "." s) as Hne.
  destruct (1 <? List.length (JsString.split "." s))%nat eqn:E.
  - left. apply Nat.ltb_lt in E. exists (last (JsString.split "." s) EmptyString). split.
    + rewrite <- Hjoin at 1. now apply StringLaws.join_removelast.
    + rewrite Forall_forall in Hfree. apply Hfree.
      destruct (exists_last Hne) as (front & x & ->). rewrite last_last.
      apply in_or_app. right. now left.
  - right. apply Nat.ltb_ge in E.
    destruct (JsString.split "." s) as [|x [|y l]]; [congruence | | cbn in E; lia].
    cbn in Hjoin. subst x. split; [reflexivity|].
    now inversion Hfree.
Qed.

(** X24.  The package that the JavaScript engine validates is the head
    of the specifier: it is not empty, the specifier continues after it
    with a slash or not at all, and outside a scope it holds no slash. *)
Theorem javascript_package_is_head_of_specifier :
  forall fullPath package_name : string,
    JavaScript.package_of_path fullPath = Some package_name ->
    JsString.truthy package_name = true /\
    (exists rest, fullPath = package_name ++ rest /\
                  (rest = EmptyString \/ JsString.startsWith rest "/" = true)) /\
    (JsString.startsWith fullPath "@" = false -> free_of "/" package_name = true).
Proof.
  intros s p. unfold JavaScript.package_of_path.
  pose proof (StringLaws.join_split "/" s ltac:(discriminate)) as Hjoin.
  pose proof (StringLaws.split_pieces_free "/" s) as Hfree.
  destruct (JsString.startsWith s "@") eqn:Scoped.
  - assert (Hs : JsString.truthy s = true) by (destruct s; [discriminate | reflexivity]).
    destruct (JsString.split "/" s) as [|p0 [|p1 more]].
    + intros [= <-]. repeat split; [exact Hs | | discriminate].
      exists EmptyString. now rewrite JsStringFacts.append_nil_r; split; [|left].
    + intros [= <-]. repeat split; [exact Hs | | discriminate].
      exists EmptyString. now rewrite JsStringFacts.append_nil_r; split; [|left].
    + intros [= <-]. split; [|split; [|discriminate]].
      * rewrite StringLaws.join_cons in Hjoin by discriminate.
        destruct p0; [|reflexivity].
        cbn [append]. reflexivity.
      * destruct more as [|p2 more].
        -- exists EmptyString. rewrite JsStringFacts.append_nil_r. split; [|now left].
           now rewrite <- Hjoin.
        -- exists ("/" ++ JsString.join "/" (p2 :: more)).
           split; [|right; apply (JsStringFacts.prefix_app "/")].
           rewrite <- Hjoin at 1.
           rewrite StringLaws.join_cons by discriminate.
           rewrite (StringLaws.join_cons "/" p1) by discriminate.
           now rewrite !JsStringFacts.append_assoc.
  - unfold or_null.
    destruct (JsString.truthy (head_or_empty (JsString.split "/" s))) eqn:T; [|discriminate].
    intros [= <-]. split; [exact T|]. split.
    + destruct (JsString.split "/" s) as [|p0 [|p1 more]]; [discriminate | |].
      * exists EmptyString. cbn in Hjoin. cbn [head_or_empty].
        rewrite JsStringFacts.append_nil_r. now split; [|left].
      * exists ("/" ++ JsString.join "/" (p1 :: more)). cbn [head_or_empty].
        split; [|right; apply (JsStringFacts.prefix_app "/")]. rewrite <- Hjoin at 1.
        now rewrite StringLaws.join_cons by discriminate.
    + intros _. destruct (JsString.split "/" s) as [|p0 more]; [discriminate|].
      cbn [head_or_empty]. now inversion Hfree.
Qed.

Lemma javascript_package_is_head_of_specifier_witness :
  JsString.truthy "@babel/parser" = true /\
  (exists rest, "@babel/parser/lib/index.js" = "@babel/parser" ++ rest /\
                (rest = EmptyString \/ JsString.startsWith rest "/" = true)) /\
  (JsString.startsWith "@babel/parser/lib/index.js" "@" = false ->
   free_of "/" "@babel/parser" = true).
Proof.
  apply javascript_package_is_head_of_specifier. reflexivity.
Defined.

Lemma name_parts (g a : string) :
  free_of ":" g = true -> free_of ":" a = true ->
  Java.name_part 0 (g ++ ":" ++ a) = g /\ Java.name_part 1 (g ++ ":" ++ a) = a.
Proof.
  intros Hg Ha. unfold Java.name_part.
  change (g ++ ":" ++ a) with (JsString.join ":" [g; a]).
  rewrite (StringLaws.split_join ":" [g; a]); [now split | discriminate|].
  now repeat constructor.
Qed.

(** X25.  In the Java engine a declared dependency vouches for every
    package whose name contains its group id or its artifact id: an
    import of such a package is valid. *)
Theorem java_dependency_vouches_by_containment :
  forall (w : Java.World) (dependencies : list (string * string))
         (groupId artifactId version : string)
         (input : ValidateImportInput) (packageName : string),
    Java.build_file w = Some dependencies ->
    In (groupId ++ ":" ++ artifactId, version) dependencies ->
    free_of ":" groupId = true ->
    free_of ":" artifactId = true ->
    Java.extractPackageNameFromImport (importStatement input) = Some packageName ->
    JsString.truthy packageName = true ->
    JsString.includes packageName groupId = true \/
    JsString.includes packageName artifactId = true ->
    valid (Java.validate w input) = true.
Proof.
  intros w deps g a v input n Hfile Hin Hg Ha Hn Htruthy Hcontains.
  unfold Java.validate. rewrite Hn, Htruthy. cbn [negb].
  destruct (Java.isStandardLibraryPackage n); [reflexivity|].
  assert (Hcheck : Java.checkPackageInBuildFile w n = true).
  { unfold Java.checkPackageInBuildFile. rewrite Hfile. apply existsb_exists.
    exists (g ++ ":" ++ a, v). split; [exact Hin|]. cbn [fst].
    destruct (name_parts g a Hg Ha) as [-> ->].
    destruct Hcontains as [-> | ->]; [now rewrite orb_true_r | apply orb_true_r]. }
  now rewrite Hcheck.
Qed.

Lemma java_dependency_vouches_by_containment_witness :
  valid (Java.validate (Java.mkWorld (Some [("org:junit", "4.13")]))
                       (mkValidateInput "import org.example.app.Main;" java None))
  = true.
Proof.
  apply (java_dependency_vouches_by_containment
           (Java.mkWorld (Some [("org:junit", "4.13")]))
           [("org:junit", "4.13")] "org" "junit" "4.13"
           (mkValidateInput "import org.example.app.Main;" java None)
           "org.example.app").
  - reflexivity.
  - now left.
  - reflexivity.
  - reflexivity.
  - vm_compute. reflexivity.
  - reflexivity.
  - left. vm_compute. reflexivity.
Defined.

End NameLaws.

(** ** Laws of the JavaScript module analysis *)

Module ModuleLaws.

Import Types Common JavaScript.

Lemma substring_split (n : nat) (s : string) :
  (n <= String.length s)%nat ->
  s = substring 0 n s ++ substring n (String.length s - n) s.
Proof.
  revert s. induction n as [|n IH]; intros s H.
  - rewrite Nat.sub_0_r. replace (substring 0 0 s) with EmptyString by now destruct s.
    symmetry. apply RegexFacts.substring_all.
  - destruct s as [|c s]; [cbn in H; lia|].
    cbn [substring String.length append Nat.sub]. f_equal. apply IH.
    cbn in H. lia.
Qed.

Lemma endsWith_spec (s suffix : string) :
  endsWith s suffix = true ->
  s = substring 0 (String.length s - String.length suffix) s ++ suffix.
Proof.
  unfold endsWith. intros H. apply andb_true_iff in H as [Hlen Heq].
  apply Nat.leb_le in Hlen. apply String.eqb_eq in Heq.
  rewrite (substring_split (String.length s - String.length suffix) s) at 1 by lia.
  replace (String.length s - (String.length s - String.length suffix))%nat
    with (String.length suffix) by lia.
  now rewrite Heq.
Qed.

(** A file with one of the two extensions is its stripped name and the
    extension. *)
Lemma strip_extension_spec (file : string) :
  endsWith file ".js" || endsWith file ".ts" = true ->
  file = strip_extension file ++ ".js" \/ file = strip_extension file ++ ".ts".
Proof.
  intros H. unfold strip_extension. rewrite H.
  destruct (endsWith file ".js") eqn:J.
  - left. now apply (endsWith_spec file ".js").
  - cbn [orb] in H. right. now apply (endsWith_spec file ".ts").
Qed.

(** X26.  The submodules of a module are at most ten; each is the name,
    without its extension, of a [.js] or [.ts] file that the directory
    of the module lists, and none is [index]. *)
Theorem submodules_are_listed_script_files :
  forall (w : World) (moduleName : string) (modulePath : option string),
    (List.length (findSubmodules w moduleName modulePath) <= 10)%nat /\
    Forall (fun submodule =>
              submodule <> "index" /\
              exists p files file,
                modulePath = Some p /\
                readdir w (dirname w p) = Some files /\
                In file files /\
                (file = submodule ++ ".js" \/ file = submodule ++ ".ts"))
           (findSubmodules w moduleName modulePath).
Proof.
  intros w moduleName modulePath. unfold findSubmodules.
  destruct modulePath as [p|]; [|split; [cbn; lia | constructor]].
  destruct (negb (JsString.truthy p)); [split; [cbn; lia | constructor]|].
  destruct (readdir w (dirname w p)) as [files|] eqn:R; [|split; [cbn; lia | constructor]].
  split; [apply firstn_le_length|].
  apply Forall_forall. intros s Hs. apply ValidationSpec.In_firstn in Hs.
  apply in_map_iff in Hs as (file & <- & Hfile).
  apply filter_In in Hfile as [Hfile Hindex].
  apply filter_In in Hfile as [Hin Hext].
  apply andb_true_iff in Hindex as [Hjs Hts].
  apply negb_true_iff, String.eqb_neq in Hjs, Hts.
  destruct (strip_extension_spec file Hext) as [E|E].
  - split; [intros Hi; apply Hjs; rewrite E, Hi; reflexivity|].
    exists p, files, file. repeat split; auto.
  - split; [intros Hi; apply Hts; rewrite E, Hi; reflexivity|].
    exists p, files, file. repeat split; auto.
Qed.

(** X27.  Without [includePrivate] no export of a package that is not
    built in has a name that starts with an underscore, unless the list
    is read from the [exports] map of a [package.json], whose keys are
    taken as they are. *)
Theorem private_exports_are_hidden :
  forall (w : World) (moduleName : string) (modulePath : option string),
    Builtin.isNodeBuiltinModule moduleName = false ->
    Forall (fun e => JsString.startsWith (export_name e) "_" = false)
           (analyzeModuleExports w moduleName modulePath false) \/
    exists keys,
      package_exports w (join w [dirname w (or_default modulePath EmptyString);
                                 "package.json"]) = Some keys /\
      analyzeModuleExports w moduleName modulePath false
      = map (fun exportPath =>
               mkExport (if String.eqb exportPath "." then "default" else exportPath)
                        TNamespace None None)
            keys.
Proof.
  intros w moduleName modulePath Hb. unfold analyzeModuleExports. rewrite Hb. cbv zeta.
  set (from_ast := match modulePath with
                   | Some p => if JsString.truthy p
                               then match parseFile w p with
                                    | Some found => filter _ found
                                    | None => []
                                    end
                               else []
                   | None => []
                   end).
  assert (Hast : Forall (fun e => JsString.startsWith (export_name e) "_" = false) from_ast).
  { subst from_ast. destruct modulePath as [p|]; [|constructor].
    destruct (JsString.truthy p); [|constructor].
    destruct (parseFile w p) as [found|]; [|constructor].
    apply Forall_forall. intros e He. apply filter_In in He as [_ He].
    unfold visible in He. cbn [orb] in He. now apply negb_true_iff in He. }
  destruct (0 <? List.length from_ast)%nat; [now left|].
  set (from_import := match modulePath with
                      | Some p => if JsString.truthy p
                                  then match dynamic_import w p with
                                       | Some bindings => map _ (filter _ bindings)
                                       | None => []
                                       end
                                  else []
                      | None => []
                      end).
  assert (Himport : Forall (fun e => JsString.startsWith (export_name e) "_" = false)
                           from_import).
  { subst from_import. destruct modulePath as [p|]; [|constructor].
    destruct (JsString.truthy p); [|constructor].
    destruct (dynamic_import w p) as [bindings|]; [|constructor].
    apply Forall_map, Forall_forall. intros kv Hkv. apply filter_In in Hkv as [_ Hkv].
    unfold visible in Hkv. cbn [orb] in Hkv. cbn [export_name].
    now apply negb_true_iff in Hkv. }
  destruct (List.length from_import =? 0)%nat; [|now left].
  destruct (package_exports w _) as [keys|]; [|left; constructor].
  right. now exists keys.
Qed.

Lemma private_exports_are_hidden_witness :
  Forall (fun e => JsString.startsWith (export_name e) "_" = false)
         (analyzeModuleExports Examples.parsed_js "left-pad" (Some "/x/index.js") false) \/
  exists keys,
    package_exports Examples.parsed_js
                    (join Examples.parsed_js
                          [dirname Examples.parsed_js
                                   (or_default (Some "/x/index.js") EmptyString);
                           "package.json"]) = Some keys /\
    analyzeModuleExports Examples.parsed_js "left-pad" (Some "/x/index.js") false
    = map (fun exportPath =>
             mkExport (if String.eqb exportPath "." then "default" else exportPath)
                      TNamespace None None)
          keys.
Proof.
  apply private_exports_are_hidden. reflexivity.
Defined.

End ModuleLaws.

(** ** Laws of the manifest lookup *)

Module LocatorLaws.

Import Locator.

Lemma ancestor_refl (d : Dir) : ancestor d d.
Proof. now exists []. Qed.

Lemma ancestor_cons (d parent : Dir) (x : string) :
  ancestor d (x :: parent) -> d = x :: parent \/ ancestor d parent.
Proof.
  intros [[|y inner] H]; [left; now symmetry|].
  right. injection H as _ H. now exists inner.
Qed.

Lemma ancestor_length (d start : Dir) :
  ancestor d start -> (List.length d <= List.length start)%nat.
Proof. intros [inner ->]. rewrite length_app. lia. Qed.

Lemma ancestor_antisym (d d' : Dir) : ancestor d d' -> ancestor d' d -> d = d'.
Proof.
  intros [inner H] H'. apply ancestor_length in H'. subst d'.
  rewrite length_app in H'. destruct inner; [reflexivity | cbn in H'; lia].
Qed.

(** X28.  The lookup of a manifest walks from the start directory
    towards the root and stops at the first directory that holds the
    file; the root itself is never looked at. *)
Theorem manifest_is_found_in_nearest_directory :
  forall (has : Dir -> bool) (start : Dir),
    match find_up has start with
    | Some dir =>
        dir <> [] /\ ancestor dir start /\ has dir = true /\
        (forall nearer, ancestor nearer start -> ancestor dir nearer ->
                        nearer <> dir -> has nearer = false)
    | None =>
        forall dir, ancestor dir start -> dir <> [] -> has dir = false
    end.
Proof.
  intros has start. induction start as [|x parent IH]; cbn [find_up].
  - intros dir [inner H] Hne. destruct inner; destruct dir; cbn in H; congruence.
  - destruct (has (x :: parent)) eqn:E.
    + repeat split; [discriminate | apply ancestor_refl | exact E |].
      intros nearer H1 H2 Hne. exfalso. apply Hne. now apply ancestor_antisym.
    + destruct (find_up has parent) as [dir|].
      * destruct IH as (Hne & Hanc & Hhas & Hnear). repeat split; auto.
        -- destruct Hanc as [inner ->]. now exists (x :: inner).
        -- intros nearer H1 H2 Hd. apply ancestor_cons in H1 as [->|H1]; [exact E|].
           now apply Hnear.
      * intros dir H Hne. apply ancestor_cons in H as [->|H]; [exact E | now apply IH].
Qed.

Lemma findBuildFile_find_up (has : Dir -> string -> bool) (start : Dir) :
  option_map fst (findBuildFile has start)
  = find_up (fun d => has d "pom.xml" || has d "build.gradle" || has d "build.gradle.kts")
            start.
Proof.
  induction start as [|x parent IH]; cbn [findBuildFile find_up]; [reflexivity|].
  destruct (has (x :: parent) "pom.xml"); [reflexivity|].
  destruct (has (x :: parent) "build.gradle"); [reflexivity|].
  destruct (has (x :: parent) "build.gradle.kts"); [reflexivity | exact IH].
Qed.

(** X29.  The Java build file is looked for like the other manifests,
    in the nearest directory that holds one of the three file names;
    there [pom.xml] goes before [build.gradle], which goes before
    [build.gradle.kts]. *)
Theorem build_file_prefers_maven :
  forall (has : Dir -> string -> bool) (start : Dir),
    option_map fst (findBuildFile has start)
    = find_up (fun d => has d "pom.xml" || has d "build.gradle" || has d "build.gradle.kts")
              start /\
    forall dir file,
      findBuildFile has start = Some (dir, file) ->
      has dir file = true /\
      (file = "pom.xml" \/
       (file = "build.gradle" /\ has dir "pom.xml" = false) \/
       (file = "build.gradle.kts" /\ has dir "pom.xml" = false /\
        has dir "build.gradle" = false)).
Proof.
  intros has start. split; [apply findBuildFile_find_up|].
  induction start as [|x parent IH]; cbn [findBuildFile]; [discriminate|].
  intros dir file.
  destruct (has (x :: parent) "pom.xml") eqn:P; [intros [= <- <-]; auto|].
  destruct (has (x :: parent) "build.gradle") eqn:G; [intros [= <- <-]; auto|].
  destruct (has (x :: parent) "build.gradle.kts") eqn:K; [intros [= <- <-]; auto 6|].
  apply IH.
Qed.

End LocatorLaws.

(** ** Laws of the engine factory *)

Module FactoryLaws.

Import Types Factory.

Lemma find_existsb {A : Type} (f : A -> bool) (l : list A) :
  existsb f l = match find f l with Some _ => true | None => false end.
Proof.
  induction l as [|x l IH]; cbn [existsb find]; [reflexivity|].
  now destruct (f x).
Qed.

(** X30.  The factory looks a language up by its lowered name: a
    language is supported exactly when [getEngine] does not throw, this
    is so exactly for the five names that [getSupportedLanguages]
    lists, whatever their case, and each of them gets its own engine. *)
Theorem engine_lookup_ignores_case :
  forall (ws : Worlds) (l : string),
    (isLanguageSupported l = true <-> exists e, getEngine ws l = Some e) /\
    (isLanguageSupported l = true <->
     In (JsString.toLowerCase l) getSupportedLanguages) /\
    getEngine ws (JsString.toLowerCase l) = getEngine ws l /\
    (forall x : Language, getEngine ws (language_name x) = Some (engine ws x)).
Proof.
  intros ws l. split; [|split; [|split]].
  - unfold isLanguageSupported, getEngine. rewrite find_existsb.
    destruct (find _ languages) as [x|]; split; try discriminate; eauto.
    intros [e He]. discriminate.
  - unfold isLanguageSupported, getSupportedLanguages. rewrite existsb_exists. split.
    + intros (x & Hx & E). apply String.eqb_eq in E. rewrite <- E. now apply in_map.
    + intros H. apply in_map_iff in H as (x & E & Hx). exists x.
      split; [exact Hx | now apply String.eqb_eq].
  - unfold getEngine. now rewrite StringLaws.toLowerCase_idempotent.
  - intros x. destruct x; reflexivity.
Qed.

End FactoryLaws.
